(** * The changefeed state manager of the TiCDC owner (package [owner])

    A shallow embedding of [feedStateManager] and of the functions that
    drive it: [Tick], [handleAdminJob], [patchState], [handleError],
    [handleWarning], the processor-report collectors and the epoch
    generator.  Go pointers that may be nil are [option]s, a nil
    dereference or a [log.Panic] is the result [None], and the closures
    handed to [PatchInfo]/[PatchStatus]/[PatchTaskPosition] are Rocq
    functions queued on the reactor state, exactly as the Go code queues
    them: nothing is applied to the persisted values during a tick. *)

From Stdlib Require Import ZArith List String Bool Lia QArith Qround.
Import ListNotations.
Open Scope string_scope.
Open Scope list_scope.
Open Scope Z_scope.

Set Implicit Arguments.

(** ** The option monad: a Go panic is [None] *)

Definition bind {A C : Type} (x : option A) (k : A -> option C) : option C :=
  match x with
  | Some a => k a
  | None => None
  end.

Notation "x <- e ;; k" := (bind e (fun x => k))
  (at level 61, e at next level, right associativity).
Notation "' p <- e ;; k" := (bind e (fun p => k))
  (at level 61, p pattern, e at next level, right associativity).

(** ** cdc/model *)

(** Modelled from the spec: the members of [model.FeedState] (cdc/model is
    not among the sources).  The Go type is a string; [StateUnset] is its
    zero value, which the entries of a fresh [stateHistory] array hold. *)
Inductive FeedState : Type :=
| StateNormal
| StateError
| StateWarning
| StateFailed
| StateStopped
| StateRemoved
| StateFinished
| StateUnset.

Definition FeedState_eqb (a b : FeedState) : bool :=
  match a, b with
  | StateNormal, StateNormal | StateError, StateError
  | StateWarning, StateWarning | StateFailed, StateFailed
  | StateStopped, StateStopped | StateRemoved, StateRemoved
  | StateFinished, StateFinished | StateUnset, StateUnset => true
  | _, _ => false
  end.

(** Modelled from the spec: the members of [model.AdminJobType]. *)
Inductive AdminJobType : Type :=
| AdminNone
| AdminStop
| AdminResume
| AdminRemove
| AdminFinish.

Definition AdminJobType_eqb (a b : AdminJobType) : bool :=
  match a, b with
  | AdminNone, AdminNone | AdminStop, AdminStop | AdminResume, AdminResume
  | AdminRemove, AdminRemove | AdminFinish, AdminFinish => true
  | _, _ => false
  end.

Record ChangeFeedID : Type := {
  cf_Namespace : string;
  cf_ID : string
}.

Definition ChangeFeedID_eqb (a b : ChangeFeedID) : bool :=
  String.eqb (cf_Namespace a) (cf_Namespace b) && String.eqb (cf_ID a) (cf_ID b).

Definition CaptureID := string.

Record RunningError : Type := {
  err_Addr : string;
  err_Code : string;
  err_Message : string
}.

(** The fields of [model.ChangeFeedInfo] the manager reads or writes.
    Unsigned 64-bit values are integers in [0, 2^64). *)
Record ChangeFeedInfo : Type := {
  info_State : FeedState;
  info_AdminJobType : AdminJobType;
  info_Error : option RunningError;
  info_Warning : option RunningError;
  info_Epoch : Z;
  info_StartTs : Z
}.

Record ChangeFeedStatus : Type := {
  status_ResolvedTs : Z;
  status_CheckpointTs : Z;
  status_MinTableBarrierTs : Z;
  status_AdminJobType : AdminJobType
}.

Record TaskPosition : Type := {
  pos_CheckPointTs : Z;
  pos_ResolvedTs : Z;
  pos_Error : option RunningError;
  pos_Warning : option RunningError
}.

Record AdminJob : Type := {
  job_CfID : ChangeFeedID;
  job_Type : AdminJobType;
  job_OverwriteCheckpointTs : Z
}.

Definition set_info_State (i : ChangeFeedInfo) (s : FeedState) :=
  {| info_State := s; info_AdminJobType := info_AdminJobType i;
     info_Error := info_Error i; info_Warning := info_Warning i;
     info_Epoch := info_Epoch i; info_StartTs := info_StartTs i |}.

Definition set_info_AdminJobType (i : ChangeFeedInfo) (a : AdminJobType) :=
  {| info_State := info_State i; info_AdminJobType := a;
     info_Error := info_Error i; info_Warning := info_Warning i;
     info_Epoch := info_Epoch i; info_StartTs := info_StartTs i |}.

Definition set_info_Error (i : ChangeFeedInfo) (e : option RunningError) :=
  {| info_State := info_State i; info_AdminJobType := info_AdminJobType i;
     info_Error := e; info_Warning := info_Warning i;
     info_Epoch := info_Epoch i; info_StartTs := info_StartTs i |}.

Definition set_info_Warning (i : ChangeFeedInfo) (e : option RunningError) :=
  {| info_State := info_State i; info_AdminJobType := info_AdminJobType i;
     info_Error := info_Error i; info_Warning := e;
     info_Epoch := info_Epoch i; info_StartTs := info_StartTs i |}.

Definition set_info_Epoch (i : ChangeFeedInfo) (e : Z) :=
  {| info_State := info_State i; info_AdminJobType := info_AdminJobType i;
     info_Error := info_Error i; info_Warning := info_Warning i;
     info_Epoch := e; info_StartTs := info_StartTs i |}.

Definition set_info_StartTs (i : ChangeFeedInfo) (t : Z) :=
  {| info_State := info_State i; info_AdminJobType := info_AdminJobType i;
     info_Error := info_Error i; info_Warning := info_Warning i;
     info_Epoch := info_Epoch i; info_StartTs := t |}.

Definition set_status_AdminJobType (s : ChangeFeedStatus) (a : AdminJobType) :=
  {| status_ResolvedTs := status_ResolvedTs s;
     status_CheckpointTs := status_CheckpointTs s;
     status_MinTableBarrierTs := status_MinTableBarrierTs s;
     status_AdminJobType := a |}.

Definition set_pos_Error (p : TaskPosition) (e : option RunningError) :=
  {| pos_CheckPointTs := pos_CheckPointTs p; pos_ResolvedTs := pos_ResolvedTs p;
     pos_Error := e; pos_Warning := pos_Warning p |}.

Definition set_pos_Warning (p : TaskPosition) (e : option RunningError) :=
  {| pos_CheckPointTs := pos_CheckPointTs p; pos_ResolvedTs := pos_ResolvedTs p;
     pos_Error := pos_Error p; pos_Warning := e |}.

(** ** Package [time] *)

(** [time.Duration]: signed 64-bit nanoseconds. *)
Definition Duration := Z.
Definition Second : Duration := 1000000000.
Definition Minute : Duration := 60 * Second.

Definition minDuration : Duration := - 2 ^ 63.
Definition maxDuration : Duration := 2 ^ 63 - 1.

(** A [time.Time] carries a wall-clock reading and, when it comes from
    [time.Now], a monotonic reading as well.  [==] on two [time.Time]
    values compares every field, so a value returned by [time.Now] never
    equals [time.Unix(0, 0)], which has no monotonic part. *)
Record Time : Type := {
  unixNano : Z;
  monotonic : option Z
}.

Definition time_Unix_0_0 : Time := {| unixNano := 0; monotonic := None |}.

Definition Time_eqb (a b : Time) : bool :=
  Z.eqb (unixNano a) (unixNano b) &&
  match monotonic a, monotonic b with
  | Some x, Some y => Z.eqb x y
  | None, None => true
  | _, _ => false
  end.

(** One reading of the clock, as [time.Now] takes it. *)
Record ClockReading : Type := {
  wallNano : Z;
  monoNano : Z
}.

Definition time_Now (r : ClockReading) : Time :=
  {| unixNano := wallNano r; monotonic := Some (monoNano r) |}.

Definition saturate (d : Z) : Duration := Z.max minDuration (Z.min maxDuration d).

(** [time.Since(t)] at the clock reading [r]: the monotonic difference when
    [t] has a monotonic part, the wall-clock difference otherwise; both
    saturate at the bounds of [Duration]. *)
Definition time_Since (r : ClockReading) (t : Time) : Duration :=
  match monotonic t with
  | Some m => saturate (monoNano r - m)
  | None => saturate (wallNano r - unixNano t)
  end.

(** ** The upstream time oracle and [GenerateChangefeedEpoch] *)

(** What a patch closure can reach outside its argument: the PD client of
    the upstream ([GetTS], which may fail) and the local clock.  The n-th
    request is answered by [pd_GetTS n]; [pd_calls] counts the requests
    made so far. *)
Record World : Type := {
  pd_calls : nat;
  pd_GetTS : nat -> option (Z * Z);
  wall_UnixNano : nat -> Z
}.

Definition Eff (X : Type) : Type := World -> option (X * World).

Definition uint64 (z : Z) : Z := z mod 2 ^ 64.

(** [oracle.ComposeTS] of client-go: [uint64((physical << 18) + logical)]. *)
Definition ComposeTS (physical logical : Z) : Z :=
  uint64 (Z.shiftl physical 18 + logical).

Definition GenerateChangefeedEpoch : Eff Z := fun w =>
  let n := pd_calls w in
  let w' := {| pd_calls := S n; pd_GetTS := pd_GetTS w;
               wall_UnixNano := wall_UnixNano w |} in
  match pd_GetTS w n with
  | None => Some (uint64 (wall_UnixNano w n), w')
  | Some (phyTs, logical) => Some (ComposeTS phyTs logical, w')
  end.

(** ** pkg/orchestrator: the reactor state and its pending patches *)

(** A patch closure over a pointer to [T]: it receives the latest
    persisted value (nil when the key is absent) and returns the new value
    and the changed flag.  The closures of this package always return a nil
    error, so that component is left out; [None] is a panic inside the
    closure. *)
Definition PatchFn (A : Type) : Type := option A -> Eff (option A * bool).

Inductive DataPatch : Type :=
| InfoPatch (f : PatchFn ChangeFeedInfo)
| StatusPatch (f : PatchFn ChangeFeedStatus)
| TaskPositionPatch (captureID : CaptureID) (f : PatchFn TaskPosition).

(** Modelled from the spec: [orchestrator.ChangefeedReactorState]
    (pkg/orchestrator is not among the sources).  [PatchInfo],
    [PatchStatus] and [PatchTaskPosition] append a closure to the pending
    patches; the persistence layer applies them later.  [TaskPositions] is
    a Go map with non-nil values: it is kept as the list of its entries, in
    the order in which a [range] loop visits them. *)
Record ChangefeedReactorState : Type := {
  rs_ID : ChangeFeedID;
  rs_Info : option ChangeFeedInfo;
  rs_Status : option ChangeFeedStatus;
  rs_TaskPositions : list (CaptureID * TaskPosition);
  rs_pendingPatches : list DataPatch
}.

Definition enqueue (st : ChangefeedReactorState) (p : DataPatch) :=
  {| rs_ID := rs_ID st; rs_Info := rs_Info st; rs_Status := rs_Status st;
     rs_TaskPositions := rs_TaskPositions st;
     rs_pendingPatches := rs_pendingPatches st ++ [p] |}.

(** ** github.com/cenkalti/backoff/v4 *)

Record BackOffParams : Type := {
  InitialInterval : Duration;
  MaxInterval : Duration;
  Multiplier : Q;
  RandomizationFactor : Q;
  MaxElapsedTime : Duration
}.

(** The interface of [backoff.ExponentialBackOff] that the manager uses.
    The library is an external dependency: its clock and its random source
    live inside the abstract state [B], so [NextBackOff] is a function of
    that state alone. *)
Class ExponentialBackOff (B : Type) : Type := {
  NewExponentialBackOff : BackOffParams -> B;
  Reset : B -> B;
  NextBackOff : B -> Duration * B
}.

(** [backoff.Stop]: "NextBackOff() will return -1 once the MaxElapsedTime
    has elapsed". *)
Definition Stop : Duration := -1.

(** ** pkg/errors and the methods of [model.RunningError] *)

(** The two classifiers are defined outside the sources and are taken as
    parameters. *)
Class ErrorClassifier : Type := {
  IsChangefeedFastFailErrorCode : string -> bool;
  IsChangefeedUnRetryableError : RunningError -> bool
}.

(** ** The manager *)

Definition defaultBackoffInitInterval : Duration := 10 * Second.
Definition defaultBackoffMaxInterval : Duration := 30 * Minute.
Definition defaultBackoffMaxElapsedTime : Duration := 90 * Minute.
Definition defaultBackoffRandomizationFactor : Q := 1 # 10.
Definition defaultBackoffMultiplier : Q := 2 # 1.
Definition defaultStateWindowSize : nat := 512.

(** [feedStateManager].  The [upstream] field only gives access to the PD
    client, which is part of [World]; [state] is the pointer bound by
    [Tick], nil before the first tick; [stateHistory] is the array of
    [defaultStateWindowSize] entries. *)
Record feedStateManager (B : Type) : Type := {
  state : option ChangefeedReactorState;
  shouldBeRunning : bool;
  shouldBeRemoved : bool;
  adminJobQueue : list AdminJob;
  stateHistory : list FeedState;
  lastErrorTime : Time;
  backoffInterval : Duration;
  errBackoff : B
}.

Section Setters.
Context {B : Type}.
Implicit Type m : feedStateManager B.

Definition set_state m (s : option ChangefeedReactorState) :=
  {| state := s; shouldBeRunning := shouldBeRunning m;
     shouldBeRemoved := shouldBeRemoved m; adminJobQueue := adminJobQueue m;
     stateHistory := stateHistory m; lastErrorTime := lastErrorTime m;
     backoffInterval := backoffInterval m; errBackoff := errBackoff m |}.

Definition set_shouldBeRunning m (b : bool) :=
  {| state := state m; shouldBeRunning := b;
     shouldBeRemoved := shouldBeRemoved m; adminJobQueue := adminJobQueue m;
     stateHistory := stateHistory m; lastErrorTime := lastErrorTime m;
     backoffInterval := backoffInterval m; errBackoff := errBackoff m |}.

Definition set_shouldBeRemoved m (b : bool) :=
  {| state := state m; shouldBeRunning := shouldBeRunning m;
     shouldBeRemoved := b; adminJobQueue := adminJobQueue m;
     stateHistory := stateHistory m; lastErrorTime := lastErrorTime m;
     backoffInterval := backoffInterval m; errBackoff := errBackoff m |}.

Definition set_adminJobQueue m (q : list AdminJob) :=
  {| state := state m; shouldBeRunning := shouldBeRunning m;
     shouldBeRemoved := shouldBeRemoved m; adminJobQueue := q;
     stateHistory := stateHistory m; lastErrorTime := lastErrorTime m;
     backoffInterval := backoffInterval m; errBackoff := errBackoff m |}.

Definition set_stateHistory m (h : list FeedState) :=
  {| state := state m; shouldBeRunning := shouldBeRunning m;
     shouldBeRemoved := shouldBeRemoved m; adminJobQueue := adminJobQueue m;
     stateHistory := h; lastErrorTime := lastErrorTime m;
     backoffInterval := backoffInterval m; errBackoff := errBackoff m |}.

Definition set_lastErrorTime m (t : Time) :=
  {| state := state m; shouldBeRunning := shouldBeRunning m;
     shouldBeRemoved := shouldBeRemoved m; adminJobQueue := adminJobQueue m;
     stateHistory := stateHistory m; lastErrorTime := t;
     backoffInterval := backoffInterval m; errBackoff := errBackoff m |}.

Definition set_backoff m (d : Duration) (b : B) :=
  {| state := state m; shouldBeRunning := shouldBeRunning m;
     shouldBeRemoved := shouldBeRemoved m; adminJobQueue := adminJobQueue m;
     stateHistory := stateHistory m; lastErrorTime := lastErrorTime m;
     backoffInterval := d; errBackoff := b |}.
End Setters.

(** The two moments of a tick at which the clock is read: [time.Now()] in
    the backoff bookkeeping of [handleError], and the reading [time.Since]
    takes at the restart gate. *)
Record TickClock : Type := {
  now_error : ClockReading;
  now_gate : ClockReading
}.

(** In-place update of a slice or array entry; out of range it does
    nothing (the array of the manager has a fixed length, so the code never
    gets there). *)
Fixpoint list_set {A : Type} (l : list A) (i : nat) (v : A) : list A :=
  match l, i with
  | [], _ => []
  | _ :: t, O => v :: t
  | h :: t, S j => h :: list_set t j v
  end.

(** A Go map from error code to error, as the list of its entries: a write
    to a code already present replaces the entry (last write wins), a new
    code is added at the end. *)
Fixpoint code_insert (code : string) (e : RunningError)
    (mp : list (string * RunningError)) : list (string * RunningError) :=
  match mp with
  | [] => [(code, e)]
  | (c, e0) :: rest =>
      if String.eqb c code then (c, e) :: rest
      else (c, e0) :: code_insert code e rest
  end.

Section Manager.
Context {B : Type} `{ExponentialBackOff B} `{ErrorClassifier}.

Abbreviation Manager := (feedStateManager B).
Implicit Type m : Manager.

(** resetErrBackoff reset the backoff-related fields *)
Definition resetErrBackoff m : Manager :=
  let b := Reset (errBackoff m) in
  let '(d, b') := NextBackOff b in
  set_backoff m d b'.

(** newFeedStateManager creates feedStateManager and initialize the
    exponential backoff *)
Definition newFeedStateManager : Manager :=
  let f := {| state := None; shouldBeRunning := false;
              shouldBeRemoved := false; adminJobQueue := [];
              stateHistory := repeat StateUnset defaultStateWindowSize;
              lastErrorTime := {| unixNano := 0; monotonic := None |};
              backoffInterval := 0;
              errBackoff := NewExponentialBackOff
                {| InitialInterval := defaultBackoffInitInterval;
                   MaxInterval := defaultBackoffMaxInterval;
                   Multiplier := defaultBackoffMultiplier;
                   RandomizationFactor := defaultBackoffRandomizationFactor;
                   MaxElapsedTime := defaultBackoffMaxElapsedTime |} |} in
  let f := resetErrBackoff f in
  set_lastErrorTime f time_Unix_0_0.

(** isChangefeedStable check if there are states other than 'normal' in
    this sliding window. *)
Definition isChangefeedStable m : bool :=
  forallb (fun val => FeedState_eqb val StateNormal) (stateHistory m).

(** shiftStateWindow shift the sliding window *)
Definition shiftStateWindow (st : FeedState) m : Manager :=
  let h := fold_left
             (fun h i => match nth_error h (S i) with
                         | Some v => list_set h i v
                         | None => h
                         end)
             (seq 0 (defaultStateWindowSize - 1)) (stateHistory m) in
  set_stateHistory m (list_set h (defaultStateWindowSize - 1) st).

Definition ShouldRunning m : bool := shouldBeRunning m.

Definition ShouldRemoved m : bool := shouldBeRemoved m.

(** The three enqueuing methods of the reactor state, through the
    pointer [m.state]. *)
Definition PatchInfo (f : PatchFn ChangeFeedInfo) m : option Manager :=
  st <- state m ;;
  Some (set_state m (Some (enqueue st (InfoPatch f)))).

Definition PatchStatus (f : PatchFn ChangeFeedStatus) m : option Manager :=
  st <- state m ;;
  Some (set_state m (Some (enqueue st (StatusPatch f)))).

Definition PatchTaskPosition (captureID : CaptureID)
    (f : PatchFn TaskPosition) m : option Manager :=
  st <- state m ;;
  Some (set_state m (Some (enqueue st (TaskPositionPatch captureID f)))).

Definition popAdminJob m : option AdminJob * Manager :=
  match adminJobQueue m with
  | [] => (None, m)
  | job :: rest => (Some job, set_adminJobQueue m rest)
  end.

Definition pushAdminJob (job : AdminJob) m : Manager :=
  set_adminJobQueue m (adminJobQueue m ++ [job]).

Definition MarkFinished m : Manager :=
  match state m with
  | None => m
  | Some st =>
      pushAdminJob {| job_CfID := rs_ID st; job_Type := AdminFinish;
                      job_OverwriteCheckpointTs := 0 |} m
  end.

Definition PushAdminJob (job : AdminJob) m : option Manager :=
  match job_Type job with
  | AdminStop | AdminResume | AdminRemove => Some (pushAdminJob job m)
  | _ => None
  end.

(** *** patchState *)

(** The switch of [patchState]: the admin job type and the update-epoch
    flag of a target state; the default branch is [log.Panic]. *)
Definition patchState_switch (feedState : FeedState)
    : option (AdminJobType * bool) :=
  match feedState with
  | StateNormal => Some (AdminNone, false)
  | StateFinished => Some (AdminFinish, true)
  | StateError | StateStopped | StateFailed => Some (AdminStop, true)
  | StateRemoved => Some (AdminRemove, true)
  | _ => None
  end.

Definition patchState_status (adminJobType : AdminJobType)
    : PatchFn ChangeFeedStatus :=
  fun status w =>
    match status with
    | None => Some ((None, false), w)
    | Some s =>
        if negb (AdminJobType_eqb (status_AdminJobType s) adminJobType)
        then Some ((Some (set_status_AdminJobType s adminJobType), true), w)
        else Some ((Some s, false), w)
    end.

Definition patchState_info (feedState : FeedState)
    (adminJobType : AdminJobType) (updateEpoch : bool)
    : PatchFn ChangeFeedInfo :=
  fun info w =>
    match info with
    | None => Some ((None, false), w)
    | Some info =>
        let changed := false in
        let '(info, changed) :=
          if negb (FeedState_eqb (info_State info) feedState)
          then (set_info_State info feedState, true)
          else (info, changed) in
        if negb (AdminJobType_eqb (info_AdminJobType info) adminJobType)
        then
          let info := set_info_AdminJobType info adminJobType in
          let changed := true in
          if updateEpoch
          then '(epoch, w') <- GenerateChangefeedEpoch w ;;
               Some ((Some (set_info_Epoch info epoch), changed), w')
          else Some ((Some info, changed), w)
        else Some ((Some info, changed), w)
    end.

Definition patchState (feedState : FeedState) m : option Manager :=
  '(adminJobType, updateEpoch) <- patchState_switch feedState ;;
  m <- PatchStatus (patchState_status adminJobType) m ;;
  PatchInfo (patchState_info feedState adminJobType updateEpoch) m.

(** *** cleanUpInfos *)

Definition cleanUp_position : PatchFn TaskPosition :=
  fun position w =>
    Some ((None, match position with Some _ => true | None => false end), w).

Definition cleanUpInfos m : option Manager :=
  st <- state m ;;
  fold_left
    (fun acc entry => m <- acc ;; PatchTaskPosition (fst entry) cleanUp_position m)
    (rs_TaskPositions st) (Some m).
(** *** Reports of the processors *)

Definition clear_position_Error : PatchFn TaskPosition :=
  fun position w =>
    match position with
    | None => Some ((None, false), w)
    | Some position => Some ((Some (set_pos_Error position None), true), w)
    end.

Definition clear_position_Warning : PatchFn TaskPosition :=
  fun position w =>
    match position with
    | None => Some ((None, false), w)
    | Some position => Some ((Some (set_pos_Warning position None), true), w)
    end.

(** The order in which Go visits the entries of [runningErrors] is not
    specified; the entries are returned here in the order in which their
    codes were first recorded.  Theorems on [handleError] hold for every
    batch, hence for every order. *)
Definition errorsReportedByProcessors m
    : option (list RunningError * Manager) :=
  st <- state m ;;
  '(runningErrors, m) <-
    fold_left
      (fun acc entry =>
         '(runningErrors, m) <- acc ;;
         let '(captureID, position) := entry in
         match pos_Error position with
         | Some e =>
             let runningErrors := code_insert (err_Code e) e runningErrors in
             m <- PatchTaskPosition captureID clear_position_Error m ;;
             Some (runningErrors, m)
         | None => Some (runningErrors, m)
         end)
      (rs_TaskPositions st) (Some ([], m)) ;;
  Some (map snd runningErrors, m).

Definition warningsReportedByProcessors m
    : option (list RunningError * Manager) :=
  st <- state m ;;
  '(runningWarnings, m) <-
    fold_left
      (fun acc entry =>
         '(runningWarnings, m) <- acc ;;
         let '(captureID, position) := entry in
         match pos_Warning position with
         | Some e =>
             let runningWarnings := code_insert (err_Code e) e runningWarnings in
             m <- PatchTaskPosition captureID clear_position_Warning m ;;
             Some (runningWarnings, m)
         | None => Some (runningWarnings, m)
         end)
      (rs_TaskPositions st) (Some ([], m)) ;;
  Some (map snd runningWarnings, m).

(** *** handleError *)

(** The closure of the fast-fail scan and of the unretryable scan. *)
Definition record_error (err : RunningError) : PatchFn ChangeFeedInfo :=
  fun info w =>
    match info with
    | None => Some ((None, false), w)
    | Some info => Some ((Some (set_info_Error info (Some err)), true), w)
    end.

(** The closure of the retryable batch: every error of the batch is
    assigned in turn, so the last one stays. *)
Definition record_errors (errs : list RunningError) : PatchFn ChangeFeedInfo :=
  fun info w =>
    match info with
    | None => Some ((None, false), w)
    | Some info =>
        let info := fold_left (fun info err => set_info_Error info (Some err))
                              errs info in
        Some ((Some info, (0 <? List.length errs)%nat), w)
    end.

(** Lines 520-530: the bookkeeping of [lastErrorTime], the stability
    reset and the shift of the window.  [m.state.Info] is dereferenced
    without a nil check. *)
Definition backoffBookkeeping (clk : TickClock) (errs : list RunningError) m
    : option Manager :=
  st <- state m ;;
  info <- rs_Info st ;;
  let m :=
    if (0 <? List.length errs)%nat then
      let m := set_lastErrorTime m (time_Now (now_error clk)) in
      if isChangefeedStable m then resetErrBackoff m else m
    else
      if FeedState_eqb (info_State info) StateNormal
      then set_lastErrorTime m time_Unix_0_0
      else m in
  Some (shiftStateWindow (info_State info) m).

(** Lines 532-565: the restart gate. *)
Definition restartGate (clk : TickClock) m : option Manager :=
  if Time_eqb (lastErrorTime m) time_Unix_0_0 then Some m
  else if time_Since (now_gate clk) (lastErrorTime m) <? backoffInterval m then
    let m := set_shouldBeRunning m false in
    patchState StateError m
  else
    let '(d, b) := NextBackOff (errBackoff m) in
    let m := set_backoff m d b in
    let m := set_lastErrorTime m time_Unix_0_0 in
    if backoffInterval m =? Stop then
      let m := set_shouldBeRunning m false in
      patchState StateFailed m
    else Some m.

Definition handleError (clk : TickClock) (errs : list RunningError) m
    : option Manager :=
  match find (fun err => IsChangefeedFastFailErrorCode (err_Code err)) errs with
  | Some err =>
      m <- PatchInfo (record_error err) m ;;
      let m := set_shouldBeRunning m false in
      patchState StateFailed m
  | None =>
      st <- state m ;;
      if match rs_Info st with
         | Some info => FeedState_eqb (info_State info) StateStopped
         | None => false
         end
      then Some m
      else
        match find IsChangefeedUnRetryableError errs with
        | Some err =>
            m <- PatchInfo (record_error err) m ;;
            let m := set_shouldBeRunning m false in
            patchState StateError m
        | None =>
            m <- PatchInfo (record_errors errs) m ;;
            m <- backoffBookkeeping clk errs m ;;
            restartGate clk m
        end
  end.

(** *** handleWarning *)

Definition record_warnings (errs : list RunningError) : PatchFn ChangeFeedInfo :=
  fun info w =>
    match info with
    | None => Some ((None, false), w)
    | Some info =>
        let info := fold_left (fun info err => set_info_Warning info (Some err))
                              errs info in
        Some ((Some info, (0 <? List.length errs)%nat), w)
    end.

Definition handleWarning (errs : list RunningError) m : option Manager :=
  PatchInfo (record_warnings errs) m.
(** *** handleAdminJob *)

Definition remove_info : PatchFn ChangeFeedInfo :=
  fun _ w => Some ((None, true), w).

Definition remove_status : PatchFn ChangeFeedStatus :=
  fun _ w => Some ((None, true), w).

Definition resume_info (job : AdminJob) : PatchFn ChangeFeedInfo :=
  fun info w =>
    let changed := false in
    match info with
    | None => Some ((None, changed), w)
    | Some info =>
        let '(info, changed) :=
          if 0 <? job_OverwriteCheckpointTs job
          then (set_info_StartTs info (job_OverwriteCheckpointTs job), true)
          else (info, changed) in
        let '(info, changed) :=
          match info_Error info with
          | Some _ => (set_info_Error info None, true)
          | None => (info, changed)
          end in
        Some ((Some info, changed), w)
    end.

(** The status closure of Resume reads [status.CheckpointTs] before it
    builds the new status: on a nil status it panics. *)
Definition resume_status (job : AdminJob) : PatchFn ChangeFeedStatus :=
  fun status w =>
    if 0 <? job_OverwriteCheckpointTs job then
      old <- status ;;
      let oldCheckpointTs := status_CheckpointTs old in
      Some ((Some {| status_ResolvedTs := job_OverwriteCheckpointTs job;
                     status_CheckpointTs := job_OverwriteCheckpointTs job;
                     status_MinTableBarrierTs := job_OverwriteCheckpointTs job;
                     status_AdminJobType := AdminNone |}, true), w)
    else Some ((status, false), w).

Definition handleAdminJob m : option (bool * Manager) :=
  let '(job, m) := popAdminJob m in
  match job with
  | None => Some (false, m)
  | Some job =>
      st <- state m ;;
      if negb (ChangeFeedID_eqb (job_CfID job) (rs_ID st)) then Some (false, m)
      else
        match job_Type job with
        | AdminStop =>
            info <- rs_Info st ;;
            match info_State info with
            | StateNormal | StateError =>
                let m := set_shouldBeRunning m false in
                m <- patchState StateStopped m ;;
                Some (true, m)
            | _ => Some (false, m)
            end
        | AdminRemove =>
            info <- rs_Info st ;;
            match info_State info with
            | StateNormal | StateError | StateFailed
            | StateStopped | StateFinished | StateRemoved =>
                let m := set_shouldBeRunning m false in
                let m := set_shouldBeRemoved m true in
                m <- PatchInfo remove_info m ;;
                m <- PatchStatus remove_status m ;;
                Some (true, m)
            | _ => Some (false, m)
            end
        | AdminResume =>
            info <- rs_Info st ;;
            match info_State info with
            | StateFailed | StateError | StateStopped | StateFinished =>
                let m := set_shouldBeRunning m true in
                let m := resetErrBackoff m in
                let m := set_lastErrorTime m time_Unix_0_0 in
                m <- patchState StateNormal m ;;
                m <- PatchInfo (resume_info job) m ;;
                m <- PatchStatus (resume_status job) m ;;
                Some (true, m)
            | _ => Some (false, m)
            end
        | AdminFinish =>
            info <- rs_Info st ;;
            match info_State info with
            | StateNormal =>
                let m := set_shouldBeRunning m false in
                m <- patchState StateFinished m ;;
                Some (true, m)
            | _ => Some (false, m)
            end
        | AdminNone => Some (false, m)
        end
  end.

(** *** Tick *)

(** Lines 143-147: the reports of the processors and their handlers. *)
Definition Tick_reports (clk : TickClock) m : option (bool * Manager) :=
  '(errs, m) <- errorsReportedByProcessors m ;;
  m <- handleError clk errs m ;;
  '(warnings, m) <- warningsReportedByProcessors m ;;
  m <- handleWarning warnings m ;;
  Some (false, m).

(** Lines 122-147.  In state [StateError] the method
    [IsChangefeedUnRetryableError] is called through [m.state.Info.Error]
    without a nil check; its definition is outside the sources, and a nil
    [Info.Error] is taken to panic there.  No theorem below relies on
    that outcome. *)
Definition Tick_body (clk : TickClock) m : option (bool * Manager) :=
  '(jobsPending, m) <- handleAdminJob m ;;
  if jobsPending then Some (true, m)
  else
    st <- state m ;;
    info <- rs_Info st ;;
    match info_State info with
    | StateRemoved =>
        let m := set_shouldBeRunning m false in
        let m := set_shouldBeRemoved m true in
        Some (false, m)
    | StateStopped | StateFailed | StateFinished =>
        let m := set_shouldBeRunning m false in
        Some (false, m)
    | StateError =>
        err <- info_Error info ;;
        if IsChangefeedUnRetryableError err then
          let m := set_shouldBeRunning m false in
          m <- patchState StateFailed m ;;
          Some (false, m)
        else Tick_reports clk m
    | _ => Tick_reports clk m
    end.

(** The deferred function of [Tick]. *)
Definition Tick_deferred m : option Manager :=
  if shouldBeRunning m then patchState StateNormal m else cleanUpInfos m.

Definition Tick (clk : TickClock) (st : ChangefeedReactorState) m
    : option (bool * Manager) :=
  let m := set_state m (Some st) in
  let m := set_shouldBeRunning m true in
  '(adminJobPending, m) <- Tick_body clk m ;;
  m <- Tick_deferred m ;;
  Some (adminJobPending, m).
End Manager.

(** ** The persistence layer *)

Fixpoint tp_lookup (c : CaptureID) (l : list (CaptureID * TaskPosition))
    : option TaskPosition :=
  match l with
  | [] => None
  | (c', p) :: rest => if String.eqb c' c then Some p else tp_lookup c rest
  end.

Fixpoint tp_store (c : CaptureID) (v : option TaskPosition)
    (l : list (CaptureID * TaskPosition)) : list (CaptureID * TaskPosition) :=
  match l with
  | [] => match v with Some p => [(c, p)] | None => [] end
  | (c', p') :: rest =>
      if String.eqb c' c
      then match v with Some p => (c', p) :: rest | None => rest end
      else (c', p') :: tp_store c v rest
  end.

Definition set_rs_Info (st : ChangefeedReactorState) (v : option ChangeFeedInfo) :=
  {| rs_ID := rs_ID st; rs_Info := v; rs_Status := rs_Status st;
     rs_TaskPositions := rs_TaskPositions st;
     rs_pendingPatches := rs_pendingPatches st |}.

Definition set_rs_Status (st : ChangefeedReactorState) (v : option ChangeFeedStatus) :=
  {| rs_ID := rs_ID st; rs_Info := rs_Info st; rs_Status := v;
     rs_TaskPositions := rs_TaskPositions st;
     rs_pendingPatches := rs_pendingPatches st |}.

Definition set_rs_TaskPositions (st : ChangefeedReactorState)
    (v : list (CaptureID * TaskPosition)) :=
  {| rs_ID := rs_ID st; rs_Info := rs_Info st; rs_Status := rs_Status st;
     rs_TaskPositions := v;
     rs_pendingPatches := rs_pendingPatches st |}.

Definition set_rs_pendingPatches (st : ChangefeedReactorState)
    (v : list DataPatch) :=
  {| rs_ID := rs_ID st; rs_Info := rs_Info st; rs_Status := rs_Status st;
     rs_TaskPositions := rs_TaskPositions st;
     rs_pendingPatches := v |}.

(** Modelled from the spec: the persistence collaborator (pkg/orchestrator
    is not among the sources).  "Each closure receives the latest value and
    returns (new, changed, err)": a closure is run on the latest value of
    its key, the value is replaced when the closure reports a change and
    kept otherwise, and a nil result removes the key.  The result carries
    the changed flag of the closure. *)
Definition applyPatch (p : DataPatch) (st : ChangefeedReactorState)
    : Eff (bool * ChangefeedReactorState) :=
  fun w =>
    match p with
    | InfoPatch f =>
        '((v, changed), w') <- f (rs_Info st) w ;;
        Some ((changed, if changed then set_rs_Info st v else st), w')
    | StatusPatch f =>
        '((v, changed), w') <- f (rs_Status st) w ;;
        Some ((changed, if changed then set_rs_Status st v else st), w')
    | TaskPositionPatch c f =>
        '((v, changed), w') <- f (tp_lookup c (rs_TaskPositions st)) w ;;
        Some ((changed,
               if changed
               then set_rs_TaskPositions st (tp_store c v (rs_TaskPositions st))
               else st), w')
    end.

Fixpoint applyPatches (ps : list DataPatch) (st : ChangefeedReactorState)
    : Eff (list bool * ChangefeedReactorState) :=
  fun w =>
    match ps with
    | [] => Some (([], st), w)
    | p :: rest =>
        '((c, st'), w') <- applyPatch p st w ;;
        '((cs, st''), w'') <- applyPatches rest st' w' ;;
        Some ((c :: cs, st''), w'')
    end.

(** One round of persistence: every pending patch is applied in the order
    in which it was queued, and the queue is emptied. *)
Definition persist (st : ChangefeedReactorState)
    : Eff (list bool * ChangefeedReactorState) :=
  applyPatches (rs_pendingPatches st) (set_rs_pendingPatches st []).

(** * Definitions for the properties *)

(** The patches queued on the state the manager points to. *)
Definition pending {B : Type} (m : feedStateManager B) : list DataPatch :=
  match state m with
  | Some st => rs_pendingPatches st
  | None => []
  end.

(** An info closure that leaves an absent info absent and reports no
    change. *)
Definition nil_safe (f : PatchFn ChangeFeedInfo) : Prop :=
  forall w, f None w = Some ((None, false), w).

Definition info_nil_safe (p : DataPatch) : Prop :=
  match p with
  | InfoPatch f => nil_safe f
  | _ => True
  end.

(** [m'] has the patches of [m] followed by new ones, which all satisfy [P]. *)
Definition queues {B : Type} (P : DataPatch -> Prop) (m m' : feedStateManager B)
    : Prop :=
  exists new, pending m' = pending m ++ new /\ Forall P new.

(** ** Concrete collaborators, to run the manager on concrete inputs *)

(** Modelled from the spec: the backoff object of section 3 of the
    specification ("next() returns monotonic non-decreasing durations
    bounded by max; once the elapsed budget is exhausted, it returns a
    sentinel"), without randomization; github.com/cenkalti/backoff/v4 is
    not among the sources.  The elapsed time is counted as the sum of the
    delays handed out since the last reset. *)
Record SimpleBackOff : Type := {
  sb_params : BackOffParams;
  sb_currentInterval : Duration;
  sb_elapsed : Duration
}.

Definition sb_New (p : BackOffParams) : SimpleBackOff :=
  {| sb_params := p; sb_currentInterval := InitialInterval p; sb_elapsed := 0 |}.

Definition sb_Reset (b : SimpleBackOff) : SimpleBackOff := sb_New (sb_params b).

Definition sb_NextBackOff (b : SimpleBackOff) : Duration * SimpleBackOff :=
  let p := sb_params b in
  let next := sb_currentInterval b in
  let grown := Z.min (Qfloor (inject_Z next * Multiplier p)%Q) (MaxInterval p) in
  if negb (MaxElapsedTime p =? 0) && (MaxElapsedTime p <? sb_elapsed b + next)
  then (Stop, {| sb_params := p; sb_currentInterval := grown;
                 sb_elapsed := sb_elapsed b |})
  else (next, {| sb_params := p; sb_currentInterval := grown;
                 sb_elapsed := sb_elapsed b + next |}).

#[export] Instance SimpleBackOff_ops : ExponentialBackOff SimpleBackOff := {
  NewExponentialBackOff := sb_New;
  Reset := sb_Reset;
  NextBackOff := sb_NextBackOff
}.

(** A classifier with one fast-fail code and one unretryable code. *)
#[export] Instance sampleClassifier : ErrorClassifier := {
  IsChangefeedFastFailErrorCode := fun code => String.eqb code "CDC:ErrGCTTLExceeded";
  IsChangefeedUnRetryableError :=
    fun e => String.eqb (err_Code e) "CDC:ErrExpressionColumnNotFound"
}.

Definition sampleID : ChangeFeedID :=
  {| cf_Namespace := "default"; cf_ID := "feed-1" |}.

Definition sampleInfo (s : FeedState) (a : AdminJobType)
    (e : option RunningError) : ChangeFeedInfo :=
  {| info_State := s; info_AdminJobType := a; info_Error := e;
     info_Warning := None; info_Epoch := 7; info_StartTs := 100 |}.

Definition sampleStatus (a : AdminJobType) : ChangeFeedStatus :=
  {| status_ResolvedTs := 130; status_CheckpointTs := 120;
     status_MinTableBarrierTs := 125; status_AdminJobType := a |}.

Definition sampleState (i : ChangeFeedInfo) (a : AdminJobType)
    (tps : list (CaptureID * TaskPosition)) : ChangefeedReactorState :=
  {| rs_ID := sampleID; rs_Info := Some i; rs_Status := Some (sampleStatus a);
     rs_TaskPositions := tps; rs_pendingPatches := [] |}.

Definition sampleManager : feedStateManager SimpleBackOff := newFeedStateManager.

Definition sampleWorld : World :=
  {| pd_calls := 0;
     pd_GetTS := fun n => Some (1700000000000 + Z.of_nat n, 1);
     wall_UnixNano := fun n => 1700000000000000000 + Z.of_nat n |}.

Definition errGCTTL : RunningError :=
  {| err_Addr := "10.0.0.1:8300"; err_Code := "CDC:ErrGCTTLExceeded";
     err_Message := "the checkpoint-ts is older than the GC TTL" |}.

Definition errColumn : RunningError :=
  {| err_Addr := "10.0.0.2:8300"; err_Code := "CDC:ErrExpressionColumnNotFound";
     err_Message := "column not found in the filter expression" |}.

Definition errPD : RunningError :=
  {| err_Addr := "10.0.0.3:8300"; err_Code := "CDC:ErrPDEtcdAPIError";
     err_Message := "etcd api call error" |}.

Definition errSink : RunningError :=
  {| err_Addr := "10.0.0.2:8300"; err_Code := "CDC:ErrKafkaSendMessage";
     err_Message := "kafka send message failed" |}.

(** A clock whose two readings of a tick are [t] seconds after the start
    of the monotonic clock. *)
Definition clockAt (t : Z) : TickClock :=
  {| now_error := {| wallNano := 1700000000000000000 + t * Second;
                     monoNano := t * Second |};
     now_gate := {| wallNano := 1700000000000000000 + t * Second + 1000;
                    monoNano := t * Second + 1000 |} |}.

(** ** The operations of the manager, for statements over its lifetime *)

(** The calls that change a manager: a tick with its clock readings and the
    reactor state handed in, [PushAdminJob] and [MarkFinished]
    ([ShouldRunning] and [ShouldRemoved] only read). *)
Inductive Operation : Type :=
| OpTick (clk : TickClock) (st : ChangefeedReactorState)
| OpPushAdminJob (job : AdminJob)
| OpMarkFinished.

Definition perform {B : Type} `{ExponentialBackOff B} `{ErrorClassifier}
    (op : Operation) (m : feedStateManager B) : option (feedStateManager B) :=
  match op with
  | OpTick clk st => '(_, m') <- Tick clk st m ;; Some m'
  | OpPushAdminJob job => PushAdminJob job m
  | OpMarkFinished => Some (MarkFinished m)
  end.

Fixpoint performAll {B : Type} `{ExponentialBackOff B} `{ErrorClassifier}
    (ops : list Operation) (m : feedStateManager B)
    : option (feedStateManager B) :=
  match ops with
  | [] => Some m
  | op :: rest => m' <- perform op m ;; performAll rest m'
  end.

(** ** What the loops over the task positions compute *)

Definition enqueue_all (st : ChangefeedReactorState) (ps : list DataPatch) :=
  set_rs_pendingPatches st (rs_pendingPatches st ++ ps).

(** The map [runningErrors] after the loop of [errorsReportedByProcessors]. *)
Definition errorsByCode (tps : list (CaptureID * TaskPosition))
    (acc : list (string * RunningError)) : list (string * RunningError) :=
  fold_left (fun acc entry => match pos_Error (snd entry) with
                              | Some e => code_insert (err_Code e) e acc
                              | None => acc
                              end) tps acc.

Definition reportedErrors (tps : list (CaptureID * TaskPosition)) : list RunningError :=
  map snd (errorsByCode tps []).

(** The patches that loop queues: one per position that holds an error. *)
Definition errorPatches (tps : list (CaptureID * TaskPosition)) : list DataPatch :=
  flat_map (fun entry => match pos_Error (snd entry) with
                         | Some _ => [TaskPositionPatch (fst entry) clear_position_Error]
                         | None => []
                         end) tps.

Definition warningsByCode (tps : list (CaptureID * TaskPosition))
    (acc : list (string * RunningError)) : list (string * RunningError) :=
  fold_left (fun acc entry => match pos_Warning (snd entry) with
                              | Some e => code_insert (err_Code e) e acc
                              | None => acc
                              end) tps acc.

Definition reportedWarnings (tps : list (CaptureID * TaskPosition)) : list RunningError :=
  map snd (warningsByCode tps []).

Definition warningPatches (tps : list (CaptureID * TaskPosition)) : list DataPatch :=
  flat_map (fun entry => match pos_Warning (snd entry) with
                         | Some _ => [TaskPositionPatch (fst entry) clear_position_Warning]
                         | None => []
                         end) tps.

Definition cleanUpPatches (tps : list (CaptureID * TaskPosition)) : list DataPatch :=
  map (fun entry => TaskPositionPatch (fst entry) cleanUp_position) tps.

(** ** The info closures of a batch of patches *)

Definition infoClosures (ps : list DataPatch) : list (PatchFn ChangeFeedInfo) :=
  flat_map (fun p => match p with InfoPatch f => [f] | _ => [] end) ps.

(** The info closures run one after the other on the latest info. *)
Fixpoint runInfo (fs : list (PatchFn ChangeFeedInfo)) (v : option ChangeFeedInfo)
    : Eff (option ChangeFeedInfo) :=
  fun w =>
    match fs with
    | [] => Some (v, w)
    | f :: rest =>
        '((v', changed), w') <- f v w ;;
        runInfo rest (if changed then v' else v) w'
    end.

(** A closure that neither panics nor reaches the world. *)
Definition quiet {A : Type} (f : PatchFn A) : Prop :=
  forall v w, exists v' changed, f v w = Some ((v', changed), w).

(** A patch that is an info patch, or a quiet patch of another key. *)
Definition info_or_quiet (p : DataPatch) : Prop :=
  match p with
  | InfoPatch _ => True
  | StatusPatch f => quiet f
  | TaskPositionPatch _ f => quiet f
  end.

(** The states from which [Tick], with no admin job to handle, goes on to
    the reports of the processors (lines 128-142). *)
Definition reaches_handlers `{ErrorClassifier} (info : ChangeFeedInfo) : bool :=
  match info_State info with
  | StateRemoved | StateStopped | StateFailed | StateFinished => false
  | StateError =>
      match info_Error info with
      | Some err => negb (IsChangefeedUnRetryableError err)
      | None => false
      end
  | _ => true
  end.

(** The fast-fail test of the first loop of [handleError]. *)
Definition isFastFail `{ErrorClassifier} (err : RunningError) : bool :=
  IsChangefeedFastFailErrorCode (err_Code err).

(** The two readings of one tick, with a fast-fail and a retryable error
    reported by two captures. *)
Definition samplePositions : list (CaptureID * TaskPosition) :=
  [("capture-1", {| pos_CheckPointTs := 110; pos_ResolvedTs := 115;
                    pos_Error := Some errPD; pos_Warning := None |});
   ("capture-2", {| pos_CheckPointTs := 111; pos_ResolvedTs := 116;
                    pos_Error := Some errGCTTL; pos_Warning := Some errSink |})].

(** The patches of [patchState] for a target state, as a list. *)
Definition statePatches (s : FeedState) (a : AdminJobType) (u : bool)
    : list DataPatch :=
  [StatusPatch (patchState_status a); InfoPatch (patchState_info s a u)].

(** An unretryable and a retryable error reported by two captures. *)
Definition unretryablePositions : list (CaptureID * TaskPosition) :=
  [("capture-1", {| pos_CheckPointTs := 110; pos_ResolvedTs := 115;
                    pos_Error := Some errPD; pos_Warning := None |});
   ("capture-2", {| pos_CheckPointTs := 111; pos_ResolvedTs := 116;
                    pos_Error := Some errColumn; pos_Warning := None |})].

(** A retryable error reported by one capture. *)
Definition retryablePositions : list (CaptureID * TaskPosition) :=
  [("capture-1", {| pos_CheckPointTs := 110; pos_ResolvedTs := 115;
                    pos_Error := Some errPD; pos_Warning := None |})].

(** The backoff as [resetErrBackoff] leaves it: the object after [Reset]
    and one [NextBackOff], and the delay that call returned. *)
Definition resetInterval {B : Type} `{ExponentialBackOff B} (b : B) : Duration :=
  fst (NextBackOff (Reset b)).

Definition resetBackOff {B : Type} `{ExponentialBackOff B} (b : B) : B :=
  snd (NextBackOff (Reset b)).

(** The manager after the bookkeeping of a non-empty batch that arrives in
    a stable window: [lastErrorTime] is now, the backoff is reset, the
    window is shifted. *)
Definition after_reset {B : Type} `{ExponentialBackOff B} (clk : TickClock)
    (s : FeedState) (m : feedStateManager B) : feedStateManager B :=
  shiftStateWindow s (resetErrBackoff (set_lastErrorTime m (time_Now (now_error clk)))).

(** A manager whose state window holds only Normal samples. *)
Definition stableManager : feedStateManager SimpleBackOff :=
  set_stateHistory sampleManager (repeat StateNormal defaultStateWindowSize).

(** ** Admin jobs *)

(** The guards of [handleAdminJob]: the states from which a job of each
    kind is handled. *)
Definition permitted (t : AdminJobType) (s : FeedState) : bool :=
  match t, s with
  | AdminStop, (StateNormal | StateError) => true
  | AdminRemove, (StateNormal | StateError | StateFailed | StateStopped
                  | StateFinished | StateRemoved) => true
  | AdminResume, (StateFailed | StateError | StateStopped | StateFinished) => true
  | AdminFinish, StateNormal => true
  | _, _ => false
  end.

(** A job that [handleAdminJob] handles: addressed to the changefeed of the
    state and permitted in the state of its info. *)
Definition handled (job : AdminJob) (st : ChangefeedReactorState) : bool :=
  ChangeFeedID_eqb (job_CfID job) (rs_ID st) &&
  match rs_Info st with
  | Some info => permitted (job_Type job) (info_State info)
  | None => false
  end.

(** The patches [handleAdminJob] queues for a handled job. *)
Definition adminPatches (job : AdminJob) : list DataPatch :=
  match job_Type job with
  | AdminStop => statePatches StateStopped AdminStop true
  | AdminRemove => [InfoPatch remove_info; StatusPatch remove_status]
  | AdminResume =>
      statePatches StateNormal AdminNone false ++
      [InfoPatch (resume_info job); StatusPatch (resume_status job)]
  | AdminFinish => statePatches StateFinished AdminFinish true
  | AdminNone => []
  end.

(** The flags and backoff fields [handleAdminJob] sets for a handled job. *)
Definition adminEffect {B : Type} `{ExponentialBackOff B} (job : AdminJob)
    (m : feedStateManager B) : feedStateManager B :=
  match job_Type job with
  | AdminStop | AdminFinish => set_shouldBeRunning m false
  | AdminRemove => set_shouldBeRemoved (set_shouldBeRunning m false) true
  | AdminResume =>
      set_lastErrorTime (resetErrBackoff (set_shouldBeRunning m true)) time_Unix_0_0
  | AdminNone => m
  end.

(** The patches of the deferred exit of a tick. *)
Definition exitPatches (run : bool) (st : ChangefeedReactorState) : list DataPatch :=
  if run then statePatches StateNormal AdminNone false
  else cleanUpPatches (rs_TaskPositions st).

(** What a tick leaves to observe: the answer of [Tick], the queue left,
    the two flags, and the info and task positions once the pending
    patches are applied, with the changed flags the closures reported. *)
Record Observation : Type := {
  obs_pending : bool;
  obs_queue : list AdminJob;
  obs_running : bool;
  obs_removed : bool;
  obs_changed : list bool;
  obs_info : option ChangeFeedInfo;
  obs_status : option ChangeFeedStatus;
  obs_positions : list (CaptureID * TaskPosition)
}.

Definition observe {B : Type} (r : option (bool * feedStateManager B)) (w : World)
    : option Observation :=
  '(b, m) <- r ;;
  st <- state m ;;
  '((flags, st'), _) <- persist st w ;;
  Some {| obs_pending := b; obs_queue := adminJobQueue m;
          obs_running := shouldBeRunning m; obs_removed := shouldBeRemoved m;
          obs_changed := flags; obs_info := rs_Info st';
          obs_status := rs_Status st'; obs_positions := rs_TaskPositions st' |}.

Definition sampleResume : AdminJob :=
  {| job_CfID := sampleID; job_Type := AdminResume; job_OverwriteCheckpointTs := 0 |}.

(** ** Two successive ticks *)

(** No task position carries an error or a warning. *)
Definition no_reports (tps : list (CaptureID * TaskPosition)) : bool :=
  forallb (fun entry => match pos_Error (snd entry), pos_Warning (snd entry) with
                        | None, None => true
                        | _, _ => false
                        end) tps.

(** The manager after a tick that found nothing to handle and no pending
    error: the window is shifted, and [lastErrorTime] is cleared when the
    feed is Normal. *)
Definition quiet_manager {B : Type} (s : FeedState) (m : feedStateManager B)
    : feedStateManager B :=
  shiftStateWindow s
    (if FeedState_eqb s StateNormal
     then set_lastErrorTime (set_shouldBeRunning m true) time_Unix_0_0
     else set_shouldBeRunning m true).

(** The patches of a tick that found nothing to handle and lets the feed
    run. *)
Definition quietPatches : list DataPatch :=
  [InfoPatch (record_errors [])] ++ [InfoPatch (record_warnings [])] ++
  statePatches StateNormal AdminNone false.

(** Two successive ticks of one manager, the pending patches being applied
    after each: the second tick returns false like the first, leaves the
    persisted info, status and task positions and the two flags as the
    first left them, reaches nothing in the world, and every closure it
    queued reports no change. *)
Definition second_tick_changes_nothing {B : Type} `{ExponentialBackOff B}
    `{ErrorClassifier} (clk1 clk2 : TickClock) (st : ChangefeedReactorState)
    (m : feedStateManager B) (w : World) : Prop :=
  exists m1 st1 flags1 st1' w1 m2 st2 flags2 st2',
    Tick clk1 st m = Some (false, m1) /\
    state m1 = Some st1 /\
    persist st1 w = Some ((flags1, st1'), w1) /\
    Tick clk2 st1' m1 = Some (false, m2) /\
    state m2 = Some st2 /\
    persist st2 w1 = Some ((flags2, st2'), w1) /\
    rs_Info st2' = rs_Info st1' /\
    rs_Status st2' = rs_Status st1' /\
    rs_TaskPositions st2' = rs_TaskPositions st1' /\
    ShouldRunning m2 = ShouldRunning m1 /\
    ShouldRemoved m2 = ShouldRemoved m1 /\
    Forall (fun changed => changed = false) flags2.

(** The observations of two successive ticks, for concrete runs. *)
Definition observeTwoTicks {B : Type} `{ExponentialBackOff B} `{ErrorClassifier}
    (clk1 clk2 : TickClock) (st : ChangefeedReactorState)
    (m : feedStateManager B) (w : World) : option (Observation * Observation) :=
  '(b1, m1) <- Tick clk1 st m ;;
  st1 <- state m1 ;;
  '((flags1, st1'), w1) <- persist st1 w ;;
  o1 <- observe (Some (b1, m1)) w ;;
  o2 <- observe (Tick clk2 st1' m1) w1 ;;
  Some (o1, o2).

(** One tick followed by a round of persistence. *)
Definition tickAndPersist {B : Type} `{ExponentialBackOff B} `{ErrorClassifier}
    (clk : TickClock) (st : ChangefeedReactorState) (m : feedStateManager B)
    (w : World) : option (feedStateManager B * ChangefeedReactorState * World) :=
  '(_, m1) <- Tick clk st m ;;
  st1 <- state m1 ;;
  '((_, st1'), w1) <- persist st1 w ;;
  Some (m1, st1', w1).

(** The manager, the persisted state and the world after a first tick, at
    second 0, in which one processor reported a retryable error: the feed
    is in state Error and waits for its restart. *)
Definition afterRetryableError
    : option (feedStateManager SimpleBackOff * ChangefeedReactorState * World) :=
  tickAndPersist (clockAt 0)
    (sampleState (sampleInfo StateNormal AdminNone None) AdminNone retryablePositions)
    sampleManager sampleWorld.

(** Two further ticks with nothing queued and nothing reported, 5 and 11
    seconds later. *)
Definition waitThenRestart : option (Observation * Observation) :=
  '((m, st), w) <- afterRetryableError ;;
  observeTwoTicks (clockAt 5) (clockAt 11) st m w.

(** A task position with nothing to report. *)
Definition idlePositions : list (CaptureID * TaskPosition) :=
  [("capture-1", {| pos_CheckPointTs := 110; pos_ResolvedTs := 115;
                    pos_Error := None; pos_Warning := None |})].

(** ** Further definitions, for the properties beyond the claims *)

(** The window after a run of samples, one [shiftStateWindow] per sample,
    oldest first. *)
Definition shiftAll {B : Type} (samples : list FeedState) (m : feedStateManager B)
    : feedStateManager B :=
  fold_left (fun m s => shiftStateWindow s m) samples m.

(** No task position carries an error. *)
Definition no_errors (tps : list (CaptureID * TaskPosition)) : bool :=
  forallb (fun entry => match pos_Error (snd entry) with
                        | None => true
                        | Some _ => false
                        end) tps.

(** The first of two ticks with nothing to handle keeps the feed down for
    a pending restart (lines 520-535 with an empty batch): the state
    switch goes on to the handlers, the state is not Normal (for Normal
    [lastErrorTime] is cleared), [lastErrorTime] is not the sentinel, and
    the time since it is less than the backoff interval. *)
Definition held_down {B : Type} `{ErrorClassifier} (clk : TickClock)
    (m : feedStateManager B) (info : ChangeFeedInfo) : bool :=
  reaches_handlers info &&
  negb (FeedState_eqb (info_State info) StateNormal) &&
  negb (Time_eqb (lastErrorTime m) time_Unix_0_0) &&
  (time_Since (now_gate clk) (lastErrorTime m) <? backoffInterval m).

(** The patches of a tick that found nothing to handle and keeps the feed
    down with a [patchState] to [s] (Error while the restart is awaited,
    Failed when the backoff gives up). *)
Definition downPatches (s : FeedState) (tps : list (CaptureID * TaskPosition))
    : list DataPatch :=
  [InfoPatch (record_errors [])] ++ statePatches s AdminStop true ++
  [InfoPatch (record_warnings [])] ++ cleanUpPatches tps.

(** * Theorems *)

Section Queues.
Context {B : Type} `{ExponentialBackOff B} `{ErrorClassifier}.
Variable P : DataPatch -> Prop.
Implicit Types m : feedStateManager B.

Lemma queues_refl m : queues P m m.
Proof. exists []. split; [ now rewrite app_nil_r | constructor ]. Qed.

Lemma queues_same m m' : pending m' = pending m -> queues P m m'.
Proof. intros E. exists []. split; [ now rewrite app_nil_r | constructor ]. Qed.

Lemma queues_trans m1 m2 m3 :
  queues P m1 m2 -> queues P m2 m3 -> queues P m1 m3.
Proof.
  intros [n1 [E1 F1]] [n2 [E2 F2]]. exists (n1 ++ n2). split.
  - rewrite E2, E1. now rewrite app_assoc.
  - apply Forall_app. now split.
Qed.

Lemma queues_pending m1 m2 m3 :
  pending m2 = pending m1 -> queues P m2 m3 -> queues P m1 m3.
Proof. intros E [n [E' F]]. exists n. now rewrite E', E. Qed.

Lemma PatchInfo_queues f m m' :
  P (InfoPatch f) -> PatchInfo f m = Some m' -> queues P m m'.
Proof.
  unfold PatchInfo. intros Pf E.
  destruct (state m) as [st|] eqn:Es; simpl in E; [ | discriminate ].
  injection E as <-. exists [InfoPatch f]. unfold pending. simpl. rewrite Es.
  split; auto.
Qed.

Lemma PatchStatus_queues f m m' :
  P (StatusPatch f) -> PatchStatus f m = Some m' -> queues P m m'.
Proof.
  unfold PatchStatus. intros Pf E.
  destruct (state m) as [st|] eqn:Es; simpl in E; [ | discriminate ].
  injection E as <-. exists [StatusPatch f]. unfold pending. simpl. rewrite Es.
  split; auto.
Qed.

Lemma PatchTaskPosition_queues c f m m' :
  P (TaskPositionPatch c f) -> PatchTaskPosition c f m = Some m' -> queues P m m'.
Proof.
  unfold PatchTaskPosition. intros Pf E.
  destruct (state m) as [st|] eqn:Es; simpl in E; [ | discriminate ].
  injection E as <-. exists [TaskPositionPatch c f]. unfold pending. simpl. rewrite Es.
  split; auto.
Qed.
End Queues.

Lemma bind_Some {A C : Type} (x : option A) (k : A -> option C) (c : C) :
  bind x k = Some c -> exists a, x = Some a /\ k a = Some c.
Proof. destruct x as [a|]; simpl; [ eauto | discriminate ]. Qed.

(** Inverts a hypothesis [bind x k = Some c]. *)
Tactic Notation "inv_bind" hyp(H) "as" simple_intropattern(a) ident(E) :=
  apply bind_Some in H; destruct H as [a [E H]].

Section ClosureFacts.
Context {B : Type} `{ExponentialBackOff B} `{ErrorClassifier}.

Lemma record_error_nil_safe e : nil_safe (record_error e).
Proof. intros w. reflexivity. Qed.

Lemma record_errors_nil_safe errs : nil_safe (record_errors errs).
Proof. intros w. reflexivity. Qed.

Lemma record_warnings_nil_safe errs : nil_safe (record_warnings errs).
Proof. intros w. reflexivity. Qed.

Lemma resume_info_nil_safe job : nil_safe (resume_info job).
Proof. intros w. reflexivity. Qed.

Lemma patchState_info_nil_safe s a u : nil_safe (patchState_info s a u).
Proof. intros w. reflexivity. Qed.

Lemma patchState_queues (P : DataPatch -> Prop) s (m m' : feedStateManager B) :
  (forall a u, patchState_switch s = Some (a, u) ->
               P (StatusPatch (patchState_status a)) /\
               P (InfoPatch (patchState_info s a u))) ->
  patchState s m = Some m' -> queues P m m'.
Proof.
  unfold patchState. intros HP E.
  inv_bind E as [a u] Esw. inv_bind E as m1 Est.
  destruct (HP a u Esw) as [Ps Pi].
  eapply queues_trans.
  - eapply PatchStatus_queues; eauto.
  - eapply PatchInfo_queues; eauto.
Qed.

Lemma patchState_queues_nil_safe s (m m' : feedStateManager B) :
  patchState s m = Some m' -> queues info_nil_safe m m'.
Proof.
  apply patchState_queues. intros a u _. split; [ exact I | ].
  apply patchState_info_nil_safe.
Qed.
End ClosureFacts.

Section HandlerFacts.
Context {B : Type} `{ExponentialBackOff B} `{ErrorClassifier}.
Implicit Types m : feedStateManager B.

Lemma state_resetErrBackoff m : state (resetErrBackoff m) = state m.
Proof. unfold resetErrBackoff. now destruct (NextBackOff _). Qed.

Lemma state_shiftStateWindow s m : state (shiftStateWindow s m) = state m.
Proof. reflexivity. Qed.

Lemma state_backoffBookkeeping clk errs m m' :
  backoffBookkeeping clk errs m = Some m' -> state m' = state m.
Proof.
  unfold backoffBookkeeping. intros E.
  inv_bind E as st Est. inv_bind E as info Einfo.
  injection E as <-. rewrite state_shiftStateWindow.
  destruct (0 <? List.length errs)%nat.
  - destruct (isChangefeedStable _); [ now rewrite state_resetErrBackoff | reflexivity ].
  - now destruct (FeedState_eqb _ _).
Qed.

Lemma restartGate_queues_nil_safe clk m m' :
  restartGate clk m = Some m' -> queues info_nil_safe m m'.
Proof.
  unfold restartGate. intros E.
  destruct (Time_eqb _ _).
  { injection E as <-. apply queues_refl. }
  destruct (_ <? _).
  { apply patchState_queues_nil_safe in E.
    eapply queues_pending; [ | exact E ]. reflexivity. }
  destruct (NextBackOff _) as [d b]. simpl in E.
  destruct (d =? Stop).
  - apply patchState_queues_nil_safe in E.
    eapply queues_pending; [ | exact E ]. reflexivity.
  - injection E as <-. apply queues_same. reflexivity.
Qed.

Lemma handleError_queues_nil_safe clk errs m m' :
  handleError clk errs m = Some m' -> queues info_nil_safe m m'.
Proof.
  unfold handleError. intros E.
  destruct (find _ errs) as [e|].
  { inv_bind E as m1 E1. apply patchState_queues_nil_safe in E.
    eapply queues_trans.
    - eapply PatchInfo_queues; [ | exact E1 ]. apply record_error_nil_safe.
    - eapply queues_pending; [ | exact E ]. reflexivity. }
  inv_bind E as st Est.
  destruct (match rs_Info st with Some _ => _ | None => _ end).
  { injection E as <-. apply queues_refl. }
  destruct (find _ errs) as [e|].
  { inv_bind E as m1 E1. apply patchState_queues_nil_safe in E.
    eapply queues_trans.
    - eapply PatchInfo_queues; [ | exact E1 ]. apply record_error_nil_safe.
    - eapply queues_pending; [ | exact E ]. reflexivity. }
  inv_bind E as m1 E1. inv_bind E as m2 E2.
  eapply queues_trans.
  { eapply PatchInfo_queues; [ | exact E1 ]. apply record_errors_nil_safe. }
  eapply queues_pending; [ | eapply restartGate_queues_nil_safe; exact E ].
  unfold pending. now rewrite (state_backoffBookkeeping _ _ _ E2).
Qed.

Lemma handleWarning_queues_nil_safe errs m m' :
  handleWarning errs m = Some m' -> queues info_nil_safe m m'.
Proof.
  unfold handleWarning. intros E.
  eapply PatchInfo_queues; [ | exact E ]. apply record_warnings_nil_safe.
Qed.

Lemma resume_queues_nil_safe m m' job rest :
  adminJobQueue m = job :: rest ->
  job_Type job = AdminResume ->
  handleAdminJob m = Some (true, m') ->
  queues info_nil_safe m m'.
Proof.
  unfold handleAdminJob, popAdminJob. intros Q T E.
  rewrite Q in E. inv_bind E as st Est.
  destruct (negb _); [ discriminate | ].
  rewrite T in E. inv_bind E as info Einfo.
  destruct (info_State info); try discriminate;
    inv_bind E as m2 E2; inv_bind E as m3 E3; inv_bind E as m4 E4;
    injection E as <-;
    (eapply queues_pending;
     [ | eapply queues_trans;
         [ eapply patchState_queues_nil_safe; exact E2
         | eapply queues_trans;
           [ eapply PatchInfo_queues; [ apply resume_info_nil_safe | exact E3 ]
           | eapply PatchStatus_queues; [ exact I | exact E4 ] ] ] ]);
    unfold pending; simpl; now rewrite state_resetErrBackoff.
Qed.
End HandlerFacts.

(** ** Nil-safety of the info closures *)

(** C10.  Every info closure queued by the error handler, by the warning
    handler, by [patchState] and by the handling of a Resume job returns
    (nil, false) on a nil info and reaches nothing outside its argument:
    applied to an info that was deleted in the meantime, it neither
    dereferences it nor reports a change. *)
Theorem info_closures_nil_safe :
  forall (B : Type) (BO : ExponentialBackOff B) (EC : ErrorClassifier),
    (forall clk errs (m m' : feedStateManager B),
        handleError clk errs m = Some m' -> queues info_nil_safe m m') /\
    (forall errs (m m' : feedStateManager B),
        handleWarning errs m = Some m' -> queues info_nil_safe m m') /\
    (forall s (m m' : feedStateManager B),
        patchState s m = Some m' -> queues info_nil_safe m m') /\
    (forall (m m' : feedStateManager B) job rest,
        adminJobQueue m = job :: rest ->
        job_Type job = AdminResume ->
        handleAdminJob m = Some (true, m') ->
        queues info_nil_safe m m').
Proof.
  intros B BO EC. repeat split.
  - apply handleError_queues_nil_safe.
  - apply handleWarning_queues_nil_safe.
  - apply patchState_queues_nil_safe.
  - apply resume_queues_nil_safe.
Qed.

Lemma info_closures_nil_safe_witness :
  let m := set_state sampleManager
             (Some (sampleState (sampleInfo StateNormal AdminNone None) AdminNone [])) in
  exists m',
    handleError (clockAt 5) [errPD; errGCTTL] m = Some m' /\
    queues info_nil_safe m m'.
Proof.
  intros m. eexists. split.
  - reflexivity.
  - apply (proj1 (info_closures_nil_safe _ _) (clockAt 5) [errPD; errGCTTL]).
    reflexivity.
Defined.

(** ** Epoch updates of [patchState] *)

Lemma GenerateChangefeedEpoch_total w :
  exists epoch w',
    GenerateChangefeedEpoch w = Some (epoch, w') /\ pd_calls w' = S (pd_calls w).
Proof.
  unfold GenerateChangefeedEpoch.
  destruct (pd_GetTS w (pd_calls w)) as [[phyTs logical]|]; eauto.
Qed.

Lemma patchState_pending {B : Type} s a u (m m' : feedStateManager B) :
  patchState_switch s = Some (a, u) ->
  patchState s m = Some m' ->
  pending m' = pending m ++
    [StatusPatch (patchState_status a); InfoPatch (patchState_info s a u)].
Proof.
  unfold patchState, PatchStatus, PatchInfo, pending. intros -> E. simpl in E.
  destruct (state m) as [st|]; simpl in *; [ | discriminate ].
  injection E as <-. simpl. now rewrite <- app_assoc.
Qed.

(** C5.  [patchState] queues one status closure and one info closure.  The
    info closure asks the oracle for an epoch, and writes it to
    [info.Epoch], exactly when the update-epoch flag of the target is set
    and [info.AdminJobType] differs from the admin job type of the target;
    it then asks exactly once.  Otherwise the oracle is not called and the
    epoch is kept; this is always so for the target Normal. *)
Theorem patchState_epoch_update :
  forall (B : Type) s a u,
    patchState_switch s = Some (a, u) ->
    (forall (m m' : feedStateManager B),
        patchState s m = Some m' ->
        pending m' = pending m ++
          [StatusPatch (patchState_status a); InfoPatch (patchState_info s a u)]) /\
    (forall info w,
        exists info' changed w',
          patchState_info s a u (Some info) w = Some ((Some info', changed), w') /\
          (if u && negb (AdminJobType_eqb (info_AdminJobType info) a)
           then GenerateChangefeedEpoch w = Some (info_Epoch info', w') /\
                pd_calls w' = S (pd_calls w)
           else w' = w /\ info_Epoch info' = info_Epoch info)) /\
    (s = StateNormal ->
     forall info w,
       exists info' changed,
         patchState_info s a u (Some info) w = Some ((Some info', changed), w) /\
         info_Epoch info' = info_Epoch info).
Proof.
  intros B s a u Hs. split; [ | split ].
  - intros m m'. now apply patchState_pending.
  - intros info w. unfold patchState_info.
    destruct (negb (FeedState_eqb (info_State info) s)); cbn [info_AdminJobType set_info_State];
      destruct (negb (AdminJobType_eqb (info_AdminJobType info) a)); rewrite ?andb_false_r;
      try (do 3 eexists; split; [ reflexivity | split; reflexivity ]);
      rewrite andb_true_r; destruct u;
      try (do 3 eexists; split; [ reflexivity | split; reflexivity ]);
      destruct (GenerateChangefeedEpoch_total w) as [e [w' [G C]]];
      rewrite G; do 3 eexists; (split; [ reflexivity | split; [ reflexivity | exact C ] ]).
  - intros -> info w. injection Hs as <- <-. unfold patchState_info.
    destruct (negb (FeedState_eqb (info_State info) StateNormal));
      cbn [info_AdminJobType set_info_State];
      destruct (negb (AdminJobType_eqb (info_AdminJobType info) AdminNone));
      do 2 eexists; split; reflexivity.
Qed.

Lemma patchState_epoch_update_witness :
  exists info' changed w',
    patchState_info StateFailed AdminStop true
      (Some (sampleInfo StateNormal AdminNone None)) sampleWorld
      = Some ((Some info', changed), w') /\
    GenerateChangefeedEpoch sampleWorld = Some (info_Epoch info', w') /\
    pd_calls w' = S (pd_calls sampleWorld).
Proof.
  exact (proj1 (proj2 (@patchState_epoch_update SimpleBackOff
                         StateFailed AdminStop true eq_refl))
           (sampleInfo StateNormal AdminNone None) sampleWorld).
Defined.

(** ** The removal flag *)

(** A loop over the entries of a map whose body may panic keeps an
    invariant of its accumulator. *)
Lemma fold_left_option_inv {A S : Type} (I : S -> Prop)
    (step : S -> A -> option S) (l : list A) :
  (forall s a s', I s -> step s a = Some s' -> I s') ->
  forall s s',
    I s ->
    fold_left (fun acc a => bind acc (fun s => step s a)) l (Some s) = Some s' ->
    I s'.
Proof.
  intros Hstep. induction l as [|a l IH]; simpl; intros s s' Is E.
  - now injection E as <-.
  - destruct (step s a) as [s1|] eqn:E1.
    + eapply IH; [ | exact E ]. eapply Hstep; eauto.
    + exfalso. clear -E. induction l as [|b l IHl]; simpl in E; [ discriminate | auto ].
Qed.

Section RemovedFlag.
Context {B : Type} `{ExponentialBackOff B} `{ErrorClassifier}.
Implicit Types m : feedStateManager B.

Lemma removed_PatchInfo f m m' :
  PatchInfo f m = Some m' -> shouldBeRemoved m' = shouldBeRemoved m.
Proof. unfold PatchInfo. intros E. inv_bind E as st Est. now injection E as <-. Qed.

Lemma removed_PatchStatus f m m' :
  PatchStatus f m = Some m' -> shouldBeRemoved m' = shouldBeRemoved m.
Proof. unfold PatchStatus. intros E. inv_bind E as st Est. now injection E as <-. Qed.

Lemma removed_PatchTaskPosition c f m m' :
  PatchTaskPosition c f m = Some m' -> shouldBeRemoved m' = shouldBeRemoved m.
Proof.
  unfold PatchTaskPosition. intros E. inv_bind E as st Est. now injection E as <-.
Qed.

Lemma removed_patchState s m m' :
  patchState s m = Some m' -> shouldBeRemoved m' = shouldBeRemoved m.
Proof.
  unfold patchState. intros E. inv_bind E as [a u] Esw. inv_bind E as m1 E1.
  apply removed_PatchInfo in E. apply removed_PatchStatus in E1. congruence.
Qed.

Lemma removed_resetErrBackoff m :
  shouldBeRemoved (resetErrBackoff m) = shouldBeRemoved m.
Proof. unfold resetErrBackoff. now destruct (NextBackOff _). Qed.

Lemma removed_cleanUpInfos m m' :
  cleanUpInfos m = Some m' -> shouldBeRemoved m' = shouldBeRemoved m.
Proof.
  unfold cleanUpInfos. intros E. inv_bind E as st Est.
  revert E. apply (fold_left_option_inv (fun x => shouldBeRemoved x = shouldBeRemoved m)
    (fun x entry => PatchTaskPosition (fst entry) cleanUp_position x)); [ | reflexivity ].
  intros s e s' Is Es. apply removed_PatchTaskPosition in Es. congruence.
Qed.

Lemma removed_errorsReportedByProcessors m errs m' :
  errorsReportedByProcessors m = Some (errs, m') ->
  shouldBeRemoved m' = shouldBeRemoved m.
Proof.
  unfold errorsReportedByProcessors. intros E.
  inv_bind E as st Est. inv_bind E as [re m1] E1. injection E as _ <-.
  revert E1.
  apply (fold_left_option_inv (fun x => shouldBeRemoved (snd x) = shouldBeRemoved m)
    (fun (x : list (string * RunningError) * feedStateManager B)
         (entry : CaptureID * TaskPosition) =>
       let '(runningErrors, m) := x in
       let '(captureID, position) := entry in
       match pos_Error position with
       | Some e =>
           let runningErrors := code_insert (err_Code e) e runningErrors in
           bind (PatchTaskPosition captureID clear_position_Error m)
                (fun m => Some (runningErrors, m))
       | None => Some (runningErrors, m)
       end)); [ | reflexivity ].
  intros [re0 m0] [c p] [re' m0'] Is Es. simpl in *.
  destruct (pos_Error p).
  - inv_bind Es as m2 E2. injection Es as _ <-.
    apply removed_PatchTaskPosition in E2. simpl. congruence.
  - now injection Es as _ <-.
Qed.
Lemma removed_warningsReportedByProcessors m errs m' :
  warningsReportedByProcessors m = Some (errs, m') ->
  shouldBeRemoved m' = shouldBeRemoved m.
Proof.
  unfold warningsReportedByProcessors. intros E.
  inv_bind E as st Est. inv_bind E as [re m1] E1. injection E as _ <-.
  revert E1.
  apply (fold_left_option_inv (fun x => shouldBeRemoved (snd x) = shouldBeRemoved m)
    (fun (x : list (string * RunningError) * feedStateManager B)
         (entry : CaptureID * TaskPosition) =>
       let '(runningWarnings, m) := x in
       let '(captureID, position) := entry in
       match pos_Warning position with
       | Some e =>
           let runningWarnings := code_insert (err_Code e) e runningWarnings in
           bind (PatchTaskPosition captureID clear_position_Warning m)
                (fun m => Some (runningWarnings, m))
       | None => Some (runningWarnings, m)
       end)); [ | reflexivity ].
  intros [re0 m0] [c p] [re' m0'] Is Es. simpl in *.
  destruct (pos_Warning p).
  - inv_bind Es as m2 E2. injection Es as _ <-.
    apply removed_PatchTaskPosition in E2. simpl. congruence.
  - now injection Es as _ <-.
Qed.

Lemma removed_backoffBookkeeping clk errs m m' :
  backoffBookkeeping clk errs m = Some m' ->
  shouldBeRemoved m' = shouldBeRemoved m.
Proof.
  unfold backoffBookkeeping. intros E.
  inv_bind E as st Est. inv_bind E as info Einfo. injection E as <-.
  unfold shiftStateWindow. cbn [shouldBeRemoved set_stateHistory].
  destruct (0 <? List.length errs)%nat.
  - destruct (isChangefeedStable _); [ now rewrite removed_resetErrBackoff | reflexivity ].
  - now destruct (FeedState_eqb _ _).
Qed.

Lemma removed_restartGate clk m m' :
  restartGate clk m = Some m' -> shouldBeRemoved m' = shouldBeRemoved m.
Proof.
  unfold restartGate. intros E.
  destruct (Time_eqb _ _); [ now injection E as <- | ].
  destruct (_ <? _); [ now apply removed_patchState in E | ].
  destruct (NextBackOff _) as [d b]. simpl in E.
  destruct (d =? Stop); [ now apply removed_patchState in E | now injection E as <- ].
Qed.

Lemma removed_handleError clk errs m m' :
  handleError clk errs m = Some m' -> shouldBeRemoved m' = shouldBeRemoved m.
Proof.
  unfold handleError. intros E.
  destruct (find _ errs) as [e|].
  { inv_bind E as m1 E1. apply removed_patchState in E.
    apply removed_PatchInfo in E1. simpl in E. congruence. }
  inv_bind E as st Est.
  destruct (match rs_Info st with Some _ => _ | None => _ end);
    [ now injection E as <- | ].
  destruct (find _ errs) as [e|].
  { inv_bind E as m1 E1. apply removed_patchState in E.
    apply removed_PatchInfo in E1. simpl in E. congruence. }
  inv_bind E as m1 E1. inv_bind E as m2 E2.
  apply removed_restartGate in E. apply removed_backoffBookkeeping in E2.
  apply removed_PatchInfo in E1. congruence.
Qed.

Lemma removed_handleWarning errs m m' :
  handleWarning errs m = Some m' -> shouldBeRemoved m' = shouldBeRemoved m.
Proof. apply removed_PatchInfo. Qed.

Lemma removed_Tick_reports clk m b m' :
  Tick_reports clk m = Some (b, m') -> shouldBeRemoved m' = shouldBeRemoved m.
Proof.
  unfold Tick_reports. intros E.
  inv_bind E as [errs m1] E1. inv_bind E as m2 E2.
  inv_bind E as [warnings m3] E3. inv_bind E as m4 E4. injection E as _ <-.
  apply removed_errorsReportedByProcessors in E1. apply removed_handleError in E2.
  apply removed_warningsReportedByProcessors in E3. apply removed_handleWarning in E4.
  congruence.
Qed.

(** The admin job handler only ever raises the flag. *)
Lemma removed_handleAdminJob m b m' :
  handleAdminJob m = Some (b, m') ->
  shouldBeRemoved m = true -> shouldBeRemoved m' = true.
Proof.
  unfold handleAdminJob, popAdminJob. intros E R.
  destruct (adminJobQueue m) as [|job rest]; [ now injection E as _ <- | ].
  inv_bind E as st Est.
  destruct (negb _); [ now injection E as _ <- | ].
  destruct (job_Type job); [ now injection E as _ <- | | | | ];
    inv_bind E as info Einfo;
    destruct (info_State info);
    try (injection E as _ <-; exact R).
  all: try (inv_bind E as m1 E1; injection E as _ <-;
            apply removed_patchState in E1; rewrite E1; exact R).
  all: try (inv_bind E as m1 E1; inv_bind E as m2 E2; injection E as _ <-;
            apply removed_PatchInfo in E1; apply removed_PatchStatus in E2;
            rewrite E2, E1; reflexivity).
  all: inv_bind E as m1 E1; inv_bind E as m2 E2; inv_bind E as m3 E3;
       injection E as _ <-;
       apply removed_patchState in E1; apply removed_PatchInfo in E2;
       apply removed_PatchStatus in E3; rewrite E3, E2, E1;
       cbn [shouldBeRemoved set_lastErrorTime]; rewrite removed_resetErrBackoff;
       exact R.
Qed.

Lemma removed_Tick_body clk m b m' :
  Tick_body clk m = Some (b, m') ->
  shouldBeRemoved m = true -> shouldBeRemoved m' = true.
Proof.
  unfold Tick_body. intros E R.
  inv_bind E as [jobsPending m1] E1.
  apply removed_handleAdminJob in E1; [ | exact R ].
  destruct jobsPending; [ now injection E as _ <- | ].
  inv_bind E as st Est. inv_bind E as info Einfo.
  destruct (info_State info);
    try (injection E as _ <-; assumption || reflexivity);
    try (apply removed_Tick_reports in E; congruence).
  inv_bind E as err Eerr.
  destruct (IsChangefeedUnRetryableError err).
  - inv_bind E as m2 E2. injection E as _ <-.
    apply removed_patchState in E2. simpl in E2. congruence.
  - apply removed_Tick_reports in E. congruence.
Qed.

Lemma removed_Tick_deferred m m' :
  Tick_deferred m = Some m' -> shouldBeRemoved m' = shouldBeRemoved m.
Proof.
  unfold Tick_deferred. destruct (shouldBeRunning m).
  - apply removed_patchState.
  - apply removed_cleanUpInfos.
Qed.

Lemma removed_Tick clk st m b m' :
  Tick clk st m = Some (b, m') ->
  shouldBeRemoved m = true -> shouldBeRemoved m' = true.
Proof.
  unfold Tick. intros E R.
  inv_bind E as [pending1 m1] E1. inv_bind E as m2 E2. injection E as _ <-.
  apply removed_Tick_body in E1; [ | exact R ].
  apply removed_Tick_deferred in E2. congruence.
Qed.

Lemma removed_perform op m m' :
  perform op m = Some m' ->
  shouldBeRemoved m = true -> shouldBeRemoved m' = true.
Proof.
  destruct op as [clk st|job|]; simpl; intros E R.
  - inv_bind E as [b m1] E1. injection E as <-. eapply removed_Tick; eauto.
  - unfold PushAdminJob in E.
    destruct (job_Type job); try discriminate; now injection E as <-.
  - injection E as <-. unfold MarkFinished. now destruct (state m).
Qed.
End RemovedFlag.

(** C9.  The removal flag is monotone over the lifetime of the manager:
    when [ShouldRemoved] answers true, it still answers true after any
    sequence of ticks, pushed admin jobs and [MarkFinished] calls. *)
Theorem ShouldRemoved_monotone :
  forall (B : Type) (BO : ExponentialBackOff B) (EC : ErrorClassifier)
         (ops : list Operation) (m m' : feedStateManager B),
    ShouldRemoved m = true ->
    performAll ops m = Some m' ->
    ShouldRemoved m' = true.
Proof.
  intros B BO EC ops. unfold ShouldRemoved.
  induction ops as [|op ops IH]; simpl; intros m m' R E.
  - now injection E as <-.
  - inv_bind E as m1 E1. eapply IH; [ | exact E ].
    eapply removed_perform; eauto.
Qed.

Lemma ShouldRemoved_monotone_witness :
  let m := set_shouldBeRemoved sampleManager true in
  let stop := {| job_CfID := sampleID; job_Type := AdminStop;
                 job_OverwriteCheckpointTs := 0 |} in
  let st := sampleState (sampleInfo StateStopped AdminStop None) AdminStop [] in
  let ops := [OpPushAdminJob stop; OpMarkFinished; OpTick (clockAt 5) st] in
  exists m', performAll ops m = Some m' /\ ShouldRemoved m' = true.
Proof.
  intros m stop st ops. eexists. split.
  - reflexivity.
  - apply (@ShouldRemoved_monotone _ _ _ ops m); reflexivity.
Defined.

(** ** The loops over the task positions, in closed form *)

Lemma enqueue_all_nil st : enqueue_all st [] = st.
Proof. destruct st. unfold enqueue_all, set_rs_pendingPatches. simpl. now rewrite app_nil_r. Qed.

Lemma enqueue_all_app st a b :
  enqueue_all (enqueue_all st a) b = enqueue_all st (a ++ b).
Proof. unfold enqueue_all, set_rs_pendingPatches. simpl. now rewrite app_assoc. Qed.

Lemma enqueue_enqueue_all st p : enqueue st p = enqueue_all st [p].
Proof. reflexivity. Qed.

Section Loops.
Context {B : Type} `{ExponentialBackOff B} `{ErrorClassifier}.
Implicit Types m : feedStateManager B.

Lemma cleanUp_loop tps m st :
  fold_left
    (fun acc entry => m <- acc ;; PatchTaskPosition (fst entry) cleanUp_position m)
    tps (Some (set_state m (Some st)))
  = Some (set_state m (Some (enqueue_all st (cleanUpPatches tps)))).
Proof.
  revert st. induction tps as [|[c p] tps IH]; intros st; simpl.
  - now rewrite enqueue_all_nil.
  - change (PatchTaskPosition c cleanUp_position (set_state m (Some st)))
      with (Some (set_state m (Some (enqueue st (TaskPositionPatch c cleanUp_position))))).
    rewrite IH, enqueue_enqueue_all, enqueue_all_app. reflexivity.
Qed.

Lemma cleanUpInfos_eq m st :
  cleanUpInfos (set_state m (Some st)) =
  Some (set_state m (Some (enqueue_all st (cleanUpPatches (rs_TaskPositions st))))).
Proof. unfold cleanUpInfos. simpl. apply cleanUp_loop. Qed.

Lemma errors_loop tps acc m st :
  fold_left
    (fun acc entry =>
       '(runningErrors, m) <- acc ;;
       let '(captureID, position) := entry in
       match pos_Error position with
       | Some e =>
           let runningErrors := code_insert (err_Code e) e runningErrors in
           m <- PatchTaskPosition captureID clear_position_Error m ;;
           Some (runningErrors, m)
       | None => Some (runningErrors, m)
       end)
    tps (Some (acc, set_state m (Some st)))
  = Some (errorsByCode tps acc,
          set_state m (Some (enqueue_all st (errorPatches tps)))).
Proof.
  revert acc st. induction tps as [|[c p] tps IH]; intros acc st; simpl.
  - now rewrite enqueue_all_nil.
  - destruct (pos_Error p) as [e|] eqn:Ep.
    + etransitivity.
      { exact (IH (code_insert (err_Code e) e acc)
                  (enqueue st (TaskPositionPatch c clear_position_Error))). }
      rewrite enqueue_enqueue_all, enqueue_all_app. reflexivity.
    + exact (IH acc st).
Qed.

Lemma errorsReportedByProcessors_eq m st :
  errorsReportedByProcessors (set_state m (Some st)) =
  Some (reportedErrors (rs_TaskPositions st),
        set_state m (Some (enqueue_all st (errorPatches (rs_TaskPositions st))))).
Proof.
  unfold errorsReportedByProcessors. cbn [state set_state bind].
  rewrite errors_loop. reflexivity.
Qed.

Lemma warnings_loop tps acc m st :
  fold_left
    (fun acc entry =>
       '(runningWarnings, m) <- acc ;;
       let '(captureID, position) := entry in
       match pos_Warning position with
       | Some e =>
           let runningWarnings := code_insert (err_Code e) e runningWarnings in
           m <- PatchTaskPosition captureID clear_position_Warning m ;;
           Some (runningWarnings, m)
       | None => Some (runningWarnings, m)
       end)
    tps (Some (acc, set_state m (Some st)))
  = Some (warningsByCode tps acc,
          set_state m (Some (enqueue_all st (warningPatches tps)))).
Proof.
  revert acc st. induction tps as [|[c p] tps IH]; intros acc st; simpl.
  - now rewrite enqueue_all_nil.
  - destruct (pos_Warning p) as [e|] eqn:Ep.
    + etransitivity.
      { exact (IH (code_insert (err_Code e) e acc)
                  (enqueue st (TaskPositionPatch c clear_position_Warning))). }
      rewrite enqueue_enqueue_all, enqueue_all_app. reflexivity.
    + exact (IH acc st).
Qed.

Lemma warningsReportedByProcessors_eq m st :
  warningsReportedByProcessors (set_state m (Some st)) =
  Some (reportedWarnings (rs_TaskPositions st),
        set_state m (Some (enqueue_all st (warningPatches (rs_TaskPositions st))))).
Proof.
  unfold warningsReportedByProcessors. cbn [state set_state bind].
  rewrite warnings_loop. reflexivity.
Qed.
End Loops.

(** ** Applying the pending patches *)

Lemma applyPatches_app a b st w :
  applyPatches (a ++ b) st w =
  ('((ca, st1), w1) <- applyPatches a st w ;;
   '((cb, st2), w2) <- applyPatches b st1 w1 ;;
   Some ((ca ++ cb, st2), w2)).
Proof.
  revert st w. induction a as [|p a IH]; intros st w; simpl.
  - destruct (applyPatches b st w) as [[[cb st2] w2]|]; reflexivity.
  - destruct (applyPatch p st w) as [[[c st1] w1]|]; simpl; [ | reflexivity ].
    rewrite IH.
    destruct (applyPatches a st1 w1) as [[[ca st2] w2]|]; simpl; [ | reflexivity ].
    destruct (applyPatches b st2 w2) as [[[cb st3] w3]|]; reflexivity.
Qed.

(** Only the info closures of a batch decide the persisted info, as long as
    the other closures are quiet. *)
Lemma applyPatches_info ps :
  Forall info_or_quiet ps ->
  forall st w v' w',
    runInfo (infoClosures ps) (rs_Info st) w = Some (v', w') ->
    exists cs st',
      applyPatches ps st w = Some ((cs, st'), w') /\ rs_Info st' = v'.
Proof.
  induction 1 as [|p ps Hp Hps IH]; intros st w v' w' R; simpl in *.
  - injection R as <- <-. eauto.
  - destruct p as [f|f|c f]; simpl in *.
    + inv_bind R as [[v1 ch] w1] E1. rewrite E1. simpl.
      destruct (IH (if ch then set_rs_Info st v1 else st) w1 v' w') as [cs [st' [A I]]].
      { destruct ch; exact R. }
      rewrite A. simpl. eauto.
    + destruct (Hp (rs_Status st) w) as [v1 [ch E1]]. rewrite E1. simpl.
      destruct (IH (if ch then set_rs_Status st v1 else st) w v' w') as [cs [st' [A I]]].
      { destruct ch; exact R. }
      rewrite A. simpl. eauto.
    + destruct (Hp (tp_lookup c (rs_TaskPositions st)) w) as [v1 [ch E1]].
      rewrite E1. simpl.
      destruct (IH (if ch then set_rs_TaskPositions st
                                 (tp_store c v1 (rs_TaskPositions st)) else st)
                   w v' w') as [cs [st' [A I]]].
      { destruct ch; exact R. }
      rewrite A. simpl. eauto.
Qed.

Lemma infoClosures_app a b : infoClosures (a ++ b) = infoClosures a ++ infoClosures b.
Proof. unfold infoClosures. now rewrite flat_map_app. Qed.

Lemma quiet_clear_position_Error : quiet clear_position_Error.
Proof. intros [p|] w; simpl; eauto. Qed.

Lemma quiet_clear_position_Warning : quiet clear_position_Warning.
Proof. intros [p|] w; simpl; eauto. Qed.

Lemma quiet_cleanUp_position : quiet cleanUp_position.
Proof. intros v w. unfold cleanUp_position. eauto. Qed.

Lemma quiet_patchState_status a : quiet (patchState_status a).
Proof.
  intros [s|] w; simpl; eauto.
  destruct (negb _); eauto.
Qed.

Lemma errorPatches_quiet tps :
  Forall info_or_quiet (errorPatches tps) /\ infoClosures (errorPatches tps) = [].
Proof.
  unfold errorPatches. induction tps as [|[c p] tps [IH1 IH2]]; simpl.
  - split; [ constructor | reflexivity ].
  - destruct (pos_Error p); simpl; auto.
    split; [ constructor; [ apply quiet_clear_position_Error | exact IH1 ] | exact IH2 ].
Qed.

Lemma warningPatches_quiet tps :
  Forall info_or_quiet (warningPatches tps) /\ infoClosures (warningPatches tps) = [].
Proof.
  unfold warningPatches. induction tps as [|[c p] tps [IH1 IH2]]; simpl.
  - split; [ constructor | reflexivity ].
  - destruct (pos_Warning p); simpl; auto.
    split; [ constructor; [ apply quiet_clear_position_Warning | exact IH1 ] | exact IH2 ].
Qed.

Lemma cleanUpPatches_quiet tps :
  Forall info_or_quiet (cleanUpPatches tps) /\ infoClosures (cleanUpPatches tps) = [].
Proof.
  unfold cleanUpPatches. induction tps as [|[c p] tps [IH1 IH2]]; simpl.
  - split; [ constructor | reflexivity ].
  - split; [ constructor; [ apply quiet_cleanUp_position | exact IH1 ] | exact IH2 ].
Qed.

(** ** What the info closures do to an existing info *)

Lemma FeedState_eqb_eq a b : FeedState_eqb a b = true <-> a = b.
Proof. destruct a, b; simpl; split; congruence. Qed.

Lemma AdminJobType_eqb_eq a b : AdminJobType_eqb a b = true <-> a = b.
Proof. destruct a, b; simpl; split; congruence. Qed.

Lemma patchState_info_effect s a u info w :
  exists info' changed w',
    patchState_info s a u (Some info) w = Some ((Some info', changed), w') /\
    let eff := if changed then info' else info in
    info_State eff = s /\ info_AdminJobType eff = a /\
    info_Error eff = info_Error info /\ info_Warning eff = info_Warning info /\
    info_StartTs eff = info_StartTs info.
Proof.
  unfold patchState_info.
  destruct (FeedState_eqb (info_State info) s) eqn:Es;
    destruct (AdminJobType_eqb (info_AdminJobType info) a) eqn:Ea;
    cbn [negb info_AdminJobType set_info_State]; rewrite ?Ea; cbn [negb];
    try apply FeedState_eqb_eq in Es; try apply AdminJobType_eqb_eq in Ea.
  1, 3: do 3 eexists; split; [ reflexivity | simpl; auto ].
  all: destruct u;
    [ destruct (GenerateChangefeedEpoch_total w) as [e [w' [G C]]]; rewrite G
    | ];
    do 3 eexists; (split; [ reflexivity | simpl; auto ]).
Qed.

Lemma fold_set_info_Warning errs info :
  let info' := fold_left (fun info err => set_info_Warning info (Some err)) errs info in
  info_State info' = info_State info /\
  info_AdminJobType info' = info_AdminJobType info /\
  info_Error info' = info_Error info /\
  info_Epoch info' = info_Epoch info /\
  info_StartTs info' = info_StartTs info.
Proof.
  revert info. induction errs as [|e errs IH]; intros info; simpl; auto.
  destruct (IH (set_info_Warning info (Some e))) as (A & B & C & D & E).
  simpl in *. repeat split; assumption.
Qed.

Lemma last_cons_default {A : Type} (l : list A) (a d d' : A) :
  last (a :: l) d = last (a :: l) d'.
Proof.
  revert a. induction l as [|b l IH]; intros a; [ reflexivity | ].
  change (last (b :: l) d = last (b :: l) d'). apply IH.
Qed.

Lemma fold_set_info_Error errs info :
  let info' := fold_left (fun info err => set_info_Error info (Some err)) errs info in
  info_State info' = info_State info /\
  info_AdminJobType info' = info_AdminJobType info /\
  info_Error info' = last (map Some errs) (info_Error info) /\
  info_Warning info' = info_Warning info /\
  info_Epoch info' = info_Epoch info /\
  info_StartTs info' = info_StartTs info.
Proof.
  revert info. induction errs as [|e errs IH]; intros info; simpl; auto 7.
  destruct (IH (set_info_Error info (Some e))) as (A & B & C & D & E & F).
  simpl in *. repeat split; try assumption.
  rewrite C. destruct errs as [|r errs]; [ reflexivity | ].
  apply (last_cons_default (map Some errs) (Some r)).
Qed.

(** ** Managers bound to a reactor state *)

(** The setters commute with the binding of the state pointer; rewriting
    with these equations brings a manager into the form
    [set_state m (Some st)]. *)
Section Bound.
Context {B : Type} `{ExponentialBackOff B}.
Implicit Types m : feedStateManager B.

Lemma bound_state m s : state (set_state m s) = s.
Proof. reflexivity. Qed.

Lemma bound_set_state m s s' : set_state (set_state m s) s' = set_state m s'.
Proof. reflexivity. Qed.

Lemma bound_shouldBeRunning m s : shouldBeRunning (set_state m s) = shouldBeRunning m.
Proof. reflexivity. Qed.

Lemma bound_shouldBeRemoved m s : shouldBeRemoved (set_state m s) = shouldBeRemoved m.
Proof. reflexivity. Qed.

Lemma bound_adminJobQueue m s : adminJobQueue (set_state m s) = adminJobQueue m.
Proof. reflexivity. Qed.

Lemma bound_lastErrorTime m s : lastErrorTime (set_state m s) = lastErrorTime m.
Proof. reflexivity. Qed.

Lemma bound_backoffInterval m s : backoffInterval (set_state m s) = backoffInterval m.
Proof. reflexivity. Qed.

Lemma bound_errBackoff m s : errBackoff (set_state m s) = errBackoff m.
Proof. reflexivity. Qed.

Lemma bound_stateHistory m s : stateHistory (set_state m s) = stateHistory m.
Proof. reflexivity. Qed.

Lemma bound_set_shouldBeRunning m s b :
  set_shouldBeRunning (set_state m s) b = set_state (set_shouldBeRunning m b) s.
Proof. reflexivity. Qed.

Lemma bound_set_shouldBeRemoved m s b :
  set_shouldBeRemoved (set_state m s) b = set_state (set_shouldBeRemoved m b) s.
Proof. reflexivity. Qed.

Lemma bound_set_adminJobQueue m s q :
  set_adminJobQueue (set_state m s) q = set_state (set_adminJobQueue m q) s.
Proof. reflexivity. Qed.

Lemma bound_set_stateHistory m s h :
  set_stateHistory (set_state m s) h = set_state (set_stateHistory m h) s.
Proof. reflexivity. Qed.

Lemma bound_set_lastErrorTime m s t :
  set_lastErrorTime (set_state m s) t = set_state (set_lastErrorTime m t) s.
Proof. reflexivity. Qed.

Lemma bound_set_backoff m s d b :
  set_backoff (set_state m s) d b = set_state (set_backoff m d b) s.
Proof. reflexivity. Qed.

Lemma bound_resetErrBackoff m s :
  resetErrBackoff (set_state m s) = set_state (resetErrBackoff m) s.
Proof.
  unfold resetErrBackoff. cbn [errBackoff set_state].
  now destruct (NextBackOff (Reset (errBackoff m))).
Qed.

Lemma bound_shiftStateWindow m s x :
  shiftStateWindow x (set_state m s) = set_state (shiftStateWindow x m) s.
Proof.
  unfold shiftStateWindow, set_stateHistory, set_state. cbn [stateHistory].
  reflexivity.
Qed.

Lemma bound_isChangefeedStable m s :
  isChangefeedStable (set_state m s) = isChangefeedStable m.
Proof. reflexivity. Qed.
End Bound.

Create Rewrite HintDb bound.

#[export] Hint Rewrite
  @bound_state @bound_set_state @bound_shouldBeRunning @bound_shouldBeRemoved
  @bound_adminJobQueue
  @bound_lastErrorTime @bound_backoffInterval @bound_errBackoff
  @bound_stateHistory @bound_set_shouldBeRunning @bound_set_shouldBeRemoved
  @bound_set_adminJobQueue @bound_set_stateHistory @bound_set_lastErrorTime
  @bound_set_backoff @bound_resetErrBackoff @bound_shiftStateWindow
  @bound_isChangefeedStable : bound.

(** ** The paths of a tick, in closed form *)

Section TickPaths.
Context {B : Type} `{ExponentialBackOff B} `{ErrorClassifier}.
Implicit Types m : feedStateManager B.

Lemma patchState_eq s a u m st :
  patchState_switch s = Some (a, u) ->
  patchState s (set_state m (Some st)) =
  Some (set_state m (Some (enqueue_all st
          [StatusPatch (patchState_status a); InfoPatch (patchState_info s a u)]))).
Proof.
  unfold patchState. intros ->.
  change (Some (set_state m (Some (enqueue_all
                   (enqueue_all st [StatusPatch (patchState_status a)])
                   [InfoPatch (patchState_info s a u)])))
          = Some (set_state m (Some (enqueue_all st
                   [StatusPatch (patchState_status a);
                    InfoPatch (patchState_info s a u)])))).
  now rewrite enqueue_all_app.
Qed.

Lemma handleWarning_eq errs m st :
  handleWarning errs (set_state m (Some st)) =
  Some (set_state m (Some (enqueue_all st [InfoPatch (record_warnings errs)]))).
Proof. reflexivity. Qed.

(** Lines 145-147, after the error handler. *)
Lemma warnings_tail m st :
  ('(warnings, m2) <- warningsReportedByProcessors (set_state m (Some st)) ;;
   m3 <- handleWarning warnings m2 ;;
   Some (false, m3))
  = Some (false,
          set_state m (Some (enqueue_all st
            (warningPatches (rs_TaskPositions st) ++
             [InfoPatch (record_warnings (reportedWarnings (rs_TaskPositions st)))])))).
Proof.
  rewrite warningsReportedByProcessors_eq. cbn [bind].
  rewrite handleWarning_eq. cbn [bind]. now rewrite enqueue_all_app.
Qed.

Lemma Tick_deferred_stop m st :
  shouldBeRunning m = false ->
  Tick_deferred (set_state m (Some st)) =
  Some (set_state m (Some (enqueue_all st (cleanUpPatches (rs_TaskPositions st))))).
Proof.
  unfold Tick_deferred. cbn [shouldBeRunning set_state]. intros ->.
  apply cleanUpInfos_eq.
Qed.

Lemma Tick_deferred_run m st :
  shouldBeRunning m = true ->
  Tick_deferred (set_state m (Some st)) =
  Some (set_state m (Some (enqueue_all st
          [StatusPatch (patchState_status AdminNone);
           InfoPatch (patchState_info StateNormal AdminNone false)]))).
Proof.
  unfold Tick_deferred. cbn [shouldBeRunning set_state]. intros ->.
  now apply patchState_eq.
Qed.

(** With no admin job queued, and from a state that is not terminal, a
    tick is the handling of the reports followed by the deferred exit. *)
Lemma Tick_to_handlers clk st m info :
  adminJobQueue m = [] ->
  rs_Info st = Some info ->
  reaches_handlers info = true ->
  Tick clk st m =
  ('(b, m2) <- Tick_reports clk (set_state (set_shouldBeRunning m true) (Some st)) ;;
   m3 <- Tick_deferred m2 ;;
   Some (b, m3)).
Proof.
  intros Q I R. unfold Tick, Tick_body, handleAdminJob, popAdminJob.
  cbn [adminJobQueue set_state set_shouldBeRunning]. rewrite Q.
  cbn [bind state set_state set_shouldBeRunning]. rewrite I. cbn [bind].
  unfold reaches_handlers in R.
  destruct (info_State info); try discriminate R; try reflexivity.
  destruct (info_Error info) as [err|]; [ | discriminate R ].
  cbn [bind]. destruct (IsChangefeedUnRetryableError err); [ discriminate R | reflexivity ].
Qed.

Lemma Tick_reports_eq clk m st :
  Tick_reports clk (set_state m (Some st)) =
  (m1 <- handleError clk (reportedErrors (rs_TaskPositions st))
           (set_state m (Some (enqueue_all st (errorPatches (rs_TaskPositions st))))) ;;
   '(warnings, m2) <- warningsReportedByProcessors m1 ;;
   m3 <- handleWarning warnings m2 ;;
   Some (false, m3)).
Proof.
  unfold Tick_reports. rewrite errorsReportedByProcessors_eq. reflexivity.
Qed.

Lemma handleError_fast_fail clk errs e m st :
  find isFastFail errs = Some e ->
  handleError clk errs (set_state m (Some st)) =
  Some (set_state (set_shouldBeRunning m false)
          (Some (enqueue_all st
             [InfoPatch (record_error e);
              StatusPatch (patchState_status AdminStop);
              InfoPatch (patchState_info StateFailed AdminStop true)]))).
Proof.
  unfold handleError, isFastFail. intros ->.
  change (PatchInfo (record_error e) (set_state m (Some st)))
    with (Some (set_state m (Some (enqueue_all st [InfoPatch (record_error e)])))).
  cbn [bind].
  change (set_shouldBeRunning (set_state m (Some (enqueue_all st [InfoPatch (record_error e)]))) false)
    with (set_state (set_shouldBeRunning m false)
            (Some (enqueue_all st [InfoPatch (record_error e)]))).
  rewrite (@patchState_eq StateFailed AdminStop true); [ | reflexivity ].
  now rewrite enqueue_all_app.
Qed.

(** A tick whose reports hold a fast-fail error. *)
Lemma Tick_fast_fail clk st m info e :
  adminJobQueue m = [] ->
  rs_Info st = Some info ->
  reaches_handlers info = true ->
  find isFastFail (reportedErrors (rs_TaskPositions st)) = Some e ->
  Tick clk st m =
  Some (false,
        set_state (set_shouldBeRunning m false)
          (Some (enqueue_all st
             (errorPatches (rs_TaskPositions st) ++
              [InfoPatch (record_error e);
               StatusPatch (patchState_status AdminStop);
               InfoPatch (patchState_info StateFailed AdminStop true)] ++
              warningPatches (rs_TaskPositions st) ++
              [InfoPatch (record_warnings (reportedWarnings (rs_TaskPositions st)))] ++
              cleanUpPatches (rs_TaskPositions st))))).
Proof.
  intros Q I R F. rewrite (Tick_to_handlers clk st m Q I R).
  rewrite Tick_reports_eq.
  rewrite (handleError_fast_fail clk _ _ _ F). cbn [bind].
  change (set_state (set_shouldBeRunning (set_shouldBeRunning m true) false))
    with (set_state (set_shouldBeRunning m false)).
  rewrite warnings_tail. cbn [bind].
  rewrite Tick_deferred_stop; [ | reflexivity ].
  cbn [bind]. rewrite !enqueue_all_app.
  cbn [rs_TaskPositions enqueue_all set_rs_pendingPatches].
  unfold enqueue_all. cbn [rs_TaskPositions rs_pendingPatches set_rs_pendingPatches].
  rewrite <- !app_assoc. reflexivity.
Qed.
End TickPaths.

(** ** C1: the fast-fail short circuit *)

Lemma find_exists {A : Type} (f : A -> bool) (l : list A) (x : A) :
  In x l -> f x = true -> exists y, find f l = Some y.
Proof.
  induction l as [|a l IH]; simpl; [ tauto | ].
  intros [->|Hin] Hx.
  - rewrite Hx. eauto.
  - destruct (f a); eauto.
Qed.

Lemma record_warnings_effect errs info w :
  exists info' changed,
    record_warnings errs (Some info) w = Some ((Some info', changed), w) /\
    let eff := if changed then info' else info in
    info_State eff = info_State info /\ info_Error eff = info_Error info /\
    info_AdminJobType eff = info_AdminJobType info.
Proof.
  unfold record_warnings. do 2 eexists. split; [ reflexivity | ].
  destruct (fold_set_info_Warning errs info) as (A & C & D & _).
  destruct (0 <? List.length errs)%nat; simpl; auto.
Qed.

Lemma runInfo_cons_Some f fs info w info' changed w1 :
  f (Some info) w = Some ((Some info', changed), w1) ->
  runInfo (f :: fs) (Some info) w =
  runInfo fs (Some (if changed then info' else info)) w1.
Proof. simpl. intros ->. simpl. now destruct changed. Qed.

(** The info closures of a scan that records [e] and patches the state to
    [s], followed or not by the closure of the warnings. *)
Lemma runInfo_record_patch e s a u info w :
  exists info' w',
    runInfo [record_error e; patchState_info s a u] (Some info) w
      = Some (Some info', w') /\
    info_State info' = s /\ info_Error info' = Some e /\
    forall ws, exists info'',
      runInfo [record_error e; patchState_info s a u; record_warnings ws]
              (Some info) w = Some (Some info'', w') /\
      info_State info'' = s /\ info_Error info'' = Some e.
Proof.
  destruct (patchState_info_effect s a u (set_info_Error info (Some e)) w)
    as (info1 & ch & w' & E & S1 & A1 & Er1 & _).
  exists (if ch then info1 else set_info_Error info (Some e)), w'.
  split; [ | split; [ exact S1 | split; [ exact Er1 | ] ] ].
  - rewrite (@runInfo_cons_Some (record_error e) _ info w
               (set_info_Error info (Some e)) true w eq_refl).
    rewrite (@runInfo_cons_Some _ _ _ _ _ _ _ E). reflexivity.
  - intros ws.
    destruct (record_warnings_effect ws
                (if ch then info1 else set_info_Error info (Some e)) w')
      as (info2 & ch2 & E2 & S2 & Er2 & _).
    exists (if ch2 then info2 else if ch then info1 else set_info_Error info (Some e)).
    split; [ | split; [ now rewrite S2 | now rewrite Er2 ] ].
    rewrite (@runInfo_cons_Some (record_error e) _ info w
               (set_info_Error info (Some e)) true w eq_refl).
    rewrite (@runInfo_cons_Some _ _ _ _ _ _ _ E).
    rewrite (@runInfo_cons_Some _ _ _ _ _ _ _ E2). reflexivity.
Qed.

(** C1.  When the batch handed to the error handler holds a fast-fail
    error, the handler, whatever the prior state of the feed, sets
    should-run to false and queues exactly the closure that records the
    first fast-fail error of the batch and the two closures of the patch to
    Failed; applied to an existing info they leave it in state Failed with
    that error in [info.Error].  A tick that hands such a batch to the
    handler ends with should-run false and its only info closures are
    those two and the closure of the warnings: no other error of the batch
    is written, and the persisted info is Failed with the fast-fail error. *)
Theorem fast_fail_short_circuit :
  forall (B : Type) (BO : ExponentialBackOff B) (EC : ErrorClassifier)
         (clk : TickClock) (errs : list RunningError) (x : RunningError),
    In x errs ->
    IsChangefeedFastFailErrorCode (err_Code x) = true ->
    exists e,
      In e errs /\ IsChangefeedFastFailErrorCode (err_Code e) = true /\
      (forall (m : feedStateManager B) st info w,
          rs_Info st = Some info ->
          let new := [InfoPatch (record_error e);
                      StatusPatch (patchState_status AdminStop);
                      InfoPatch (patchState_info StateFailed AdminStop true)] in
          exists m',
            handleError clk errs (set_state m (Some st)) = Some m' /\
            ShouldRunning m' = false /\
            state m' = Some (enqueue_all st new) /\
            exists flags st' w' info',
              applyPatches new st w = Some ((flags, st'), w') /\
              rs_Info st' = Some info' /\
              info_State info' = StateFailed /\ info_Error info' = Some e) /\
      (forall (m : feedStateManager B) st info w,
          adminJobQueue m = [] ->
          rs_pendingPatches st = [] ->
          rs_Info st = Some info ->
          reaches_handlers info = true ->
          reportedErrors (rs_TaskPositions st) = errs ->
          exists m' st',
            Tick clk st m = Some (false, m') /\
            ShouldRunning m' = false /\
            state m' = Some st' /\
            infoClosures (rs_pendingPatches st') =
              [record_error e; patchState_info StateFailed AdminStop true;
               record_warnings (reportedWarnings (rs_TaskPositions st))] /\
            exists flags st'' w' info',
              persist st' w = Some ((flags, st''), w') /\
              rs_Info st'' = Some info' /\
              info_State info' = StateFailed /\ info_Error info' = Some e).
Proof.
  intros B BO EC clk errs x Hin Hx.
  destruct (find_exists isFastFail errs x Hin Hx) as [e F].
  exists e. destruct (find_some _ _ F) as [He1 He2].
  split; [ exact He1 | split; [ exact He2 | split ] ].
  - intros m st info w I new.
    eexists. split; [ apply handleError_fast_fail; exact F | ].
    split; [ reflexivity | split; [ reflexivity | ] ].
    destruct (runInfo_record_patch e StateFailed AdminStop true info w)
      as (info' & w' & R & S & Er & _).
    destruct (@applyPatches_info new) with (st := st) (w := w)
      (v' := Some info') (w' := w') as (flags & st' & A & I').
    + repeat constructor. apply quiet_patchState_status.
    + rewrite I. exact R.
    + exists flags, st', w', info'. auto.
  - intros m st info w Q P I R <-.
    eexists. eexists. split; [ apply (Tick_fast_fail clk st m Q I R F) | ].
    split; [ reflexivity | split; [ reflexivity | ] ].
    destruct (errorPatches_quiet (rs_TaskPositions st)) as [Q1 I1].
    destruct (warningPatches_quiet (rs_TaskPositions st)) as [Q2 I2].
    destruct (cleanUpPatches_quiet (rs_TaskPositions st)) as [Q3 I3].
    assert (IC : infoClosures
              (errorPatches (rs_TaskPositions st) ++
               [InfoPatch (record_error e);
                StatusPatch (patchState_status AdminStop);
                InfoPatch (patchState_info StateFailed AdminStop true)] ++
               warningPatches (rs_TaskPositions st) ++
               [InfoPatch (record_warnings (reportedWarnings (rs_TaskPositions st)))] ++
               cleanUpPatches (rs_TaskPositions st))
            = [record_error e; patchState_info StateFailed AdminStop true;
               record_warnings (reportedWarnings (rs_TaskPositions st))]).
    { rewrite !infoClosures_app, I1, I2, I3. reflexivity. }
    unfold persist, enqueue_all.
    cbn [rs_pendingPatches set_rs_pendingPatches]. rewrite P, app_nil_l.
    split; [ exact IC | ].
    destruct (runInfo_record_patch e StateFailed AdminStop true info w)
      as (info1 & w' & _ & _ & _ & RW).
    destruct (RW (reportedWarnings (rs_TaskPositions st))) as (info' & Rw & S & Er).
    match goal with
    | |- exists _ _ _ _, applyPatches ?ps ?s0 w = _ /\ _ =>
        destruct (@applyPatches_info ps) with (st := s0) (w := w)
          (v' := Some info') (w' := w') as (flags & st' & A & I')
    end.
    + apply Forall_app. split; [ exact Q1 | ].
      apply Forall_app. split.
      { repeat constructor. apply quiet_patchState_status. }
      apply Forall_app. split; [ exact Q2 | ].
      apply Forall_app. split; [ repeat constructor | exact Q3 ].
    + rewrite IC. cbn [rs_Info set_rs_pendingPatches]. rewrite I. exact Rw.
    + exists flags, st', w', info'. auto.
Qed.

Lemma fast_fail_short_circuit_witness :
  let st := sampleState (sampleInfo StateNormal AdminNone None) AdminNone
              samplePositions in
  exists m',
    Tick (clockAt 5) st sampleManager = Some (false, m') /\
    ShouldRunning m' = false.
Proof.
  intros st.
  destruct (@fast_fail_short_circuit SimpleBackOff _ _ (clockAt 5)
              (reportedErrors samplePositions) errGCTTL)
    as (e & _ & _ & _ & T).
  - right. left. reflexivity.
  - reflexivity.
  - destruct (T sampleManager st (sampleInfo StateNormal AdminNone None) sampleWorld)
      as (m' & st' & E & R & _); try reflexivity.
    exists m'. split; assumption.
Defined.

(** ** C2: the restart gate *)

Lemma Time_eqb_eq a b : Time_eqb a b = true <-> a = b.
Proof.
  destruct a as [ua ma], b as [ub mb]. unfold Time_eqb. simpl. split.
  - intros E. apply andb_prop in E. destruct E as [E1 E2].
    apply Z.eqb_eq in E1. subst ub.
    destruct ma as [x|], mb as [y|]; try discriminate; [ | reflexivity ].
    apply Z.eqb_eq in E2. now subst.
  - intros E. injection E as <- <-. rewrite Z.eqb_refl.
    destruct ma; [ apply Z.eqb_refl | reflexivity ].
Qed.

Section Gate.
Context {B : Type} `{ExponentialBackOff B} `{ErrorClassifier}.
Implicit Types m : feedStateManager B.

Lemma restartGate_idle clk m st :
  Time_eqb (lastErrorTime m) time_Unix_0_0 = true ->
  restartGate clk (set_state m (Some st)) = Some (set_state m (Some st)).
Proof.
  intros S. unfold restartGate. cbn [lastErrorTime set_state]. now rewrite S.
Qed.

Lemma restartGate_wait clk m st :
  Time_eqb (lastErrorTime m) time_Unix_0_0 = false ->
  time_Since (now_gate clk) (lastErrorTime m) < backoffInterval m ->
  restartGate clk (set_state m (Some st)) =
  Some (set_state (set_shouldBeRunning m false)
          (Some (enqueue_all st (statePatches StateError AdminStop true)))).
Proof.
  intros S L. unfold restartGate. cbn [lastErrorTime backoffInterval set_state].
  rewrite S. apply Z.ltb_lt in L. rewrite L.
  change (set_shouldBeRunning (set_state m (Some st)) false)
    with (set_state (set_shouldBeRunning m false) (Some st)).
  now rewrite patchState_eq with (a := AdminStop) (u := true).
Qed.

Lemma restartGate_advance clk m st :
  Time_eqb (lastErrorTime m) time_Unix_0_0 = false ->
  backoffInterval m <= time_Since (now_gate clk) (lastErrorTime m) ->
  restartGate clk (set_state m (Some st)) =
  let m1 := set_lastErrorTime
              (set_backoff m (fst (NextBackOff (errBackoff m)))
                             (snd (NextBackOff (errBackoff m))))
              time_Unix_0_0 in
  if fst (NextBackOff (errBackoff m)) =? Stop
  then Some (set_state (set_shouldBeRunning m1 false)
               (Some (enqueue_all st (statePatches StateFailed AdminStop true))))
  else Some (set_state m1 (Some st)).
Proof.
  intros S L. unfold restartGate.
  cbn [lastErrorTime backoffInterval errBackoff set_state].
  rewrite S. apply Z.ltb_ge in L. rewrite L.
  destruct (NextBackOff (errBackoff m)) as [d b].
  cbn [fst snd backoffInterval set_backoff set_lastErrorTime].
  destruct (d =? Stop) eqn:Ed; [ | reflexivity ].
  change (set_shouldBeRunning
            (set_lastErrorTime (set_backoff (set_state m (Some st)) d b)
               time_Unix_0_0) false)
    with (set_state (set_shouldBeRunning
            (set_lastErrorTime (set_backoff m d b) time_Unix_0_0) false) (Some st)).
  now rewrite patchState_eq with (a := AdminStop) (u := true).
Qed.

(** Lines 520-530 on a manager bound to a state whose info exists. *)
Lemma backoffBookkeeping_eq clk errs m st info :
  rs_Info st = Some info ->
  backoffBookkeeping clk errs (set_state m (Some st)) =
  Some (set_state
          (shiftStateWindow (info_State info)
             (if (0 <? List.length errs)%nat
              then if isChangefeedStable m
                   then resetErrBackoff
                          (set_lastErrorTime m (time_Now (now_error clk)))
                   else set_lastErrorTime m (time_Now (now_error clk))
              else if FeedState_eqb (info_State info) StateNormal
                   then set_lastErrorTime m time_Unix_0_0
                   else m))
          (Some st)).
Proof.
  intros I. unfold backoffBookkeeping. cbn [state set_state bind]. rewrite I.
  cbn [bind]. f_equal.
  destruct (0 <? List.length errs)%nat.
  - autorewrite with bound.
    change (isChangefeedStable (set_lastErrorTime m (time_Now (now_error clk))))
      with (isChangefeedStable m).
    destruct (isChangefeedStable m); autorewrite with bound; reflexivity.
  - destruct (FeedState_eqb (info_State info) StateNormal);
      autorewrite with bound; reflexivity.
Qed.

(** The error handler on a batch without fast-fail or unretryable error,
    the feed not being Stopped: the batch is recorded, then come the
    bookkeeping and the restart gate. *)
Lemma handleError_retryable clk errs m st info :
  rs_Info st = Some info ->
  info_State info <> StateStopped ->
  find isFastFail errs = None ->
  find IsChangefeedUnRetryableError errs = None ->
  handleError clk errs (set_state m (Some st)) =
  (m1 <- backoffBookkeeping clk errs
           (set_state m (Some (enqueue_all st [InfoPatch (record_errors errs)]))) ;;
   restartGate clk m1).
Proof.
  intros I NS F U. unfold handleError.
  unfold isFastFail in F. rewrite F. cbn [state set_state bind]. rewrite I.
  destruct (FeedState_eqb (info_State info) StateStopped) eqn:E.
  { apply FeedState_eqb_eq in E. contradiction. }
  rewrite U. reflexivity.
Qed.
End Gate.

(** C2.  The restart gate of the error handler, on a manager bound to the
    state [st].  With [lastErrorTime] at the sentinel the gate is not
    entered.  Otherwise, while the time since [lastErrorTime] is below the
    backoff interval, should-run becomes false and the patch to Error is
    queued; else the interval becomes the next value of the backoff and
    [lastErrorTime] is cleared, and when that value is the stop sentinel
    should-run becomes false and the patch to Failed is queued, else
    should-run keeps its value (true since the start of the tick) and
    nothing is queued. *)
Theorem restart_gate :
  forall (B : Type) (BO : ExponentialBackOff B) (EC : ErrorClassifier)
         (clk : TickClock) (m : feedStateManager B) (st : ChangefeedReactorState),
    (Time_eqb (lastErrorTime m) time_Unix_0_0 = true ->
     restartGate clk (set_state m (Some st)) = Some (set_state m (Some st))) /\
    (Time_eqb (lastErrorTime m) time_Unix_0_0 = false ->
     time_Since (now_gate clk) (lastErrorTime m) < backoffInterval m ->
     exists m',
       restartGate clk (set_state m (Some st)) = Some m' /\
       ShouldRunning m' = false /\
       state m' = Some (enqueue_all st (statePatches StateError AdminStop true)) /\
       backoffInterval m' = backoffInterval m /\
       errBackoff m' = errBackoff m /\
       lastErrorTime m' = lastErrorTime m) /\
    (Time_eqb (lastErrorTime m) time_Unix_0_0 = false ->
     backoffInterval m <= time_Since (now_gate clk) (lastErrorTime m) ->
     exists m',
       restartGate clk (set_state m (Some st)) = Some m' /\
       backoffInterval m' = fst (NextBackOff (errBackoff m)) /\
       errBackoff m' = snd (NextBackOff (errBackoff m)) /\
       lastErrorTime m' = time_Unix_0_0 /\
       if fst (NextBackOff (errBackoff m)) =? Stop
       then ShouldRunning m' = false /\
            state m' = Some (enqueue_all st (statePatches StateFailed AdminStop true))
       else ShouldRunning m' = ShouldRunning m /\ state m' = Some st) /\
    (forall errs info,
        rs_Info st = Some info ->
        info_State info <> StateStopped ->
        find isFastFail errs = None ->
        find IsChangefeedUnRetryableError errs = None ->
        handleError clk errs (set_state m (Some st)) =
        (m1 <- backoffBookkeeping clk errs
                 (set_state m (Some (enqueue_all st [InfoPatch (record_errors errs)]))) ;;
         restartGate clk m1)).
Proof.
  intros B BO EC clk m st. split; [ | split; [ | split ] ].
  - apply restartGate_idle.
  - intros S L. rewrite (restartGate_wait clk m st S L).
    eexists. split; [ reflexivity | ]. repeat split.
  - intros S L. rewrite (restartGate_advance clk m st S L). cbv zeta.
    destruct (fst (NextBackOff (errBackoff m)) =? Stop);
      (eexists; split; [ reflexivity | ]); repeat split.
  - intros errs info. apply handleError_retryable.
Qed.

Lemma restart_gate_witness :
  let m := set_lastErrorTime sampleManager (time_Now (now_error (clockAt 0))) in
  let st := sampleState (sampleInfo StateError AdminStop (Some errPD)) AdminStop [] in
  exists m',
    restartGate (clockAt 5) (set_state m (Some st)) = Some m' /\
    ShouldRunning m' = false /\
    state m' = Some (enqueue_all st (statePatches StateError AdminStop true)).
Proof.
  intros m st.
  destruct (proj1 (proj2 (@restart_gate SimpleBackOff _ _ (clockAt 5) m st)))
    as (m' & E & R & P & _).
  - reflexivity.
  - vm_compute. reflexivity.
  - exists m'. repeat split; assumption.
Defined.

(** ** C3: Resume *)

Section Resume.
Context {B : Type} `{ExponentialBackOff B} `{ErrorClassifier}.
Implicit Types m : feedStateManager B.

(** A tick that finds a Resume job for this changefeed, in a state from
    which Resume is permitted. *)
Lemma Tick_resume clk st m job rest info :
  adminJobQueue m = job :: rest ->
  ChangeFeedID_eqb (job_CfID job) (rs_ID st) = true ->
  job_Type job = AdminResume ->
  rs_Info st = Some info ->
  In (info_State info) [StateFailed; StateError; StateStopped; StateFinished] ->
  Tick clk st m =
  Some (true,
        set_state
          (set_lastErrorTime
             (resetErrBackoff (set_shouldBeRunning (set_adminJobQueue m rest) true))
             time_Unix_0_0)
          (Some (enqueue_all st
             (statePatches StateNormal AdminNone false ++
              [InfoPatch (resume_info job); StatusPatch (resume_status job)] ++
              statePatches StateNormal AdminNone false)))).
Proof.
  intros Q C T I S.
  assert (R : forall X : feedStateManager B,
    (m1 <- patchState StateNormal (set_state X (Some st)) ;;
     m2 <- PatchInfo (resume_info job) m1 ;;
     m3 <- PatchStatus (resume_status job) m2 ;;
     Some (true, m3))
    = Some (true, set_state X (Some (enqueue_all st
             (statePatches StateNormal AdminNone false ++
              [InfoPatch (resume_info job); StatusPatch (resume_status job)]))))).
  { intros X. rewrite patchState_eq with (a := AdminNone) (u := false); [ | reflexivity ].
    cbn [bind]. unfold PatchInfo, PatchStatus. cbn [bind state set_state].
    rewrite !enqueue_enqueue_all, !enqueue_all_app. reflexivity. }
  unfold Tick, Tick_body, handleAdminJob, popAdminJob.
  change (adminJobQueue (set_shouldBeRunning (set_state m (Some st)) true))
    with (adminJobQueue m).
  rewrite Q. autorewrite with bound.
  cbn [bind]. rewrite C. cbn [negb]. rewrite T, I. cbn [bind].
  simpl in S. destruct S as [S|[S|[S|[S|[]]]]]; rewrite <- S;
    autorewrite with bound; cbn [set_shouldBeRunning]; rewrite R; cbn [bind];
    (rewrite Tick_deferred_run;
     [ cbn [bind]; rewrite enqueue_all_app, <- app_assoc; reflexivity
     | cbn [shouldBeRunning set_lastErrorTime]; unfold resetErrBackoff;
       destruct (NextBackOff _); reflexivity ]).
Qed.
End Resume.

(** C3.  A tick that handles a Resume job from Failed, Error, Stopped or
    Finished returns true with should-run true, [lastErrorTime] at the
    sentinel, the backoff object reset and the interval set to the first
    delay it hands out after the reset.  Once the queued patches are
    applied to the existing info and status, [info.Error] is nil and the
    state is Normal; when the overwrite-checkpoint timestamp of the job is
    positive, [info.StartTs] and the resolved, checkpoint and
    min-table-barrier timestamps of the status all equal it. *)
Theorem resume_hygiene :
  forall (B : Type) (BO : ExponentialBackOff B) (EC : ErrorClassifier)
         (clk : TickClock) (st : ChangefeedReactorState) (m : feedStateManager B)
         (job : AdminJob) (rest : list AdminJob)
         (info : ChangeFeedInfo) (status : ChangeFeedStatus) (w : World),
    adminJobQueue m = job :: rest ->
    ChangeFeedID_eqb (job_CfID job) (rs_ID st) = true ->
    job_Type job = AdminResume ->
    rs_Info st = Some info ->
    rs_Status st = Some status ->
    rs_pendingPatches st = [] ->
    In (info_State info) [StateFailed; StateError; StateStopped; StateFinished] ->
    exists m' st',
      Tick clk st m = Some (true, m') /\
      state m' = Some st' /\
      ShouldRunning m' = true /\
      lastErrorTime m' = time_Unix_0_0 /\
      (backoffInterval m', errBackoff m') = NextBackOff (Reset (errBackoff m)) /\
      exists flags st'' info' status',
        persist st' w = Some ((flags, st''), w) /\
        rs_Info st'' = Some info' /\
        rs_Status st'' = Some status' /\
        info_Error info' = None /\
        info_State info' = StateNormal /\
        info_AdminJobType info' = AdminNone /\
        (0 < job_OverwriteCheckpointTs job ->
         info_StartTs info' = job_OverwriteCheckpointTs job /\
         status_ResolvedTs status' = job_OverwriteCheckpointTs job /\
         status_CheckpointTs status' = job_OverwriteCheckpointTs job /\
         status_MinTableBarrierTs status' = job_OverwriteCheckpointTs job).
Proof.
  intros B BO EC clk st m job rest info status w Q C T I St P S.
  eexists. eexists. split; [ apply (Tick_resume clk st m Q C T I S) | ].
  split; [ reflexivity | ].
  split.
  { unfold ShouldRunning. cbn [shouldBeRunning set_state set_lastErrorTime].
    unfold resetErrBackoff. destruct (NextBackOff _). reflexivity. }
  split; [ reflexivity | ].
  split.
  { cbn [backoffInterval errBackoff set_state set_lastErrorTime].
    unfold resetErrBackoff.
    cbn [errBackoff set_shouldBeRunning set_adminJobQueue].
    destruct (NextBackOff (Reset (errBackoff m))). reflexivity. }
  unfold persist, enqueue_all, statePatches.
  cbn [rs_pendingPatches set_rs_pendingPatches]. rewrite P, app_nil_l.
  destruct st as [id oi os tps pp]. simpl in I, St, P. subst oi os pp.
  destruct info as [s a e wn ep sts]. destruct status as [r c mb sa].
  cbn [info_State] in S.
  unfold applyPatches, applyPatch, patchState_status, patchState_info,
    resume_info, resume_status.
  cbn [app rs_Info rs_Status set_rs_pendingPatches set_rs_Info set_rs_Status
       status_AdminJobType info_State info_AdminJobType info_Error
       set_info_State set_info_AdminJobType set_status_AdminJobType bind].
  destruct (0 <? job_OverwriteCheckpointTs job) eqn:Ets.
  - destruct S as [<-|[<-|[<-|[<-|[]]]]]; destruct a, sa, e; cbn;
      (do 4 eexists; split; [ reflexivity | ]);
      cbn; repeat split; reflexivity.
  - assert (N : ~ 0 < job_OverwriteCheckpointTs job) by (apply Z.ltb_ge in Ets; lia).
    destruct S as [<-|[<-|[<-|[<-|[]]]]]; destruct a, sa, e; cbn;
      (do 4 eexists; split; [ reflexivity | ]);
      cbn; repeat split; try reflexivity; intros; contradiction.
Qed.

Lemma resume_hygiene_witness :
  let job := {| job_CfID := sampleID; job_Type := AdminResume;
                job_OverwriteCheckpointTs := 42 |} in
  let st := sampleState (sampleInfo StateFailed AdminStop (Some errPD)) AdminStop [] in
  let m := set_adminJobQueue sampleManager [job] in
  exists m',
    Tick (clockAt 5) st m = Some (true, m') /\
    lastErrorTime m' = time_Unix_0_0 /\
    backoffInterval m' = defaultBackoffInitInterval.
Proof.
  intros job st m.
  destruct (@resume_hygiene SimpleBackOff _ _ (clockAt 5) st m job []
              (sampleInfo StateFailed AdminStop (Some errPD))
              (sampleStatus AdminStop) sampleWorld)
    as (m' & st' & E & _ & _ & L & Bk & _); try reflexivity.
  - simpl. auto.
  - exists m'. split; [ exact E | split; [ exact L | ] ].
    apply (f_equal fst) in Bk. simpl fst in Bk. rewrite Bk.
    vm_compute. reflexivity.
Defined.

(** ** C6: unretryable errors *)

Lemma applyPatch_pending p st w c st' w' :
  applyPatch p st w = Some ((c, st'), w') ->
  rs_pendingPatches st' = rs_pendingPatches st /\ rs_ID st' = rs_ID st.
Proof.
  unfold applyPatch. intros E.
  destruct p as [f|f|k f]; inv_bind E as [[v ch] w1] E1; injection E as <- <- <-;
    destruct ch; auto.
Qed.

Lemma applyPatches_pending ps st w cs st' w' :
  applyPatches ps st w = Some ((cs, st'), w') ->
  rs_pendingPatches st' = rs_pendingPatches st /\ rs_ID st' = rs_ID st.
Proof.
  revert st w cs st' w'. induction ps as [|p ps IH]; intros st w cs st' w' E; simpl in E.
  - injection E as <- <- <-. auto.
  - inv_bind E as [[c st1] w1] E1. inv_bind E as [[cs2 st2] w2] E2.
    injection E as <- <- <-.
    apply applyPatch_pending in E1. apply IH in E2. destruct E1, E2. split; congruence.
Qed.

Lemma persist_pending st w cs st' w' :
  persist st w = Some ((cs, st'), w') ->
  rs_pendingPatches st' = [] /\ rs_ID st' = rs_ID st.
Proof. unfold persist. intros E. apply applyPatches_pending in E. exact E. Qed.

Section Unretryable.
Context {B : Type} `{ExponentialBackOff B} `{ErrorClassifier}.
Implicit Types m : feedStateManager B.

Lemma handleError_unretryable clk errs e m st :
  find isFastFail errs = None ->
  match rs_Info st with
  | Some info => FeedState_eqb (info_State info) StateStopped
  | None => false
  end = false ->
  find IsChangefeedUnRetryableError errs = Some e ->
  handleError clk errs (set_state m (Some st)) =
  Some (set_state (set_shouldBeRunning m false)
          (Some (enqueue_all st
             ([InfoPatch (record_error e)] ++ statePatches StateError AdminStop true)))).
Proof.
  unfold handleError, isFastFail. intros -> G U.
  cbn [state set_state bind]. rewrite G, U.
  change (PatchInfo (record_error e) (set_state m (Some st)))
    with (Some (set_state m (Some (enqueue_all st [InfoPatch (record_error e)])))).
  cbn [bind]. autorewrite with bound.
  rewrite patchState_eq with (a := AdminStop) (u := true); [ | reflexivity ].
  now rewrite enqueue_all_app.
Qed.

(** A tick whose error handler stops the feed and queues [new]. *)
Lemma Tick_handler_stops clk st m info X new :
  adminJobQueue m = [] ->
  rs_Info st = Some info ->
  reaches_handlers info = true ->
  handleError clk (reportedErrors (rs_TaskPositions st))
    (set_state (set_shouldBeRunning m true)
       (Some (enqueue_all st (errorPatches (rs_TaskPositions st)))))
  = Some (set_state X
            (Some (enqueue_all (enqueue_all st (errorPatches (rs_TaskPositions st)))
                     new))) ->
  shouldBeRunning X = false ->
  Tick clk st m =
  Some (false,
        set_state X
          (Some (enqueue_all st
             (errorPatches (rs_TaskPositions st) ++ new ++
              warningPatches (rs_TaskPositions st) ++
              [InfoPatch (record_warnings (reportedWarnings (rs_TaskPositions st)))] ++
              cleanUpPatches (rs_TaskPositions st))))).
Proof.
  intros Q I R E S. rewrite (Tick_to_handlers clk st m Q I R).
  rewrite Tick_reports_eq, E. cbn [bind].
  rewrite warnings_tail. cbn [bind].
  rewrite Tick_deferred_stop; [ | exact S ].
  cbn [bind]. rewrite !enqueue_all_app.
  unfold enqueue_all. cbn [rs_TaskPositions rs_pendingPatches set_rs_pendingPatches].
  rewrite <- !app_assoc. reflexivity.
Qed.

(** A tick whose error handler leaves the feed running and queues [new]. *)
Lemma Tick_handler_runs clk st m info X new :
  adminJobQueue m = [] ->
  rs_Info st = Some info ->
  reaches_handlers info = true ->
  handleError clk (reportedErrors (rs_TaskPositions st))
    (set_state (set_shouldBeRunning m true)
       (Some (enqueue_all st (errorPatches (rs_TaskPositions st)))))
  = Some (set_state X
            (Some (enqueue_all (enqueue_all st (errorPatches (rs_TaskPositions st)))
                     new))) ->
  shouldBeRunning X = true ->
  Tick clk st m =
  Some (false,
        set_state X
          (Some (enqueue_all st
             (errorPatches (rs_TaskPositions st) ++ new ++
              warningPatches (rs_TaskPositions st) ++
              [InfoPatch (record_warnings (reportedWarnings (rs_TaskPositions st)))] ++
              statePatches StateNormal AdminNone false)))).
Proof.
  intros Q I R E S. rewrite (Tick_to_handlers clk st m Q I R).
  rewrite Tick_reports_eq, E. cbn [bind].
  rewrite warnings_tail. cbn [bind].
  rewrite Tick_deferred_run; [ | exact S ].
  cbn [bind]. rewrite !enqueue_all_app.
  unfold enqueue_all. cbn [rs_TaskPositions rs_pendingPatches set_rs_pendingPatches].
  rewrite <- !app_assoc. reflexivity.
Qed.

(** A tick that finds the feed in state Error with an unretryable error. *)
Lemma Tick_error_unretryable clk st m info e :
  adminJobQueue m = [] ->
  rs_Info st = Some info ->
  info_State info = StateError ->
  info_Error info = Some e ->
  IsChangefeedUnRetryableError e = true ->
  Tick clk st m =
  Some (false,
        set_state (set_shouldBeRunning m false)
          (Some (enqueue_all st
             (statePatches StateFailed AdminStop true ++
              cleanUpPatches (rs_TaskPositions st))))).
Proof.
  intros Q I S E U. unfold Tick, Tick_body, handleAdminJob, popAdminJob.
  change (adminJobQueue (set_shouldBeRunning (set_state m (Some st)) true))
    with (adminJobQueue m).
  rewrite Q. cbn [bind]. autorewrite with bound. cbn [bind]. rewrite I.
  cbn [bind]. rewrite S, E. cbn [bind]. rewrite U.
  rewrite patchState_eq with (a := AdminStop) (u := true); [ | reflexivity ].
  cbn [bind]. rewrite Tick_deferred_stop; [ | reflexivity ].
  cbn [bind]. rewrite enqueue_all_app. reflexivity.
Qed.
End Unretryable.

Lemma runInfo_patch s a u info w :
  exists info' w',
    runInfo [patchState_info s a u] (Some info) w = Some (Some info', w') /\
    info_State info' = s /\ info_AdminJobType info' = a /\
    info_Error info' = info_Error info.
Proof.
  destruct (patchState_info_effect s a u info w)
    as (info1 & ch & w' & E & S1 & A1 & Er1 & _).
  exists (if ch then info1 else info), w'.
  rewrite (@runInfo_cons_Some _ _ _ _ _ _ _ E). auto.
Qed.

Lemma reaches_handlers_not_stopped `{ErrorClassifier} info :
  reaches_handlers info = true ->
  FeedState_eqb (info_State info) StateStopped = false.
Proof. unfold reaches_handlers. destruct (info_State info); simpl; congruence. Qed.

(** C6.  A tick whose batch holds an unretryable error and no fast-fail
    error (the feed not being Stopped) sets should-run to false and queues
    the closure that records that error and the patch to Error: the
    persisted info is in state Error with the error in [info.Error].  The
    next tick of the same manager on the persisted state sets should-run to
    false and queues the patch to Failed: the persisted info is Failed, the
    error still recorded. *)
Theorem unretryable_then_failed :
  forall (B : Type) (BO : ExponentialBackOff B) (EC : ErrorClassifier)
         (clk clk2 : TickClock) (st : ChangefeedReactorState)
         (m : feedStateManager B) (info : ChangeFeedInfo) (e : RunningError)
         (w : World),
    adminJobQueue m = [] ->
    rs_pendingPatches st = [] ->
    rs_Info st = Some info ->
    reaches_handlers info = true ->
    find isFastFail (reportedErrors (rs_TaskPositions st)) = None ->
    find IsChangefeedUnRetryableError (reportedErrors (rs_TaskPositions st)) = Some e ->
    exists m1 st1 flags1 st1' w1 info1,
      Tick clk st m = Some (false, m1) /\
      ShouldRunning m1 = false /\
      state m1 = Some st1 /\
      persist st1 w = Some ((flags1, st1'), w1) /\
      rs_Info st1' = Some info1 /\
      info_State info1 = StateError /\
      info_Error info1 = Some e /\
      exists m2 st2 flags2 st2' w2 info2,
        Tick clk2 st1' m1 = Some (false, m2) /\
        ShouldRunning m2 = false /\
        state m2 = Some st2 /\
        persist st2 w1 = Some ((flags2, st2'), w2) /\
        rs_Info st2' = Some info2 /\
        info_State info2 = StateFailed /\
        info_Error info2 = Some e.
Proof.
  intros B BO EC clk clk2 st m info e w Q P I R F U.
  pose proof (reaches_handlers_not_stopped info R) as NS.
  assert (T1 : Tick clk st m =
    Some (false,
          set_state (set_shouldBeRunning m false)
            (Some (enqueue_all st
               (errorPatches (rs_TaskPositions st) ++
                ([InfoPatch (record_error e)] ++ statePatches StateError AdminStop true) ++
                warningPatches (rs_TaskPositions st) ++
                [InfoPatch (record_warnings (reportedWarnings (rs_TaskPositions st)))] ++
                cleanUpPatches (rs_TaskPositions st)))))).
  { apply Tick_handler_stops with (info := info) (X := set_shouldBeRunning m false);
      [ exact Q | exact I | exact R | | reflexivity ].
    rewrite handleError_unretryable with (e := e);
      [ reflexivity | exact F | | exact U ].
    cbn [rs_Info enqueue_all set_rs_pendingPatches]. rewrite I. exact NS. }
  destruct (errorPatches_quiet (rs_TaskPositions st)) as [Q1 I1].
  destruct (warningPatches_quiet (rs_TaskPositions st)) as [Q2 I2].
  destruct (cleanUpPatches_quiet (rs_TaskPositions st)) as [Q3 I3].
  destruct (runInfo_record_patch e StateError AdminStop true info w)
    as (info0 & w1 & _ & _ & _ & RW).
  destruct (RW (reportedWarnings (rs_TaskPositions st))) as (info1 & Rw & S1 & Er1).
  set (ps1 := errorPatches (rs_TaskPositions st) ++
              ([InfoPatch (record_error e)] ++ statePatches StateError AdminStop true) ++
              warningPatches (rs_TaskPositions st) ++
              [InfoPatch (record_warnings (reportedWarnings (rs_TaskPositions st)))] ++
              cleanUpPatches (rs_TaskPositions st)) in *.
  assert (IC1 : infoClosures ps1 =
                [record_error e; patchState_info StateError AdminStop true;
                 record_warnings (reportedWarnings (rs_TaskPositions st))]).
  { unfold ps1. rewrite !infoClosures_app, I1, I2, I3. reflexivity. }
  assert (FQ1 : Forall info_or_quiet ps1).
  { unfold ps1. apply Forall_app. split; [ exact Q1 | ].
    apply Forall_app. split.
    { repeat constructor. apply quiet_patchState_status. }
    apply Forall_app. split; [ exact Q2 | ].
    apply Forall_app. split; [ repeat constructor | exact Q3 ]. }
  destruct (@applyPatches_info ps1 FQ1 (set_rs_pendingPatches st []) w
              (Some info1) w1) as (flags1 & st1' & A1 & I1').
  { rewrite IC1. cbn [rs_Info set_rs_pendingPatches]. rewrite I. exact Rw. }
  assert (Pst : persist (enqueue_all st ps1) w = Some ((flags1, st1'), w1)).
  { unfold persist, enqueue_all. cbn [rs_pendingPatches set_rs_pendingPatches].
    rewrite P, app_nil_l. exact A1. }
  destruct (@persist_pending _ _ _ _ _ Pst) as [P1 _].
  destruct (find_some _ _ U) as [_ Ue].
  assert (T2 := @Tick_error_unretryable B _ _ clk2 st1'
                  (set_state (set_shouldBeRunning m false) (Some (enqueue_all st ps1)))
                  info1 e Q I1' S1 Er1 Ue).
  destruct (runInfo_patch StateFailed AdminStop true info1 w1)
    as (info2 & w2 & R2 & S2 & _ & Er2).
  set (ps2 := statePatches StateFailed AdminStop true ++
              cleanUpPatches (rs_TaskPositions st1')) in *.
  destruct (cleanUpPatches_quiet (rs_TaskPositions st1')) as [Q4 I4].
  assert (FQ2 : Forall info_or_quiet ps2).
  { unfold ps2. apply Forall_app. split; [ | exact Q4 ].
    repeat constructor. apply quiet_patchState_status. }
  destruct (@applyPatches_info ps2 FQ2 (set_rs_pendingPatches st1' []) w1
              (Some info2) w2) as (flags2 & st2' & A2 & I2').
  { unfold ps2. rewrite infoClosures_app, I4.
    cbn [rs_Info set_rs_pendingPatches]. rewrite I1'. exact R2. }
  do 6 eexists. split; [ exact T1 | ].
  split; [ reflexivity | ]. split; [ reflexivity | ].
  split; [ exact Pst | ].
  split; [ exact I1' | ]. split; [ exact S1 | ]. split; [ exact Er1 | ].
  do 6 eexists. split; [ exact T2 | ].
  split; [ reflexivity | ]. split; [ reflexivity | ].
  split.
  { unfold persist, enqueue_all. cbn [rs_pendingPatches set_rs_pendingPatches].
    rewrite P1, app_nil_l. exact A2. }
  split; [ exact I2' | ]. split; [ exact S2 | ]. now rewrite Er2.
Qed.

Lemma unretryable_then_failed_witness :
  let st := sampleState (sampleInfo StateNormal AdminNone None) AdminNone
              unretryablePositions in
  exists m1 m2 st1',
    Tick (clockAt 5) st sampleManager = Some (false, m1) /\
    ShouldRunning m1 = false /\
    Tick (clockAt 6) st1' m1 = Some (false, m2) /\
    ShouldRunning m2 = false.
Proof.
  intros st.
  destruct (@unretryable_then_failed SimpleBackOff _ _ (clockAt 5) (clockAt 6) st
              sampleManager (sampleInfo StateNormal AdminNone None) errColumn
              sampleWorld)
    as (m1 & st1 & flags1 & st1' & w1 & info1 & T1 & R1 & _ & _ & _ & _ & _ &
        m2 & st2 & flags2 & st2' & w2 & info2 & T2 & R2 & _); try reflexivity.
  exists m1, m2, st1'. repeat split; assumption.
Defined.

(** ** C8: the stability reset *)

Section Stability.
Context {B : Type} `{ExponentialBackOff B} `{ErrorClassifier}.
Implicit Types m : feedStateManager B.

Lemma resetErrBackoff_fields m :
  backoffInterval (resetErrBackoff m) = resetInterval (errBackoff m) /\
  errBackoff (resetErrBackoff m) = resetBackOff (errBackoff m) /\
  lastErrorTime (resetErrBackoff m) = lastErrorTime m /\
  shouldBeRunning (resetErrBackoff m) = shouldBeRunning m /\
  stateHistory (resetErrBackoff m) = stateHistory m /\
  adminJobQueue (resetErrBackoff m) = adminJobQueue m.
Proof.
  unfold resetErrBackoff, resetInterval, resetBackOff.
  destruct (NextBackOff (Reset (errBackoff m))). repeat split.
Qed.

Lemma shiftStateWindow_fields s m :
  backoffInterval (shiftStateWindow s m) = backoffInterval m /\
  errBackoff (shiftStateWindow s m) = errBackoff m /\
  lastErrorTime (shiftStateWindow s m) = lastErrorTime m /\
  shouldBeRunning (shiftStateWindow s m) = shouldBeRunning m /\
  adminJobQueue (shiftStateWindow s m) = adminJobQueue m.
Proof.
  unfold shiftStateWindow, set_stateHistory.
  cbn [backoffInterval errBackoff lastErrorTime shouldBeRunning adminJobQueue].
  repeat split.
Qed.

Lemma Time_eqb_Now r : Time_eqb (time_Now r) time_Unix_0_0 = false.
Proof. unfold Time_eqb, time_Now, time_Unix_0_0. cbn [unixNano monotonic]. apply andb_false_r. Qed.

Lemma isChangefeedStable_all_normal m :
  Forall (fun s => s = StateNormal) (stateHistory m) -> isChangefeedStable m = true.
Proof.
  intros F. unfold isChangefeedStable. apply forallb_forall. intros s Hs.
  rewrite Forall_forall in F. rewrite (F s Hs). reflexivity.
Qed.

Lemma after_reset_fields clk s m :
  backoffInterval (after_reset clk s m) = resetInterval (errBackoff m) /\
  errBackoff (after_reset clk s m) = resetBackOff (errBackoff m) /\
  lastErrorTime (after_reset clk s m) = time_Now (now_error clk) /\
  shouldBeRunning (after_reset clk s m) = shouldBeRunning m.
Proof.
  unfold after_reset.
  destruct (shiftStateWindow_fields s
              (resetErrBackoff (set_lastErrorTime m (time_Now (now_error clk)))))
    as (A1 & A2 & A3 & A4 & _).
  destruct (resetErrBackoff_fields (set_lastErrorTime m (time_Now (now_error clk))))
    as (B1 & B2 & B3 & B4 & _).
  rewrite A1, A2, A3, A4, B1, B2, B3, B4. repeat split.
Qed.
End Stability.

Section StabilityTick.
Context {B : Type} `{ExponentialBackOff B} `{ErrorClassifier}.
Implicit Types m : feedStateManager B.

Lemma backoffBookkeeping_stable clk errs m st info :
  rs_Info st = Some info ->
  errs <> [] ->
  Forall (fun s => s = StateNormal) (stateHistory m) ->
  backoffBookkeeping clk errs (set_state m (Some st)) =
  Some (set_state (after_reset clk (info_State info) m) (Some st)).
Proof.
  intros I NE F. rewrite (backoffBookkeeping_eq clk errs m st I).
  destruct errs as [|e errs]; [ contradiction | ].
  cbn [List.length Nat.ltb Nat.leb]. rewrite (isChangefeedStable_all_normal m F).
  reflexivity.
Qed.

(** A tick that receives a non-empty batch of retryable errors in a stable
    window and keeps the feed down. *)
Lemma Tick_stable_then_error clk st m info :
  adminJobQueue m = [] ->
  rs_Info st = Some info ->
  reaches_handlers info = true ->
  reportedErrors (rs_TaskPositions st) <> [] ->
  find isFastFail (reportedErrors (rs_TaskPositions st)) = None ->
  find IsChangefeedUnRetryableError (reportedErrors (rs_TaskPositions st)) = None ->
  Forall (fun s => s = StateNormal) (stateHistory m) ->
  time_Since (now_gate clk) (time_Now (now_error clk)) < resetInterval (errBackoff m) ->
  Tick clk st m =
  Some (false,
        set_state
          (set_shouldBeRunning
             (after_reset clk (info_State info) (set_shouldBeRunning m true)) false)
          (Some (enqueue_all st
             (errorPatches (rs_TaskPositions st) ++
              ([InfoPatch (record_errors (reportedErrors (rs_TaskPositions st)))] ++
               statePatches StateError AdminStop true) ++
              warningPatches (rs_TaskPositions st) ++
              [InfoPatch (record_warnings (reportedWarnings (rs_TaskPositions st)))] ++
              cleanUpPatches (rs_TaskPositions st))))).
Proof.
  intros Q I R NE F U W L.
  apply Tick_handler_stops with (info := info); [ exact Q | exact I | exact R | | reflexivity ].
  assert (NS : info_State info <> StateStopped).
  { intros E. apply reaches_handlers_not_stopped in R. rewrite E in R. discriminate. }
  rewrite handleError_retryable with (info := info); [ | exact I | exact NS | exact F | exact U ].
  rewrite enqueue_all_app.
  rewrite backoffBookkeeping_stable with (info := info); [ | exact I | exact NE | exact W ].
  cbn [bind].
  destruct (after_reset_fields clk (info_State info) (set_shouldBeRunning m true))
    as (A1 & A2 & A3 & A4).
  rewrite restartGate_wait.
  - now rewrite !enqueue_all_app, <- !app_assoc.
  - rewrite A3. apply Time_eqb_Now.
  - rewrite A3, A1. exact L.
Qed.
End StabilityTick.

(** C8.  When every entry of the state window is Normal and a tick handles
    a non-empty batch of retryable errors, the bookkeeping of the error
    handler resets the backoff: the interval is the first delay the backoff
    object hands out after its reset.  When the tick then schedules a
    restart (the restart gate, read less than that interval after the
    error, keeps the feed down and patches Error), that interval is the one
    in force at the end of the tick, counted from the time of the error. *)
Theorem stability_reset :
  forall (B : Type) (BO : ExponentialBackOff B) (EC : ErrorClassifier)
         (clk : TickClock) (st : ChangefeedReactorState)
         (m : feedStateManager B) (info : ChangeFeedInfo),
    adminJobQueue m = [] ->
    rs_Info st = Some info ->
    reaches_handlers info = true ->
    reportedErrors (rs_TaskPositions st) <> [] ->
    find isFastFail (reportedErrors (rs_TaskPositions st)) = None ->
    find IsChangefeedUnRetryableError (reportedErrors (rs_TaskPositions st)) = None ->
    Forall (fun s => s = StateNormal) (stateHistory m) ->
    (exists m1,
        backoffBookkeeping clk (reportedErrors (rs_TaskPositions st))
          (set_state m (Some st)) = Some m1 /\
        backoffInterval m1 = resetInterval (errBackoff m) /\
        errBackoff m1 = resetBackOff (errBackoff m) /\
        lastErrorTime m1 = time_Now (now_error clk)) /\
    (time_Since (now_gate clk) (time_Now (now_error clk))
       < resetInterval (errBackoff m) ->
     exists m' st',
       Tick clk st m = Some (false, m') /\
       ShouldRunning m' = false /\
       backoffInterval m' = resetInterval (errBackoff m) /\
       errBackoff m' = resetBackOff (errBackoff m) /\
       lastErrorTime m' = time_Now (now_error clk) /\
       state m' = Some st' /\
       infoClosures (rs_pendingPatches st') =
         infoClosures (rs_pendingPatches st) ++
         [record_errors (reportedErrors (rs_TaskPositions st));
          patchState_info StateError AdminStop true;
          record_warnings (reportedWarnings (rs_TaskPositions st))]).
Proof.
  intros B BO EC clk st m info Q I R NE F U W. split.
  - rewrite backoffBookkeeping_stable with (info := info); [ | exact I | exact NE | exact W ].
    destruct (after_reset_fields clk (info_State info) m) as (A1 & A2 & A3 & _).
    eexists. split; [ reflexivity | ]. cbn [backoffInterval errBackoff lastErrorTime set_state].
    auto.
  - intros L. rewrite (Tick_stable_then_error clk st m Q I R NE F U W L).
    destruct (after_reset_fields clk (info_State info) (set_shouldBeRunning m true))
      as (A1 & A2 & A3 & _).
    do 2 eexists. split; [ reflexivity | ].
    cbn [ShouldRunning shouldBeRunning backoffInterval errBackoff lastErrorTime
         state set_state set_shouldBeRunning].
    split; [ reflexivity | ].
    split; [ exact A1 | ]. split; [ exact A2 | ]. split; [ exact A3 | ].
    split; [ reflexivity | ].
    destruct (errorPatches_quiet (rs_TaskPositions st)) as [_ I1].
    destruct (warningPatches_quiet (rs_TaskPositions st)) as [_ I2].
    destruct (cleanUpPatches_quiet (rs_TaskPositions st)) as [_ I3].
    unfold enqueue_all. cbn [rs_pendingPatches set_rs_pendingPatches].
    rewrite !infoClosures_app, I1, I2, I3. reflexivity.
Qed.

Lemma stability_reset_witness :
  let st := sampleState (sampleInfo StateNormal AdminNone None) AdminNone
              retryablePositions in
  exists m',
    Tick (clockAt 5) st stableManager = Some (false, m') /\
    ShouldRunning m' = false /\
    backoffInterval m' = defaultBackoffInitInterval.
Proof.
  intros st.
  destruct (@stability_reset SimpleBackOff _ _ (clockAt 5) st stableManager
              (sampleInfo StateNormal AdminNone None)) as [_ T];
    try reflexivity.
  - discriminate.
  - apply Forall_forall. intros s Hs. apply repeat_spec in Hs. exact Hs.
  - destruct T as (m' & st' & E & R & Bk & _).
    + vm_compute. reflexivity.
    + exists m'. split; [ exact E | split; [ exact R | ] ].
      rewrite Bk. vm_compute. reflexivity.
Defined.

(** ** C4: admin jobs and the rest of the tick *)

Section AdminTick.
Context {B : Type} `{ExponentialBackOff B} `{ErrorClassifier}.
Implicit Types m : feedStateManager B.

Lemma Tick_reports_false clk m b m' :
  Tick_reports clk m = Some (b, m') -> b = false.
Proof.
  unfold Tick_reports. intros E.
  inv_bind E as [errs m1] E1. inv_bind E as m2 E2.
  inv_bind E as [ws m3] E3. inv_bind E as m4 E4. now injection E as <- _.
Qed.

(** [Tick] answers true only through the admin job handler. *)
Lemma Tick_body_true clk m m' :
  Tick_body clk m = Some (true, m') -> handleAdminJob m = Some (true, m').
Proof.
  unfold Tick_body. intros E. inv_bind E as [jobsPending m1] E1.
  destruct jobsPending; [ now injection E as <- | ].
  exfalso. inv_bind E as st Est. inv_bind E as info Einfo.
  destruct (info_State info); try discriminate;
    try (apply Tick_reports_false in E; discriminate).
  inv_bind E as err Eerr. destruct (IsChangefeedUnRetryableError err).
  - inv_bind E as m2 E2. discriminate.
  - apply Tick_reports_false in E. discriminate.
Qed.

Lemma handleAdminJob_true m st m' :
  handleAdminJob (set_state m (Some st)) = Some (true, m') ->
  exists job rest, adminJobQueue m = job :: rest /\ handled job st = true.
Proof.
  unfold handleAdminJob, popAdminJob, handled.
  change (adminJobQueue (set_state m (Some st))) with (adminJobQueue m).
  destruct (adminJobQueue m) as [|job rest]; [ discriminate | ].
  intros E. exists job, rest. split; [ reflexivity | ].
  cbn [bind state set_state set_adminJobQueue] in E.
  destruct (ChangeFeedID_eqb (job_CfID job) (rs_ID st)); [ | discriminate ].
  cbn [negb andb] in *.
  destruct (job_Type job); [ discriminate | | | | ];
    destruct (rs_Info st) as [info|]; try discriminate;
    cbn [bind] in E; destruct (info_State info); try discriminate; reflexivity.
Qed.

Lemma handleAdminJob_handled m st job rest :
  adminJobQueue m = job :: rest ->
  handled job st = true ->
  handleAdminJob (set_state m (Some st)) =
  Some (true,
        set_state (adminEffect job (set_adminJobQueue m rest))
          (Some (enqueue_all st (adminPatches job)))).
Proof.
  unfold handleAdminJob, popAdminJob, handled, adminEffect, adminPatches.
  change (adminJobQueue (set_state m (Some st))) with (adminJobQueue m).
  intros -> Hd. apply andb_prop in Hd. destruct Hd as [C P].
  autorewrite with bound. cbn [bind]. rewrite C. cbn [negb].
  destruct (rs_Info st) as [info|]; [ | discriminate ].
  destruct (job_Type job); [ discriminate | | | | ];
    cbn [bind]; destruct (info_State info); try discriminate P;
    autorewrite with bound;
    try (rewrite patchState_eq with (a := AdminStop) (u := true); [ reflexivity | reflexivity ]);
    try (rewrite patchState_eq with (a := AdminFinish) (u := true); [ reflexivity | reflexivity ]);
    try (unfold PatchInfo, PatchStatus; cbn [bind state set_state];
         rewrite !enqueue_enqueue_all, !enqueue_all_app; reflexivity);
    (rewrite patchState_eq with (a := AdminNone) (u := false); [ | reflexivity ];
     cbn [bind]; unfold PatchInfo, PatchStatus; cbn [bind state set_state];
     rewrite !enqueue_enqueue_all, !enqueue_all_app; reflexivity).
Qed.
End AdminTick.

Section AdminExclusive.
Context {B : Type} `{ExponentialBackOff B} `{ErrorClassifier}.
Implicit Types m : feedStateManager B.

Lemma Tick_deferred_eq m st :
  Tick_deferred (set_state m (Some st)) =
  Some (set_state m (Some (enqueue_all st (exitPatches (shouldBeRunning m) st)))).
Proof.
  unfold exitPatches. destruct (shouldBeRunning m) eqn:R.
  - now apply Tick_deferred_run.
  - now apply Tick_deferred_stop.
Qed.

(** A tick that handles an admin job: the handler, then the deferred exit,
    and nothing else. *)
Lemma Tick_handled clk st m job rest :
  adminJobQueue m = job :: rest ->
  handled job st = true ->
  Tick clk st m =
  Some (true,
        set_state (adminEffect job (set_adminJobQueue (set_shouldBeRunning m true) rest))
          (Some (enqueue_all st
             (adminPatches job ++
              exitPatches
                (shouldBeRunning
                   (adminEffect job (set_adminJobQueue (set_shouldBeRunning m true) rest)))
                st)))).
Proof.
  intros Q Hd. unfold Tick, Tick_body. autorewrite with bound.
  rewrite handleAdminJob_handled with (job := job) (rest := rest); [ | exact Q | exact Hd ].
  cbn [bind]. rewrite Tick_deferred_eq. cbn [bind].
  rewrite enqueue_all_app. reflexivity.
Qed.

Lemma adminEffect_fields job m :
  adminJobQueue (adminEffect job m) = adminJobQueue m /\
  stateHistory (adminEffect job m) = stateHistory m /\
  shouldBeRunning (adminEffect job m) =
    match job_Type job with
    | AdminResume => true
    | AdminNone => shouldBeRunning m
    | _ => false
    end.
Proof.
  unfold adminEffect. destruct (job_Type job); cbn; try (repeat split; reflexivity).
  destruct (resetErrBackoff_fields (set_shouldBeRunning m true)) as (_ & _ & _ & A & C & D).
  rewrite A, C, D. repeat split.
Qed.
End AdminExclusive.

(** C4, as the code has it.  [Tick] returns true exactly when the job at
    the head of the queue is addressed to this changefeed and permitted in
    the current state, that is when [handleAdminJob] handles it.  The tick
    then consists of that handler and of the deferred exit: the job is
    removed from the queue, the state window is not shifted, and the
    patches queued are those of the job followed by those of the exit,
    none from the error or warning handlers. *)
Theorem admin_job_exclusive :
  forall (B : Type) (BO : ExponentialBackOff B) (EC : ErrorClassifier)
         (clk : TickClock) (st : ChangefeedReactorState) (m : feedStateManager B),
    (forall b m',
        Tick clk st m = Some (b, m') ->
        (b = true <->
         exists job rest, adminJobQueue m = job :: rest /\ handled job st = true)) /\
    (forall job rest,
        adminJobQueue m = job :: rest ->
        handled job st = true ->
        exists m',
          Tick clk st m = Some (true, m') /\
          adminJobQueue m' = rest /\
          stateHistory m' = stateHistory m /\
          state m' =
            Some (enqueue_all st
                    (adminPatches job ++ exitPatches (ShouldRunning m') st))).
Proof.
  intros B BO EC clk st m. split.
  - intros b m' E. split.
    + intros ->. unfold Tick in E.
      inv_bind E as [b1 m1] E1. inv_bind E as m2 E2. injection E as -> _.
      apply Tick_body_true in E1.
      change (set_shouldBeRunning (set_state m (Some st)) true)
        with (set_state (set_shouldBeRunning m true) (Some st)) in E1.
      apply handleAdminJob_true in E1. exact E1.
    + intros (job & rest & Q & Hd).
      rewrite (Tick_handled clk st m Q Hd) in E. now injection E as <- _.
  - intros job rest Q Hd. eexists. split; [ apply (Tick_handled clk st m Q Hd) | ].
    destruct (adminEffect_fields job (set_adminJobQueue (set_shouldBeRunning m true) rest))
      as (A1 & A2 & _).
    unfold ShouldRunning. autorewrite with bound.
    split; [ exact A1 | ]. split; [ exact A2 | reflexivity ].
Qed.

Lemma admin_job_exclusive_witness :
  let st := sampleState (sampleInfo StateStopped AdminStop None) AdminStop [] in
  let m := set_adminJobQueue sampleManager [sampleResume] in
  exists m',
    Tick (clockAt 5) st m = Some (true, m') /\
    adminJobQueue m' = [] /\
    stateHistory m' = stateHistory m.
Proof.
  intros st m.
  destruct (proj2 (@admin_job_exclusive SimpleBackOff _ _ (clockAt 5) st m)
              sampleResume []) as (m' & E & Q & W & _); try reflexivity.
  exists m'. repeat split; assumption.
Defined.

(** C4 as stated fails: a Resume job is taken from the queue while the
    feed is Normal; it is not permitted there and is dropped, [Tick]
    returns false, and the error handler runs in the same tick: the
    fast-fail error reported by a processor is recorded and the feed is
    patched to Failed. *)
Lemma admin_job_consumed_counterexample :
  let st := sampleState (sampleInfo StateNormal AdminNone None) AdminNone
              samplePositions in
  let m := set_adminJobQueue sampleManager [sampleResume] in
  adminJobQueue m = [sampleResume] /\
  option_map (fun o => (obs_pending o, obs_queue o, obs_running o,
                        option_map info_State (obs_info o),
                        option_map info_Error (obs_info o)))
             (observe (Tick (clockAt 5) st m) sampleWorld)
  = Some (false, [], false, Some StateFailed, Some (Some errGCTTL)).
Proof. split; [ reflexivity | vm_compute; reflexivity ]. Qed.

(** ** C7: two successive ticks *)

Lemma set_rs_pendingPatches_same st :
  rs_pendingPatches st = [] -> set_rs_pendingPatches st [] = st.
Proof. destruct st. simpl. now intros ->. Qed.

Lemma applyPatch_cleanUp c p tps st w :
  rs_TaskPositions st = (c, p) :: tps ->
  applyPatch (TaskPositionPatch c cleanUp_position) st w =
  Some ((true, set_rs_TaskPositions st tps), w).
Proof.
  intros E. unfold applyPatch, cleanUp_position. rewrite E.
  cbn [tp_lookup tp_store]. rewrite String.eqb_refl. reflexivity.
Qed.

Lemma applyPatches_cleanUp tps st w :
  rs_TaskPositions st = tps ->
  applyPatches (cleanUpPatches tps) st w =
  Some ((map (fun _ => true) tps, set_rs_TaskPositions st []), w).
Proof.
  revert st. induction tps as [|[c p] tps IH]; intros st E.
  - simpl. destruct st. simpl in E. now subst.
  - change (cleanUpPatches ((c, p) :: tps))
      with (TaskPositionPatch c cleanUp_position :: cleanUpPatches tps).
    cbn [applyPatches map].
    rewrite applyPatch_cleanUp with (p := p) (tps := tps); [ | exact E ].
    cbn [bind]. rewrite (IH (set_rs_TaskPositions st tps) eq_refl). reflexivity.
Qed.

Lemma persist_enqueue_all st ps w :
  rs_pendingPatches st = [] ->
  persist (enqueue_all st ps) w = applyPatches ps (set_rs_pendingPatches st []) w.
Proof.
  intros P. unfold persist, enqueue_all.
  cbn [rs_pendingPatches set_rs_pendingPatches]. rewrite P. reflexivity.
Qed.

Lemma persist_cleanUp st w :
  rs_pendingPatches st = [] ->
  persist (enqueue_all st (cleanUpPatches (rs_TaskPositions st))) w =
  Some ((map (fun _ => true) (rs_TaskPositions st), set_rs_TaskPositions st []), w).
Proof.
  intros P. unfold persist, enqueue_all.
  cbn [rs_pendingPatches set_rs_pendingPatches]. rewrite P, app_nil_l.
  rewrite applyPatches_cleanUp with (tps := rs_TaskPositions st); [ | reflexivity ].
  do 3 f_equal. destruct st. simpl in *. now subst.
Qed.

Lemma no_reports_nil tps :
  no_reports tps = true ->
  reportedErrors tps = [] /\ errorPatches tps = [] /\
  reportedWarnings tps = [] /\ warningPatches tps = [].
Proof.
  unfold reportedErrors, errorPatches, reportedWarnings, warningPatches,
    errorsByCode, warningsByCode.
  induction tps as [|[c p] tps IH]; simpl; [ auto | ].
  destruct (pos_Error p); [ discriminate | ].
  destruct (pos_Warning p); [ discriminate | ]. exact IH.
Qed.

Section TwoTicks.
Context {B : Type} `{ExponentialBackOff B} `{ErrorClassifier}.
Implicit Types m : feedStateManager B.

(** A tick with no admin job that finds the feed Removed, Stopped, Failed
    or Finished. *)
Lemma Tick_terminal clk st m info :
  adminJobQueue m = [] ->
  rs_Info st = Some info ->
  In (info_State info) [StateRemoved; StateStopped; StateFailed; StateFinished] ->
  Tick clk st m =
  Some (false,
        set_state
          (if FeedState_eqb (info_State info) StateRemoved
           then set_shouldBeRemoved (set_shouldBeRunning m false) true
           else set_shouldBeRunning m false)
          (Some (enqueue_all st (cleanUpPatches (rs_TaskPositions st))))).
Proof.
  intros Q I S. unfold Tick, Tick_body, handleAdminJob, popAdminJob.
  change (adminJobQueue (set_shouldBeRunning (set_state m (Some st)) true))
    with (adminJobQueue m).
  rewrite Q. cbn [bind]. autorewrite with bound. cbn [bind]. rewrite I. cbn [bind].
  simpl in S. destruct S as [S|[S|[S|[S|[]]]]]; rewrite <- S; cbn [FeedState_eqb bind];
    autorewrite with bound; cbn [set_shouldBeRunning];
    (rewrite Tick_deferred_stop; [ reflexivity | reflexivity ]).
Qed.

(** A tick with no admin job, no report and no pending error, from a state
    that reaches the handlers: the feed is Normal, for which the handler
    clears [lastErrorTime], or [lastErrorTime] is the sentinel already. *)
Lemma Tick_quiet clk st m info :
  adminJobQueue m = [] ->
  rs_Info st = Some info ->
  reaches_handlers info = true ->
  no_reports (rs_TaskPositions st) = true ->
  FeedState_eqb (info_State info) StateNormal = true \/
  Time_eqb (lastErrorTime m) time_Unix_0_0 = true ->
  Tick clk st m =
  Some (false,
        set_state (quiet_manager (info_State info) m)
          (Some (enqueue_all st quietPatches))).
Proof.
  intros Q I R N T.
  destruct (no_reports_nil _ N) as (E1 & E2 & E3 & E4).
  assert (NS : info_State info <> StateStopped).
  { intros E. apply reaches_handlers_not_stopped in R. rewrite E in R. discriminate. }
  assert (L : forall X : feedStateManager B,
             lastErrorTime X = lastErrorTime m ->
             Time_eqb (lastErrorTime
                         (shiftStateWindow (info_State info)
                            (if FeedState_eqb (info_State info) StateNormal
                             then set_lastErrorTime X time_Unix_0_0 else X)))
                      time_Unix_0_0 = true).
  { intros X EX.
    destruct (shiftStateWindow_fields (info_State info)
                (if FeedState_eqb (info_State info) StateNormal
                 then set_lastErrorTime X time_Unix_0_0 else X)) as (_ & _ & A & _).
    rewrite A. destruct T as [T|T]; [ now rewrite T | ].
    destruct (FeedState_eqb (info_State info) StateNormal);
      [ reflexivity | now rewrite EX ]. }
  rewrite Tick_handler_runs with (info := info)
    (X := quiet_manager (info_State info) m)
    (new := [InfoPatch (record_errors [])]); [ | exact Q | exact I | exact R | | ].
  - rewrite E2, E3, E4. reflexivity.
  - rewrite E1, E2.
    rewrite handleError_retryable with (info := info);
      [ | exact I | exact NS | reflexivity | reflexivity ].
    rewrite backoffBookkeeping_eq with (info := info); [ | exact I ].
    cbn [List.length Nat.ltb Nat.leb bind].
    rewrite restartGate_idle; [ | apply L; reflexivity ].
    unfold quiet_manager. rewrite !enqueue_all_app. reflexivity.
  - unfold quiet_manager.
    destruct (shiftStateWindow_fields (info_State info)
                (if FeedState_eqb (info_State info) StateNormal
                 then set_lastErrorTime (set_shouldBeRunning m true) time_Unix_0_0
                 else set_shouldBeRunning m true)) as (_ & _ & _ & A & _).
    rewrite A. now destruct (FeedState_eqb (info_State info) StateNormal).
Qed.

Lemma quiet_manager_fields s m :
  FeedState_eqb s StateNormal = true \/
  Time_eqb (lastErrorTime m) time_Unix_0_0 = true ->
  adminJobQueue (quiet_manager s m) = adminJobQueue m /\
  Time_eqb (lastErrorTime (quiet_manager s m)) time_Unix_0_0 = true /\
  shouldBeRunning (quiet_manager s m) = true /\
  shouldBeRemoved (quiet_manager s m) = shouldBeRemoved m.
Proof.
  intros T. unfold quiet_manager, shiftStateWindow, set_stateHistory.
  cbn [adminJobQueue lastErrorTime shouldBeRunning shouldBeRemoved].
  destruct T as [T|T]; [ rewrite T; cbn; auto | ].
  destruct (FeedState_eqb s StateNormal); cbn; auto.
Qed.
End TwoTicks.

Lemma applyPatches_statePatches s a u st info w :
  rs_Info st = Some info ->
  exists flags st' w' info',
    applyPatches (statePatches s a u) st w = Some ((flags, st'), w') /\
    rs_Info st' = Some info' /\
    info_State info' = s /\ info_AdminJobType info' = a /\
    info_Error info' = info_Error info /\
    rs_TaskPositions st' = rs_TaskPositions st /\
    rs_pendingPatches st' = rs_pendingPatches st.
Proof.
  intros I. unfold statePatches. cbn [applyPatches].
  destruct (quiet_patchState_status a (rs_Status st) w) as (v1 & c1 & E1).
  unfold applyPatch at 1. rewrite E1. cbn [bind].
  set (st1 := if c1 then set_rs_Status st v1 else st).
  assert (I1 : rs_Info st1 = Some info) by (unfold st1; now destruct c1).
  assert (T1 : rs_TaskPositions st1 = rs_TaskPositions st) by (unfold st1; now destruct c1).
  assert (P1 : rs_pendingPatches st1 = rs_pendingPatches st) by (unfold st1; now destruct c1).
  destruct (patchState_info_effect s a u info w) as (info1 & c2 & w' & E2 & S2 & A2 & Er2 & _).
  unfold applyPatch. rewrite I1, E2. cbn [bind].
  exists [c1; c2], (if c2 then set_rs_Info st1 (Some info1) else st1), w',
         (if c2 then info1 else info).
  split; [ reflexivity | ].
  destruct c2; cbn [rs_Info rs_TaskPositions rs_pendingPatches set_rs_Info]; auto 10.
Qed.

Lemma persist_quiet_first st w info :
  rs_pendingPatches st = [] ->
  rs_Info st = Some info ->
  exists flags st' info',
    persist (enqueue_all st quietPatches) w = Some ((flags, st'), w) /\
    rs_Info st' = Some info' /\
    info_State info' = StateNormal /\ info_AdminJobType info' = AdminNone /\
    (forall s, rs_Status st' = Some s -> status_AdminJobType s = AdminNone) /\
    rs_TaskPositions st' = rs_TaskPositions st /\
    rs_pendingPatches st' = [].
Proof.
  intros P I. unfold persist, enqueue_all, quietPatches, statePatches.
  cbn [rs_pendingPatches set_rs_pendingPatches]. rewrite P, app_nil_l.
  destruct st as [id oi os tps pp]. simpl in I, P. subst oi pp.
  destruct info as [s a e wn ep sts].
  unfold applyPatches, applyPatch, patchState_status, patchState_info,
    record_errors, record_warnings.
  cbn [app rs_Info rs_Status set_rs_pendingPatches set_rs_Info set_rs_Status
       fold_left List.length Nat.ltb Nat.leb bind].
  destruct os as [[r c mb sa]|];
    cbn [status_AdminJobType info_State info_AdminJobType
         set_info_State set_info_AdminJobType set_status_AdminJobType];
    destruct s, a; try destruct sa; cbn;
    (do 3 eexists; split; [ reflexivity | ]); cbn;
    repeat split; try reflexivity; intros s0 E0; try discriminate E0;
    injection E0 as <-; reflexivity.
Qed.

Lemma persist_quiet_settled st w info :
  rs_pendingPatches st = [] ->
  rs_Info st = Some info ->
  info_State info = StateNormal ->
  info_AdminJobType info = AdminNone ->
  (forall s, rs_Status st = Some s -> status_AdminJobType s = AdminNone) ->
  persist (enqueue_all st quietPatches) w = Some (([false; false; false; false], st), w).
Proof.
  intros P I S A St. unfold persist, enqueue_all, quietPatches, statePatches.
  cbn [rs_pendingPatches set_rs_pendingPatches]. rewrite P, app_nil_l.
  destruct st as [id oi os tps pp]. simpl in I, P, St. subst oi pp.
  destruct info as [s a e wn ep sts]. simpl in S, A. subst s a.
  unfold applyPatches, applyPatch, patchState_status, patchState_info,
    record_errors, record_warnings.
  cbn [app rs_Info rs_Status set_rs_pendingPatches set_rs_Info set_rs_Status
       fold_left List.length Nat.ltb Nat.leb bind].
  destruct os as [[r c mb sa]|]; [ | reflexivity ].
  rewrite (St _ eq_refl). reflexivity.
Qed.

Lemma set_status_AdminJobType_same s a :
  AdminJobType_eqb (status_AdminJobType s) a = true ->
  set_status_AdminJobType s a = s.
Proof. intros E. apply AdminJobType_eqb_eq in E. subst a. now destruct s. Qed.

Lemma applyPatch_patchState_status a st w :
  exists c,
    applyPatch (StatusPatch (patchState_status a)) st w =
    Some ((c, set_rs_Status st
                (option_map (fun s => set_status_AdminJobType s a) (rs_Status st))), w) /\
    (c = false ->
     set_rs_Status st
       (option_map (fun s => set_status_AdminJobType s a) (rs_Status st)) = st).
Proof.
  unfold applyPatch, patchState_status.
  destruct (rs_Status st) as [s|] eqn:S.
  - destruct (AdminJobType_eqb (status_AdminJobType s) a) eqn:E; cbn [negb bind].
    + exists false. cbn [option_map]. rewrite (set_status_AdminJobType_same _ _ E).
      assert (R : set_rs_Status st (Some s) = st) by (destruct st; simpl in *; now subst).
      rewrite R. split; [ reflexivity | auto ].
    + exists true. split; [ reflexivity | discriminate ].
  - exists false. cbn [bind option_map].
    assert (R : set_rs_Status st None = st) by (destruct st; simpl in *; now subst).
    rewrite R. split; [ reflexivity | auto ].
Qed.

(** The two closures of [patchState], applied to an existing info. *)
Lemma applyPatches_statePatches_full s a u st info w :
  rs_Info st = Some info ->
  exists flags st' w' info',
    applyPatches (statePatches s a u) st w = Some ((flags, st'), w') /\
    rs_Info st' = Some info' /\
    info_State info' = s /\ info_AdminJobType info' = a /\
    info_Error info' = info_Error info /\
    info_Warning info' = info_Warning info /\
    info_StartTs info' = info_StartTs info /\
    rs_Status st' = option_map (fun s0 => set_status_AdminJobType s0 a) (rs_Status st) /\
    rs_TaskPositions st' = rs_TaskPositions st /\
    rs_pendingPatches st' = rs_pendingPatches st /\
    rs_ID st' = rs_ID st.
Proof.
  intros I. unfold statePatches. cbn [applyPatches].
  destruct (applyPatch_patchState_status a st w) as (c1 & E1 & _).
  rewrite E1. cbn [bind].
  set (st1 := set_rs_Status st _).
  destruct (patchState_info_effect s a u info w)
    as (info1 & c2 & w' & E2 & S2 & A2 & Er2 & W2 & T2).
  unfold applyPatch.
  change (rs_Info st1) with (rs_Info st). rewrite I, E2. cbn [bind].
  exists [c1; c2], (if c2 then set_rs_Info st1 (Some info1) else st1), w',
         (if c2 then info1 else info).
  split; [ reflexivity | ].
  destruct c2; cbn [rs_Info set_rs_Info]; repeat split; auto.
Qed.

(** The closures of [patchState] on a state that already has the target:
    both report no change, and neither the state nor the world moves. *)
Lemma applyPatches_statePatches_settled s a u st info w :
  rs_Info st = Some info ->
  info_State info = s ->
  info_AdminJobType info = a ->
  (forall s0, rs_Status st = Some s0 -> status_AdminJobType s0 = a) ->
  applyPatches (statePatches s a u) st w = Some (([false; false], st), w).
Proof.
  intros I S A St. unfold statePatches. cbn [applyPatches].
  assert (E1 : applyPatch (StatusPatch (patchState_status a)) st w =
               Some ((false, st), w)).
  { unfold applyPatch, patchState_status. destruct (rs_Status st) as [s0|].
    - rewrite (St s0 eq_refl).
      assert (R : AdminJobType_eqb a a = true) by now apply AdminJobType_eqb_eq.
      rewrite R. reflexivity.
    - reflexivity. }
  rewrite E1. cbn [bind].
  unfold applyPatch, patchState_info. rewrite I, S.
  assert (R1 : FeedState_eqb s s = true) by now apply FeedState_eqb_eq.
  rewrite R1. cbn [negb]. rewrite A.
  assert (R2 : AdminJobType_eqb a a = true) by now apply AdminJobType_eqb_eq.
  rewrite R2. reflexivity.
Qed.

Section Idempotence.
Context {B : Type} `{ExponentialBackOff B} `{ErrorClassifier}.
Implicit Types m : feedStateManager B.

(** The second of two ticks, when the first left a terminal state and no
    task position. *)
Lemma second_tick_terminal clk st m info w :
  adminJobQueue m = [] ->
  rs_pendingPatches st = [] ->
  rs_TaskPositions st = [] ->
  rs_Info st = Some info ->
  In (info_State info) [StateRemoved; StateStopped; StateFailed; StateFinished] ->
  exists m2 st2,
    Tick clk st m = Some (false, m2) /\
    state m2 = Some st2 /\
    persist st2 w = Some (([], st), w) /\
    ShouldRunning m2 = false /\
    ShouldRemoved m2 =
      if FeedState_eqb (info_State info) StateRemoved then true else shouldBeRemoved m.
Proof.
  intros Q P T I S. do 2 eexists.
  split; [ apply (Tick_terminal clk st m Q I S) | ].
  split; [ reflexivity | ].
  split.
  { rewrite (persist_cleanUp st w P). rewrite T. cbn [map]. do 3 f_equal.
    destruct st. simpl in *. now subst. }
  unfold ShouldRunning, ShouldRemoved.
  destruct (FeedState_eqb (info_State info) StateRemoved); split; reflexivity.
Qed.

Lemma two_ticks_terminal clk1 clk2 st m info w :
  adminJobQueue m = [] ->
  rs_pendingPatches st = [] ->
  rs_Info st = Some info ->
  In (info_State info) [StateRemoved; StateStopped; StateFailed; StateFinished] ->
  second_tick_changes_nothing clk1 clk2 st m w.
Proof.
  intros Q P I S. unfold second_tick_changes_nothing.
  set (X := if FeedState_eqb (info_State info) StateRemoved
            then set_shouldBeRemoved (set_shouldBeRunning m false) true
            else set_shouldBeRunning m false).
  set (m1 := set_state X (Some (enqueue_all st (cleanUpPatches (rs_TaskPositions st))))).
  assert (Q1 : adminJobQueue m1 = []).
  { unfold m1, X. autorewrite with bound.
    destruct (FeedState_eqb (info_State info) StateRemoved); exact Q. }
  destruct (second_tick_terminal clk2 (set_rs_TaskPositions st []) m1 w (info := info))
    as (m2 & st2 & T2 & S2 & P2 & R2 & V2); try assumption; try reflexivity.
  exists m1, (enqueue_all st (cleanUpPatches (rs_TaskPositions st))),
         (map (fun _ => true) (rs_TaskPositions st)), (set_rs_TaskPositions st []), w,
         m2, st2, [], (set_rs_TaskPositions st []).
  split; [ apply (Tick_terminal clk1 st m Q I S) | ].
  split; [ reflexivity | ].
  split; [ apply (persist_cleanUp st w P) | ].
  split; [ exact T2 | ]. split; [ exact S2 | ]. split; [ exact P2 | ].
  repeat (split; [ reflexivity | ]).
  split.
  { rewrite R2. unfold m1, X, ShouldRunning. autorewrite with bound.
    now destruct (FeedState_eqb (info_State info) StateRemoved). }
  split; [ | constructor ].
  rewrite V2. unfold m1, X, ShouldRemoved. autorewrite with bound.
  now destruct (FeedState_eqb (info_State info) StateRemoved).
Qed.

Lemma two_ticks_unretryable clk1 clk2 st m info e w :
  adminJobQueue m = [] ->
  rs_pendingPatches st = [] ->
  rs_Info st = Some info ->
  info_State info = StateError ->
  info_Error info = Some e ->
  IsChangefeedUnRetryableError e = true ->
  second_tick_changes_nothing clk1 clk2 st m w.
Proof.
  intros Q P I S E U. unfold second_tick_changes_nothing.
  set (m1 := set_state (set_shouldBeRunning m false)
               (Some (enqueue_all st
                  (statePatches StateFailed AdminStop true ++
                   cleanUpPatches (rs_TaskPositions st))))).
  destruct (applyPatches_statePatches StateFailed AdminStop true
              (set_rs_pendingPatches st []) w I)
    as (fl & sta & w1 & info1 & A & Ia & Sa & _ & _ & Ta & Pa).
  assert (Pst : persist (enqueue_all st
                  (statePatches StateFailed AdminStop true ++
                   cleanUpPatches (rs_TaskPositions st))) w
                = Some ((fl ++ map (fun _ => true) (rs_TaskPositions st),
                         set_rs_TaskPositions sta []), w1)).
  { rewrite (persist_enqueue_all st _ w P), applyPatches_app, A. cbn [bind].
    rewrite applyPatches_cleanUp; [ reflexivity | ]. rewrite Ta. reflexivity. }
  destruct (second_tick_terminal clk2 (set_rs_TaskPositions sta []) m1 w1 (info := info1))
    as (m2 & st2 & T2 & S2 & P2 & R2 & V2); try assumption; try reflexivity.
  { rewrite Sa. simpl. auto. }
  exists m1, (enqueue_all st
                (statePatches StateFailed AdminStop true ++
                 cleanUpPatches (rs_TaskPositions st))),
         (fl ++ map (fun _ => true) (rs_TaskPositions st)),
         (set_rs_TaskPositions sta []), w1, m2, st2, [], (set_rs_TaskPositions sta []).
  split; [ apply (Tick_error_unretryable clk1 st m Q I S E U) | ].
  split; [ reflexivity | ]. split; [ exact Pst | ].
  split; [ exact T2 | ]. split; [ exact S2 | ]. split; [ exact P2 | ].
  repeat (split; [ reflexivity | ]).
  split; [ rewrite R2; reflexivity | ].
  split; [ | constructor ].
  rewrite V2, Sa. reflexivity.
Qed.

Lemma two_ticks_quiet clk1 clk2 st m info w :
  adminJobQueue m = [] ->
  rs_pendingPatches st = [] ->
  rs_Info st = Some info ->
  reaches_handlers info = true ->
  no_reports (rs_TaskPositions st) = true ->
  FeedState_eqb (info_State info) StateNormal = true \/
  Time_eqb (lastErrorTime m) time_Unix_0_0 = true ->
  second_tick_changes_nothing clk1 clk2 st m w.
Proof.
  intros Q P I R N T. unfold second_tick_changes_nothing.
  destruct (persist_quiet_first st w P I)
    as (fl & st1' & info1 & Pst & I1 & S1 & A1 & St1 & T1 & P1).
  destruct (quiet_manager_fields (info_State info) m T) as (Q1 & L1 & R1 & V1).
  set (m1 := set_state (quiet_manager (info_State info) m)
               (Some (enqueue_all st quietPatches))).
  assert (R1' : reaches_handlers info1 = true).
  { unfold reaches_handlers. now rewrite S1. }
  assert (T2 : Tick clk2 st1' m1 =
               Some (false, set_state (quiet_manager (info_State info1) m1)
                              (Some (enqueue_all st1' quietPatches)))).
  { apply Tick_quiet; try assumption.
    - unfold m1. autorewrite with bound. now rewrite Q1.
    - now rewrite T1.
    - right. exact L1. }
  destruct (quiet_manager_fields (info_State info1) m1) as (Q2 & L2 & R2 & V2);
    [ right; exact L1 | ].
  exists m1, (enqueue_all st quietPatches), fl, st1', w,
         (set_state (quiet_manager (info_State info1) m1)
            (Some (enqueue_all st1' quietPatches))),
         (enqueue_all st1' quietPatches), [false; false; false; false], st1'.
  split; [ apply (Tick_quiet clk1 st m Q I R N T) | ].
  split; [ reflexivity | ]. split; [ exact Pst | ].
  split; [ exact T2 | ]. split; [ reflexivity | ].
  split; [ apply (persist_quiet_settled st1' w P1 I1 S1 A1 St1) | ].
  repeat (split; [ reflexivity | ]).
  unfold ShouldRunning, ShouldRemoved. autorewrite with bound.
  split; [ rewrite R2; unfold m1; autorewrite with bound; now rewrite R1 | ].
  split; [ rewrite V2; reflexivity | repeat constructor ].
Qed.
(** *** A restart is pending *)

Lemma shifted_fields s m :
  lastErrorTime (shiftStateWindow s (set_shouldBeRunning m true)) = lastErrorTime m /\
  backoffInterval (shiftStateWindow s (set_shouldBeRunning m true)) = backoffInterval m /\
  shouldBeRunning (shiftStateWindow s (set_shouldBeRunning m true)) = true /\
  adminJobQueue (shiftStateWindow s (set_shouldBeRunning m true)) = adminJobQueue m /\
  shouldBeRemoved (shiftStateWindow s (set_shouldBeRunning m true)) = shouldBeRemoved m.
Proof.
  unfold shiftStateWindow, set_stateHistory, set_shouldBeRunning.
  cbn [lastErrorTime backoffInterval shouldBeRunning adminJobQueue shouldBeRemoved].
  repeat split.
Qed.

(** The error handler with an empty batch, on a feed that is not Normal:
    the window is shifted and the restart gate decides. *)
Lemma handleError_calm clk m st info :
  rs_Info st = Some info ->
  reaches_handlers info = true ->
  FeedState_eqb (info_State info) StateNormal = false ->
  handleError clk [] (set_state m (Some st)) =
  restartGate clk
    (set_state (shiftStateWindow (info_State info) m)
       (Some (enqueue_all st [InfoPatch (record_errors [])]))).
Proof.
  intros I R NN.
  assert (NS : info_State info <> StateStopped).
  { intros E. apply reaches_handlers_not_stopped in R. rewrite E in R. discriminate. }
  rewrite handleError_retryable with (info := info);
    [ | exact I | exact NS | reflexivity | reflexivity ].
  rewrite backoffBookkeeping_eq with (info := info); [ | exact I ].
  cbn [List.length Nat.ltb Nat.leb bind]. rewrite NN. reflexivity.
Qed.

(** A tick with nothing to handle while the restart is awaited. *)
Lemma Tick_wait clk st m info :
  adminJobQueue m = [] ->
  rs_Info st = Some info ->
  reaches_handlers info = true ->
  no_reports (rs_TaskPositions st) = true ->
  FeedState_eqb (info_State info) StateNormal = false ->
  Time_eqb (lastErrorTime m) time_Unix_0_0 = false ->
  time_Since (now_gate clk) (lastErrorTime m) < backoffInterval m ->
  Tick clk st m =
  Some (false,
        set_state
          (set_shouldBeRunning
             (shiftStateWindow (info_State info) (set_shouldBeRunning m true)) false)
          (Some (enqueue_all st (downPatches StateError (rs_TaskPositions st))))).
Proof.
  intros Q I R N NN T L.
  destruct (no_reports_nil _ N) as (E1 & E2 & E3 & E4).
  destruct (shifted_fields (info_State info) m) as (F1 & F2 & _).
  rewrite Tick_handler_stops with (info := info)
    (X := set_shouldBeRunning
            (shiftStateWindow (info_State info) (set_shouldBeRunning m true)) false)
    (new := [InfoPatch (record_errors [])] ++ statePatches StateError AdminStop true);
    [ | exact Q | exact I | exact R | | reflexivity ].
  - rewrite E2, E3, E4. reflexivity.
  - rewrite E1, E2.
    rewrite handleError_calm with (info := info); [ | exact I | exact R | exact NN ].
    rewrite restartGate_wait; [ | now rewrite F1 | now rewrite F1, F2 ].
    rewrite !enqueue_all_app. reflexivity.
Qed.

(** A tick with nothing to handle once the backoff interval has elapsed:
    the next delay is taken, and the feed runs again unless the backoff
    gives up. *)
Lemma Tick_advance clk st m info :
  adminJobQueue m = [] ->
  rs_Info st = Some info ->
  reaches_handlers info = true ->
  no_reports (rs_TaskPositions st) = true ->
  FeedState_eqb (info_State info) StateNormal = false ->
  Time_eqb (lastErrorTime m) time_Unix_0_0 = false ->
  backoffInterval m <= time_Since (now_gate clk) (lastErrorTime m) ->
  exists mA : feedStateManager B,
    adminJobQueue mA = [] /\
    lastErrorTime mA = time_Unix_0_0 /\
    shouldBeRunning mA = true /\
    shouldBeRemoved mA = shouldBeRemoved m /\
    (Tick clk st m =
       Some (false,
             set_state (set_shouldBeRunning mA false)
               (Some (enqueue_all st (downPatches StateFailed (rs_TaskPositions st)))))
     \/
     Tick clk st m =
       Some (false, set_state mA (Some (enqueue_all st quietPatches)))).
Proof.
  intros Q I R N NN T L.
  destruct (no_reports_nil _ N) as (E1 & E2 & E3 & E4).
  destruct (shifted_fields (info_State info) m) as (F1 & F2 & F3 & F4 & F5).
  remember (shiftStateWindow (info_State info) (set_shouldBeRunning m true))
    as m1 eqn:Em1 in *.
  set (mA := set_lastErrorTime
               (set_backoff m1 (fst (NextBackOff (errBackoff m1)))
                               (snd (NextBackOff (errBackoff m1))))
               time_Unix_0_0).
  assert (G : handleError clk (reportedErrors (rs_TaskPositions st))
                (set_state (set_shouldBeRunning m true)
                   (Some (enqueue_all st (errorPatches (rs_TaskPositions st)))))
              = if fst (NextBackOff (errBackoff m1)) =? Stop
                then Some (set_state (set_shouldBeRunning mA false)
                             (Some (enqueue_all
                                      (enqueue_all st (errorPatches (rs_TaskPositions st)))
                                      ([InfoPatch (record_errors [])] ++
                                       statePatches StateFailed AdminStop true))))
                else Some (set_state mA
                             (Some (enqueue_all
                                      (enqueue_all st (errorPatches (rs_TaskPositions st)))
                                      [InfoPatch (record_errors [])])))).
  { rewrite E1, E2.
    rewrite handleError_calm with (info := info); [ | exact I | exact R | exact NN ].
    rewrite <- Em1.
    rewrite restartGate_advance; [ | now rewrite F1 | now rewrite F1, F2 ].
    cbv zeta. fold mA.
    destruct (fst (NextBackOff (errBackoff m1)) =? Stop);
      rewrite ?enqueue_all_app; reflexivity. }
  exists mA. split; [ exact (eq_trans F4 Q) | ].
  split; [ reflexivity | ]. split; [ exact F3 | ]. split; [ exact F5 | ].
  destruct (fst (NextBackOff (errBackoff m1)) =? Stop).
  - left.
    rewrite Tick_handler_stops with (info := info)
      (X := set_shouldBeRunning mA false)
      (new := [InfoPatch (record_errors [])] ++ statePatches StateFailed AdminStop true);
      [ | exact Q | exact I | exact R | exact G | reflexivity ].
    rewrite E2, E3, E4. reflexivity.
  - right.
    rewrite Tick_handler_runs with (info := info) (X := mA)
      (new := [InfoPatch (record_errors [])]);
      [ | exact Q | exact I | exact R | exact G | exact F3 ].
    rewrite E2, E3, E4. reflexivity.
Qed.

(** The patches of a tick that keeps the feed down, applied. *)
Lemma persist_downPatches s st info w :
  rs_pendingPatches st = [] ->
  rs_Info st = Some info ->
  exists flags st' w' info',
    persist (enqueue_all st (downPatches s (rs_TaskPositions st))) w
      = Some ((flags, st'), w') /\
    rs_Info st' = Some info' /\
    info_State info' = s /\
    info_AdminJobType info' = AdminStop /\
    info_Error info' = info_Error info /\
    (forall s0, rs_Status st' = Some s0 -> status_AdminJobType s0 = AdminStop) /\
    rs_TaskPositions st' = [] /\
    rs_pendingPatches st' = [].
Proof.
  intros P I. rewrite persist_enqueue_all by exact P.
  rewrite set_rs_pendingPatches_same by exact P.
  unfold downPatches.
  assert (A0 : applyPatches [InfoPatch (record_errors [])] st w =
               Some (([false], st), w)).
  { cbn [applyPatches applyPatch record_errors]. rewrite I. reflexivity. }
  destruct (applyPatches_statePatches_full s AdminStop true st w I)
    as (f1 & st1 & w1 & info1 & E1 & I1 & S1 & A1 & Er1 & _ & _ & St1 & TP1 & P1 & _).
  assert (A2 : applyPatches [InfoPatch (record_warnings [])] st1 w1 =
               Some (([false], st1), w1)).
  { cbn [applyPatches applyPatch record_warnings]. rewrite I1. reflexivity. }
  rewrite applyPatches_app, A0. cbn [bind].
  rewrite applyPatches_app, E1. cbn [bind].
  rewrite applyPatches_app, A2. cbn [bind].
  rewrite <- TP1. rewrite applyPatches_cleanUp by reflexivity. cbn [bind].
  do 3 eexists. exists info1. split; [ reflexivity | ].
  cbn [rs_Info rs_Status rs_TaskPositions rs_pendingPatches set_rs_TaskPositions].
  split; [ exact I1 | ]. split; [ exact S1 | ]. split; [ exact A1 | ].
  split; [ exact Er1 | ]. split; [ | split; [ reflexivity | now rewrite P1 ] ].
  intros s0 E0. rewrite St1 in E0. destruct (rs_Status st) as [s1|]; [ | discriminate ].
  injection E0 as <-. reflexivity.
Qed.

(** The same patches on a state that the first tick already put down:
    nothing changes. *)
Lemma persist_downPatches_settled s st info w :
  rs_pendingPatches st = [] ->
  rs_Info st = Some info ->
  info_State info = s ->
  info_AdminJobType info = AdminStop ->
  (forall s0, rs_Status st = Some s0 -> status_AdminJobType s0 = AdminStop) ->
  rs_TaskPositions st = [] ->
  persist (enqueue_all st (downPatches s (rs_TaskPositions st))) w
    = Some (([false; false; false; false], st), w).
Proof.
  intros P I S A St T. rewrite persist_enqueue_all by exact P.
  rewrite set_rs_pendingPatches_same by exact P.
  unfold downPatches. rewrite T.
  assert (A0 : applyPatches [InfoPatch (record_errors [])] st w =
               Some (([false], st), w)).
  { cbn [applyPatches applyPatch record_errors]. rewrite I. reflexivity. }
  assert (A2 : applyPatches [InfoPatch (record_warnings [])] st w =
               Some (([false], st), w)).
  { cbn [applyPatches applyPatch record_warnings]. rewrite I. reflexivity. }
  rewrite applyPatches_app, A0. cbn [bind].
  rewrite applyPatches_app.
  rewrite (@applyPatches_statePatches_settled s AdminStop true st info w I S A St).
  cbn [bind].
  rewrite applyPatches_app, A2. reflexivity.
Qed.

Lemma Tick_wait_fields clk st m info :
  adminJobQueue m = [] ->
  rs_Info st = Some info ->
  reaches_handlers info = true ->
  no_reports (rs_TaskPositions st) = true ->
  FeedState_eqb (info_State info) StateNormal = false ->
  Time_eqb (lastErrorTime m) time_Unix_0_0 = false ->
  time_Since (now_gate clk) (lastErrorTime m) < backoffInterval m ->
  exists m1 : feedStateManager B,
    adminJobQueue m1 = [] /\
    lastErrorTime m1 = lastErrorTime m /\
    backoffInterval m1 = backoffInterval m /\
    shouldBeRemoved m1 = shouldBeRemoved m /\
    Tick clk st m =
      Some (false,
            set_state (set_shouldBeRunning m1 false)
              (Some (enqueue_all st (downPatches StateError (rs_TaskPositions st))))).
Proof.
  intros Q I R N NN T L.
  destruct (shifted_fields (info_State info) m) as (F1 & F2 & F3 & F4 & F5).
  exists (shiftStateWindow (info_State info) (set_shouldBeRunning m true)).
  split; [ exact (eq_trans F4 Q) | ]. split; [ exact F1 | ].
  split; [ exact F2 | ]. split; [ exact F5 | ].
  now apply Tick_wait.
Qed.

(** Two ticks that both fall inside the backoff interval. *)
Lemma two_ticks_waiting clk1 clk2 st m info e w :
  adminJobQueue m = [] ->
  rs_pendingPatches st = [] ->
  rs_Info st = Some info ->
  reaches_handlers info = true ->
  no_reports (rs_TaskPositions st) = true ->
  FeedState_eqb (info_State info) StateNormal = false ->
  Time_eqb (lastErrorTime m) time_Unix_0_0 = false ->
  time_Since (now_gate clk1) (lastErrorTime m) < backoffInterval m ->
  time_Since (now_gate clk2) (lastErrorTime m) < backoffInterval m ->
  info_Error info = Some e ->
  IsChangefeedUnRetryableError e = false ->
  second_tick_changes_nothing clk1 clk2 st m w.
Proof.
  intros Q P I R N NN T L1 L2 Ee U. unfold second_tick_changes_nothing.
  destruct (Tick_wait_fields clk1 st m Q I R N NN T L1)
    as (m1 & Q1 & LT1 & B1 & V1 & T1).
  destruct (persist_downPatches StateError st w P I)
    as (fl & st1' & w1 & info1 & Pst & I1 & S1 & A1 & Er1 & St1 & TP1 & P1).
  assert (R1 : reaches_handlers info1 = true).
  { unfold reaches_handlers. now rewrite S1, Er1, Ee, U. }
  assert (N1 : no_reports (rs_TaskPositions st1') = true) by now rewrite TP1.
  assert (NN1 : FeedState_eqb (info_State info1) StateNormal = false) by now rewrite S1.
  destruct (Tick_wait_fields clk2 st1'
              (set_state (set_shouldBeRunning m1 false)
                 (Some (enqueue_all st (downPatches StateError (rs_TaskPositions st)))))
              (info := info1))
    as (m2 & Q2 & LT2 & B2 & V2 & T2); try assumption.
  { cbn [lastErrorTime set_state set_shouldBeRunning]. now rewrite LT1. }
  { cbn [lastErrorTime backoffInterval set_state set_shouldBeRunning].
    now rewrite LT1, B1. }
  exists (set_state (set_shouldBeRunning m1 false)
            (Some (enqueue_all st (downPatches StateError (rs_TaskPositions st))))),
         (enqueue_all st (downPatches StateError (rs_TaskPositions st))), fl, st1', w1,
         (set_state (set_shouldBeRunning m2 false)
            (Some (enqueue_all st1' (downPatches StateError (rs_TaskPositions st1'))))),
         (enqueue_all st1' (downPatches StateError (rs_TaskPositions st1'))),
         [false; false; false; false], st1'.
  split; [ exact T1 | ]. split; [ reflexivity | ]. split; [ exact Pst | ].
  split; [ exact T2 | ]. split; [ reflexivity | ].
  split; [ apply (@persist_downPatches_settled StateError st1' info1 w1
                    P1 I1 S1 A1 St1 TP1) | ].
  repeat (split; [ reflexivity | ]).
  split; [ exact V2 | repeat constructor ].
Qed.

(** Two ticks of which the first finds the backoff interval elapsed. *)
Lemma two_ticks_advance clk1 clk2 st m info w :
  adminJobQueue m = [] ->
  rs_pendingPatches st = [] ->
  rs_Info st = Some info ->
  reaches_handlers info = true ->
  no_reports (rs_TaskPositions st) = true ->
  FeedState_eqb (info_State info) StateNormal = false ->
  Time_eqb (lastErrorTime m) time_Unix_0_0 = false ->
  backoffInterval m <= time_Since (now_gate clk1) (lastErrorTime m) ->
  second_tick_changes_nothing clk1 clk2 st m w.
Proof.
  intros Q P I R N NN T L1. unfold second_tick_changes_nothing.
  destruct (Tick_advance clk1 st m Q I R N NN T L1)
    as (mA & QA & LA & RA & VA & [T1|T1]).
  - set (M1 := set_state (set_shouldBeRunning mA false)
                 (Some (enqueue_all st (downPatches StateFailed (rs_TaskPositions st)))))
      in *.
    destruct (persist_downPatches StateFailed st w P I)
      as (fl & st1' & w1 & info1 & Pst & I1 & S1 & A1 & Er1 & St1 & TP1 & P1).
    destruct (second_tick_terminal clk2 st1' M1 w1 (info := info1))
      as (m2 & st2 & T2 & S2 & P2 & R2 & V2); try assumption.
    { rewrite S1. simpl. auto. }
    exists M1, (enqueue_all st (downPatches StateFailed (rs_TaskPositions st))), fl,
           st1', w1, m2, st2, [], st1'.
    split; [ exact T1 | ]. split; [ reflexivity | ]. split; [ exact Pst | ].
    split; [ exact T2 | ]. split; [ exact S2 | ]. split; [ exact P2 | ].
    repeat (split; [ reflexivity | ]).
    split; [ rewrite R2; reflexivity | ].
    split; [ | constructor ].
    rewrite V2, S1. reflexivity.
  - set (M1 := set_state mA (Some (enqueue_all st quietPatches))) in *.
    destruct (persist_quiet_first st w P I)
      as (fl & st1' & info1 & Pst & I1 & S1 & A1 & St1 & TP1 & P1).
    assert (R1 : reaches_handlers info1 = true).
    { unfold reaches_handlers. now rewrite S1. }
    assert (LM : Time_eqb (lastErrorTime M1) time_Unix_0_0 = true).
    { unfold M1. cbn [lastErrorTime set_state]. rewrite LA. reflexivity. }
    assert (T2 : Tick clk2 st1' M1 =
                 Some (false, set_state (quiet_manager (info_State info1) M1)
                                (Some (enqueue_all st1' quietPatches)))).
    { apply Tick_quiet; try assumption.
      - now rewrite TP1.
      - right. exact LM. }
    destruct (quiet_manager_fields (info_State info1) M1) as (Q2 & L2 & R2 & V2);
      [ right; exact LM | ].
    exists M1, (enqueue_all st quietPatches), fl, st1', w,
           (set_state (quiet_manager (info_State info1) M1)
              (Some (enqueue_all st1' quietPatches))),
           (enqueue_all st1' quietPatches), [false; false; false; false], st1'.
    split; [ exact T1 | ]. split; [ reflexivity | ]. split; [ exact Pst | ].
    split; [ exact T2 | ]. split; [ reflexivity | ].
    split; [ apply (persist_quiet_settled st1' w P1 I1 S1 A1 St1) | ].
    repeat (split; [ reflexivity | ]).
    unfold ShouldRunning, ShouldRemoved.
    cbn [shouldBeRunning shouldBeRemoved set_state].
    split; [ rewrite R2; unfold M1; cbn [shouldBeRunning set_state]; now rewrite RA | ].
    split; [ rewrite V2; reflexivity | repeat constructor ].
Qed.
(** Two ticks of which the first falls inside the backoff interval and the
    second does not: the first leaves the feed in Error, the second ends
    the wait and patches it to Failed or back to Normal. *)
Lemma two_ticks_late clk1 clk2 st m info e w :
  adminJobQueue m = [] ->
  rs_pendingPatches st = [] ->
  rs_Info st = Some info ->
  reaches_handlers info = true ->
  no_reports (rs_TaskPositions st) = true ->
  FeedState_eqb (info_State info) StateNormal = false ->
  Time_eqb (lastErrorTime m) time_Unix_0_0 = false ->
  time_Since (now_gate clk1) (lastErrorTime m) < backoffInterval m ->
  backoffInterval m <= time_Since (now_gate clk2) (lastErrorTime m) ->
  info_Error info = Some e ->
  IsChangefeedUnRetryableError e = false ->
  ~ second_tick_changes_nothing clk1 clk2 st m w.
Proof.
  intros Q P I R N NN T L1 L2 Ee U.
  destruct (Tick_wait_fields clk1 st m Q I R N NN T L1)
    as (m1 & Q1 & LT1 & B1 & V1 & T1).
  destruct (persist_downPatches StateError st w P I)
    as (fl & st1' & w1 & info1 & Pst & I1 & S1 & A1 & Er1 & St1 & TP1 & P1).
  assert (R1 : reaches_handlers info1 = true).
  { unfold reaches_handlers. now rewrite S1, Er1, Ee, U. }
  assert (N1 : no_reports (rs_TaskPositions st1') = true) by now rewrite TP1.
  assert (NN1 : FeedState_eqb (info_State info1) StateNormal = false) by now rewrite S1.
  destruct (Tick_advance clk2 st1'
              (set_state (set_shouldBeRunning m1 false)
                 (Some (enqueue_all st (downPatches StateError (rs_TaskPositions st)))))
              (info := info1))
    as (mA & _ & _ & _ & _ & T2); try assumption.
  { cbn [lastErrorTime set_state set_shouldBeRunning]. now rewrite LT1. }
  { cbn [lastErrorTime backoffInterval set_state set_shouldBeRunning].
    now rewrite LT1, B1. }
  destruct (persist_downPatches StateFailed st1' w1 P1 I1)
    as (flF & stF & wF & infoF & PF & IF_ & SF & _).
  destruct (persist_quiet_first st1' w1 P1 I1)
    as (flN & stN & infoN & PN & IN_ & SN & _).
  intros (m1x & st1x & fl1x & st1'x & w1x & m2x & st2x & fl2x & st2'x &
          H1 & H2 & H3 & H4 & H5 & H6 & H7 & _).
  rewrite T1 in H1. injection H1 as <-.
  cbn [state set_state] in H2. injection H2 as <-.
  rewrite Pst in H3. injection H3 as <- <- <-.
  destruct T2 as [T2|T2]; rewrite T2 in H4; injection H4 as <-;
    cbn [state set_state] in H5; injection H5 as <-.
  - rewrite PF in H6. injection H6 as _ <- _.
    rewrite IF_, I1 in H7. injection H7 as <-.
    rewrite S1 in SF. discriminate SF.
  - rewrite PN in H6. injection H6 as _ <-.
    rewrite IN_, I1 in H7. injection H7 as <-.
    rewrite S1 in SN. discriminate SN.
Qed.
End Idempotence.

(** C7, as the code has it.  With no admin job queued and no error or
    warning in the task positions, two successive ticks leave the same
    observable state from every feed state: after the second tick the
    persisted info, status and task positions and the two flags are what
    they were after the first, and every closure the second tick queued
    reports no change.  One case is excepted, and in it the property
    fails: the first tick keeps the feed down for a pending restart and
    the second no longer falls inside the backoff interval; the first
    then leaves the feed in Error and the second patches it to Failed or
    back to Normal.  An info in state Error has its error set, and when
    the first tick keeps the feed down that error is retryable, since the
    second tick tests it. *)
Theorem two_ticks_idempotent :
  forall (B : Type) (BO : ExponentialBackOff B) (EC : ErrorClassifier)
         (clk1 clk2 : TickClock) (st : ChangefeedReactorState)
         (m : feedStateManager B) (info : ChangeFeedInfo) (w : World),
    adminJobQueue m = [] ->
    rs_pendingPatches st = [] ->
    rs_Info st = Some info ->
    no_reports (rs_TaskPositions st) = true ->
    (info_State info = StateError -> info_Error info <> None) ->
    ((held_down clk1 m info = true ->
      time_Since (now_gate clk2) (lastErrorTime m) < backoffInterval m /\
      exists e, info_Error info = Some e /\ IsChangefeedUnRetryableError e = false) ->
     second_tick_changes_nothing clk1 clk2 st m w) /\
    (held_down clk1 m info = true ->
     backoffInterval m <= time_Since (now_gate clk2) (lastErrorTime m) ->
     (exists e, info_Error info = Some e /\ IsChangefeedUnRetryableError e = false) ->
     ~ second_tick_changes_nothing clk1 clk2 st m w).
Proof.
  intros B BO EC clk1 clk2 st m info w Q P I N E. split.
  - intros Hd. destruct (reaches_handlers info) eqn:R.
    + destruct (FeedState_eqb (info_State info) StateNormal) eqn:NN.
      { apply two_ticks_quiet with (info := info); try assumption. now left. }
      destruct (Time_eqb (lastErrorTime m) time_Unix_0_0) eqn:T.
      { apply two_ticks_quiet with (info := info); try assumption. now right. }
      destruct (Z_lt_le_dec (time_Since (now_gate clk1) (lastErrorTime m))
                  (backoffInterval m)) as [L1|L1].
      * destruct Hd as (L2 & e & Ee & U).
        { unfold held_down. rewrite R, NN, T. cbn [negb andb]. now apply Z.ltb_lt. }
        now apply two_ticks_waiting with (info := info) (e := e).
      * now apply two_ticks_advance with (info := info).
    + unfold reaches_handlers in R.
      destruct (info_State info) eqn:S; try discriminate R.
      * destruct (info_Error info) as [e|] eqn:Ee; [ | exfalso; now apply E ].
        apply two_ticks_unretryable with (info := info) (e := e); try assumption.
        now destruct (IsChangefeedUnRetryableError e).
      * apply two_ticks_terminal with (info := info); try assumption.
        rewrite S. simpl. auto.
      * apply two_ticks_terminal with (info := info); try assumption.
        rewrite S. simpl. auto.
      * apply two_ticks_terminal with (info := info); try assumption.
        rewrite S. simpl. auto.
      * apply two_ticks_terminal with (info := info); try assumption.
        rewrite S. simpl. auto.
  - intros Hd L2 (e & Ee & U). unfold held_down in Hd.
    apply andb_prop in Hd. destruct Hd as [Hd L1].
    apply andb_prop in Hd. destruct Hd as [Hd T].
    apply andb_prop in Hd. destruct Hd as [R NN].
    apply Z.ltb_lt in L1. apply negb_true_iff in T. apply negb_true_iff in NN.
    now apply two_ticks_late with (info := info) (e := e).
Qed.

Lemma two_ticks_idempotent_witness :
  let st := sampleState (sampleInfo StateError AdminStop (Some errPD)) AdminStop
              idlePositions in
  let m := set_lastErrorTime sampleManager (time_Now (now_error (clockAt 0))) in
  second_tick_changes_nothing (clockAt 5) (clockAt 6) st m sampleWorld /\
  ~ second_tick_changes_nothing (clockAt 5) (clockAt 11) st m sampleWorld.
Proof.
  intros st m. split.
  - destruct (@two_ticks_idempotent SimpleBackOff _ _ (clockAt 5) (clockAt 6) st m
                (sampleInfo StateError AdminStop (Some errPD)) sampleWorld)
      as [Same _]; try reflexivity.
    { intros _ HE. discriminate HE. }
    apply Same. intros _. split; [ vm_compute; reflexivity | ].
    exists errPD. split; reflexivity.
  - destruct (@two_ticks_idempotent SimpleBackOff _ _ (clockAt 5) (clockAt 11) st m
                (sampleInfo StateError AdminStop (Some errPD)) sampleWorld)
      as [_ Late]; try reflexivity.
    { intros _ HE. discriminate HE. }
    apply Late.
    + vm_compute. reflexivity.
    + vm_compute. intros HG. discriminate HG.
    + exists errPD. split; reflexivity.
Defined.

(** C7 as stated fails.  A first tick, at second 0, receives a retryable
    error and leaves the feed in state Error with a restart pending.  Two
    further ticks follow with no admin job and no report: the one at second
    5 keeps the feed down and changes nothing; the one at second 11, past
    the backoff interval of 10 seconds, lets the feed run again and its
    closures patch the status and the info to Normal. *)
Lemma two_ticks_counterexample :
  option_map (fun '(o1, o2) =>
                (obs_queue o1, obs_positions o1,
                 option_map info_State (obs_info o1), obs_running o1,
                 option_map info_State (obs_info o2), obs_running o2,
                 obs_changed o2))
             waitThenRestart
  = Some ([], [], Some StateError, false, Some StateNormal, true,
          [false; false; true; true]).
Proof. vm_compute. reflexivity. Qed.

(** * Further properties of the manager *)

(** ** The state window *)

Lemma list_set_middle {A : Type} (pre : list A) (x v : A) (rest : list A) :
  list_set (pre ++ x :: rest) (List.length pre) v = pre ++ v :: rest.
Proof. induction pre as [|a pre IH]; simpl; [ reflexivity | now rewrite IH ]. Qed.

Lemma nth_error_middle {A : Type} (pre : list A) (x : A) (rest : list A) :
  nth_error (pre ++ x :: rest) (List.length pre) = Some x.
Proof. induction pre as [|a pre IH]; simpl; [ reflexivity | exact IH ]. Qed.

(** The copying loop of [shiftStateWindow], started at index [k]: every
    entry from [k] on takes the value of its right neighbour, the last one
    keeps its own. *)
Lemma shift_loop (n : nat) :
  forall (pre : list FeedState) (x : FeedState) (rest : list FeedState),
    List.length rest = n ->
    fold_left (fun h i => match nth_error h (S i) with
                          | Some v => list_set h i v
                          | None => h
                          end)
              (seq (List.length pre) n) (pre ++ x :: rest)
    = pre ++ rest ++ [last rest x].
Proof.
  induction n as [|n IH]; intros pre x rest L.
  - destruct rest; [ reflexivity | discriminate ].
  - destruct rest as [|y rest]; [ discriminate | ]. injection L as L.
    cbn [seq fold_left].
    replace (nth_error (pre ++ x :: y :: rest) (S (List.length pre))) with (Some y).
    2:{ change (pre ++ x :: y :: rest) with (pre ++ [x] ++ y :: rest).
        rewrite app_assoc.
        replace (S (List.length pre)) with (List.length (pre ++ [x]))
          by (rewrite length_app; simpl; lia).
        now rewrite nth_error_middle. }
    rewrite list_set_middle.
    replace (S (List.length pre)) with (List.length (pre ++ [y]))
      by (rewrite length_app; simpl; lia).
    change (pre ++ y :: y :: rest) with (pre ++ [y] ++ y :: rest).
    rewrite app_assoc, (IH (pre ++ [y]) y rest L), <- app_assoc.
    destruct rest as [|z rest]; [ reflexivity | ].
    change (last (y :: z :: rest) x) with (last (z :: rest) x).
    rewrite (last_cons_default rest z x y). reflexivity.
Qed.

Lemma shiftStateWindow_history {B : Type} (s : FeedState) (m : feedStateManager B) :
  List.length (stateHistory m) = defaultStateWindowSize ->
  stateHistory (shiftStateWindow s m) = tl (stateHistory m) ++ [s].
Proof.
  unfold shiftStateWindow. cbn [stateHistory set_stateHistory].
  generalize (stateHistory m). intros h L.
  destruct h as [|x rest]; [ discriminate L | ].
  assert (Lr : List.length rest = (defaultStateWindowSize - 1)%nat).
  { simpl in L. injection L as L. rewrite L. reflexivity. }
  generalize dependent (defaultStateWindowSize - 1)%nat. intros n Lr.
  pose proof (shift_loop [] x rest Lr) as E. cbn [List.length app] in E.
  rewrite E. cbn [tl]. rewrite <- Lr.
  apply (list_set_middle rest (last rest x) s []).
Qed.

Lemma shiftStateWindow_length {B : Type} (s : FeedState) (m : feedStateManager B) :
  List.length (stateHistory m) = defaultStateWindowSize ->
  List.length (stateHistory (shiftStateWindow s m)) = defaultStateWindowSize.
Proof.
  intros L. rewrite (shiftStateWindow_history s m L).
  destruct (stateHistory m) as [|x rest]; [ discriminate L | ].
  cbn [tl]. rewrite length_app. simpl in *. lia.
Qed.

Lemma shiftAll_history {B : Type} (samples : list FeedState) :
  forall m : feedStateManager B,
    List.length (stateHistory m) = defaultStateWindowSize ->
    stateHistory (shiftAll samples m)
      = skipn (List.length samples) (stateHistory m ++ samples) /\
    List.length (stateHistory (shiftAll samples m)) = defaultStateWindowSize.
Proof.
  induction samples as [|s samples IH]; intros m L.
  - cbn [shiftAll fold_left List.length skipn]. now rewrite app_nil_r.
  - cbn [shiftAll fold_left].
    destruct (IH (shiftStateWindow s m) (shiftStateWindow_length s m L)) as [E1 E2].
    fold (shiftAll samples (shiftStateWindow s m)). split; [ | exact E2 ].
    rewrite E1, (shiftStateWindow_history s m L).
    destruct (stateHistory m) as [|x rest]; [ discriminate L | ].
    cbn [tl List.length skipn app]. now rewrite <- app_assoc.
Qed.

(** X1.  The state window slides: after a run of samples, one
    [shiftStateWindow] per sample, a window of 512 entries holds the last
    512 entries of the old window followed by the samples, oldest first;
    in particular one shift drops the oldest entry and appends the new
    state.  Its length stays 512. *)
Theorem state_window_slides :
  forall (B : Type) (samples : list FeedState) (m : feedStateManager B),
    List.length (stateHistory m) = defaultStateWindowSize ->
    stateHistory (shiftAll samples m)
      = skipn (List.length samples) (stateHistory m ++ samples) /\
    List.length (stateHistory (shiftAll samples m)) = defaultStateWindowSize /\
    forall s, stateHistory (shiftStateWindow s m) = tl (stateHistory m) ++ [s].
Proof.
  intros B samples m L. destruct (shiftAll_history samples m L) as [E1 E2].
  split; [ exact E1 | split; [ exact E2 | ] ].
  intros s. now apply shiftStateWindow_history.
Qed.

Lemma state_window_slides_witness :
  stateHistory (shiftAll [StateError; StateNormal] sampleManager)
  = skipn 2 (stateHistory sampleManager ++ [StateError; StateNormal]).
Proof.
  assert (L : List.length (stateHistory sampleManager) = defaultStateWindowSize)
    by (vm_compute; reflexivity).
  exact (proj1 (@state_window_slides SimpleBackOff [StateError; StateNormal]
                  sampleManager L)).
Defined.

(** X2.  How long the window remembers.  After at least 512 samples that
    are all Normal the changefeed is stable, whatever the window held
    before.  After a sample other than Normal, followed by fewer than 512
    further samples of any kind, the changefeed is not stable. *)
Theorem state_window_memory :
  forall (B : Type) (m : feedStateManager B),
    List.length (stateHistory m) = defaultStateWindowSize ->
    (forall samples,
        Forall (fun s => s = StateNormal) samples ->
        (defaultStateWindowSize <= List.length samples)%nat ->
        isChangefeedStable (shiftAll samples m) = true) /\
    (forall s samples,
        s <> StateNormal ->
        (List.length samples < defaultStateWindowSize)%nat ->
        isChangefeedStable (shiftAll (s :: samples) m) = false).
Proof.
  intros B m L. split.
  - intros samples F Len. apply isChangefeedStable_all_normal.
    destruct (shiftAll_history samples m L) as [E _]. rewrite E.
    rewrite skipn_app, L.
    rewrite (skipn_all2 (stateHistory m)) by (rewrite L; exact Len).
    cbn [app]. rewrite Forall_forall in *. intros x Hx. apply F.
    rewrite <- (firstn_skipn (List.length samples - defaultStateWindowSize) samples).
    apply in_or_app. now right.
  - intros s samples NS Len.
    destruct (shiftAll_history (s :: samples) m L) as [E _].
    destruct (isChangefeedStable (shiftAll (s :: samples) m)) eqn:St; [ | reflexivity ].
    exfalso. unfold isChangefeedStable in St. rewrite forallb_forall in St.
    assert (Hin : In s (stateHistory (shiftAll (s :: samples) m))).
    { rewrite E, skipn_app. apply in_or_app. right.
      replace (List.length (s :: samples) - List.length (stateHistory m))%nat with 0%nat
        by (rewrite L; cbn [List.length]; lia).
      left. reflexivity. }
    apply St in Hin. apply FeedState_eqb_eq in Hin. contradiction.
Qed.

Lemma state_window_memory_witness :
  isChangefeedStable (shiftAll [StateError; StateNormal; StateNormal] stableManager) = false.
Proof.
  assert (L : List.length (stateHistory stableManager) = defaultStateWindowSize)
    by (vm_compute; reflexivity).
  apply (proj2 (@state_window_memory SimpleBackOff stableManager L)).
  - discriminate.
  - unfold defaultStateWindowSize. cbn [List.length]. lia.
Defined.

(** ** The shape of a tick *)

Section TickShape.
Context {B : Type} `{ExponentialBackOff B} `{ErrorClassifier}.
Implicit Types m : feedStateManager B.

Lemma handleAdminJob_empty m st :
  adminJobQueue m = [] ->
  handleAdminJob (set_state m (Some st)) = Some (false, set_state m (Some st)).
Proof.
  intros Q. unfold handleAdminJob, popAdminJob.
  change (adminJobQueue (set_state m (Some st))) with (adminJobQueue m).
  now rewrite Q.
Qed.

Lemma handleAdminJob_rejected m st job rest info :
  adminJobQueue m = job :: rest ->
  rs_Info st = Some info ->
  handled job st = false ->
  handleAdminJob (set_state m (Some st)) =
  Some (false, set_state (set_adminJobQueue m rest) (Some st)).
Proof.
  unfold handleAdminJob, popAdminJob, handled.
  change (adminJobQueue (set_state m (Some st))) with (adminJobQueue m).
  intros -> I Hd. autorewrite with bound. cbn [bind]. rewrite I in *.
  destruct (ChangeFeedID_eqb (job_CfID job) (rs_ID st)); [ | reflexivity ].
  cbn [negb andb bind] in *.
  destruct (job_Type job); try reflexivity;
    destruct (info_State info); try discriminate Hd; reflexivity.
Qed.

(** The admin job handler on a bound manager whose info exists: it
    returns, takes the head of the queue if there is one, and only appends
    patches. *)
Lemma handleAdminJob_shape m st info :
  rs_Info st = Some info ->
  exists b X new,
    handleAdminJob (set_state m (Some st)) =
      Some (b, set_state X (Some (enqueue_all st new))) /\
    adminJobQueue X = tl (adminJobQueue m) /\
    (shouldBeRemoved m = true -> shouldBeRemoved X = true) /\
    (b = false -> X = set_adminJobQueue m (tl (adminJobQueue m)) /\ new = []) /\
    (b = true -> shouldBeRunning X = true -> lastErrorTime X = time_Unix_0_0).
Proof.
  intros I. destruct (adminJobQueue m) as [|job rest] eqn:Q.
  - exists false, m, []. rewrite enqueue_all_nil.
    split; [ now apply handleAdminJob_empty | ].
    split; [ now rewrite Q | ]. split; [ auto | ].
    split; [ | discriminate ].
    intros _. split; [ | reflexivity ].
    destruct m. simpl in *. now subst.
  - destruct (handled job st) eqn:Hd.
    + exists true, (adminEffect job (set_adminJobQueue m rest)), (adminPatches job).
      split; [ exact (handleAdminJob_handled m st Q Hd) | ].
      destruct (adminEffect_fields job (set_adminJobQueue m rest)) as (A1 & _ & A3).
      split; [ exact A1 | ]. split; [ | split; [ discriminate | ] ].
      * intros R. unfold adminEffect.
        destruct (job_Type job); cbn; try exact R; try reflexivity.
        unfold resetErrBackoff. destruct (NextBackOff _). exact R.
      * intros _ Run. rewrite A3 in Run. unfold handled in Hd. rewrite I in Hd.
        apply andb_prop in Hd. destruct Hd as [_ Pm].
        unfold adminEffect.
        destruct (job_Type job); try discriminate Run; [ discriminate Pm | ].
        reflexivity.
    + exists false, (set_adminJobQueue m rest), []. rewrite enqueue_all_nil.
      split; [ exact (handleAdminJob_rejected m st Q I Hd) | ].
      split; [ reflexivity | ]. split; [ auto | ].
      split; [ | discriminate ]. intros _. split; reflexivity.
Qed.

(** The error handler on a bound manager whose info exists: it returns,
    leaves the queue and the removal flag alone, and only appends patches. *)
Lemma handleError_shape clk errs m st info :
  rs_Info st = Some info ->
  exists X new,
    handleError clk errs (set_state m (Some st)) =
      Some (set_state X (Some (enqueue_all st new))) /\
    adminJobQueue X = adminJobQueue m /\
    shouldBeRemoved X = shouldBeRemoved m /\
    (info_State info <> StateStopped ->
     shouldBeRunning X = true -> lastErrorTime X = time_Unix_0_0).
Proof.
  intros I.
  destruct (find isFastFail errs) as [e|] eqn:F.
  { do 2 eexists. split; [ apply (handleError_fast_fail clk errs m st F) | ].
    split; [ reflexivity | ]. split; [ reflexivity | ]. intros _ Run. discriminate Run. }
  destruct (FeedState_eqb (info_State info) StateStopped) eqn:S.
  { exists m, []. rewrite enqueue_all_nil.
    split; [ | split; [ reflexivity | split; [ reflexivity | ] ] ].
    - unfold handleError. unfold isFastFail in F. rewrite F.
      cbn [state set_state bind]. now rewrite I, S.
    - intros NS. apply FeedState_eqb_eq in S. contradiction. }
  assert (NS : info_State info <> StateStopped).
  { intros E. rewrite E in S. discriminate. }
  destruct (find IsChangefeedUnRetryableError errs) as [e|] eqn:U.
  { do 2 eexists. split.
    - apply handleError_unretryable with (e := e); [ exact F | | exact U ].
      now rewrite I.
    - split; [ reflexivity | ]. split; [ reflexivity | ].
      intros _ Run. discriminate Run. }
  rewrite (handleError_retryable clk errs m st I NS F U).
  rewrite backoffBookkeeping_eq with (info := info); [ | exact I ].
  cbn [bind].
  set (m1 := shiftStateWindow (info_State info)
               (if (0 <? List.length errs)%nat
                then if isChangefeedStable m
                     then resetErrBackoff (set_lastErrorTime m (time_Now (now_error clk)))
                     else set_lastErrorTime m (time_Now (now_error clk))
                else if FeedState_eqb (info_State info) StateNormal
                     then set_lastErrorTime m time_Unix_0_0
                     else m)).
  assert (M1 : adminJobQueue m1 = adminJobQueue m /\
               shouldBeRemoved m1 = shouldBeRemoved m).
  { unfold m1, shiftStateWindow, set_stateHistory.
    cbn [adminJobQueue shouldBeRemoved].
    destruct (0 <? List.length errs)%nat.
    - destruct (isChangefeedStable m); [ | split; reflexivity ].
      unfold resetErrBackoff. destruct (NextBackOff _). split; reflexivity.
    - destruct (FeedState_eqb (info_State info) StateNormal); split; reflexivity. }
  destruct M1 as [Q1 R1].
  destruct (Time_eqb (lastErrorTime m1) time_Unix_0_0) eqn:T.
  { rewrite (restartGate_idle clk m1 _ T). do 2 eexists.
    split; [ reflexivity | ]. split; [ assumption | ]. split; [ assumption | ].
    intros _ _. now apply Time_eqb_eq. }
  destruct (Z.lt_ge_cases (time_Since (now_gate clk) (lastErrorTime m1))
                          (backoffInterval m1)) as [L|L].
  { rewrite (restartGate_wait clk m1 _ T L), enqueue_all_app. do 2 eexists.
    split; [ reflexivity | ]. split; [ assumption | ]. split; [ assumption | ].
    intros _ Run. discriminate Run. }
  rewrite (restartGate_advance clk m1 _ T L). cbv zeta.
  destruct (fst (NextBackOff (errBackoff m1)) =? Stop).
  - rewrite enqueue_all_app. do 2 eexists. split; [ reflexivity | ].
    split; [ assumption | ]. split; [ assumption | ].
    intros _ Run. discriminate Run.
  - do 2 eexists. split; [ reflexivity | ].
    split; [ assumption | ]. split; [ assumption | ].
    intros _ _. reflexivity.
Qed.
End TickShape.

Section TickShape2.
Context {B : Type} `{ExponentialBackOff B} `{ErrorClassifier}.
Implicit Types m : feedStateManager B.

Lemma Tick_reports_shape clk m st info :
  rs_Info st = Some info ->
  exists X new,
    Tick_reports clk (set_state m (Some st)) =
      Some (false, set_state X (Some (enqueue_all st new))) /\
    adminJobQueue X = adminJobQueue m /\
    shouldBeRemoved X = shouldBeRemoved m /\
    (info_State info <> StateStopped ->
     shouldBeRunning X = true -> lastErrorTime X = time_Unix_0_0).
Proof.
  intros I. rewrite Tick_reports_eq.
  destruct (handleError_shape clk (reportedErrors (rs_TaskPositions st)) m
              (enqueue_all st (errorPatches (rs_TaskPositions st))) I)
    as (X & new & E & Q & R & L).
  rewrite E. cbn [bind]. rewrite warnings_tail. rewrite !enqueue_all_app.
  do 2 eexists. split; [ reflexivity | ]. split; [ assumption | ].
  split; assumption.
Qed.

(** Lines 128-147 on a bound manager: the state switch and the handlers. *)
Lemma Tick_switch_shape clk m st info :
  rs_Info st = Some info ->
  (info_State info = StateError -> info_Error info <> None) ->
  exists X new,
    (st0 <- state (set_state m (Some st)) ;;
     info <- rs_Info st0 ;;
     match info_State info with
     | StateRemoved =>
         let m := set_shouldBeRunning (set_state m (Some st)) false in
         let m := set_shouldBeRemoved m true in
         Some (false, m)
     | StateStopped | StateFailed | StateFinished =>
         let m := set_shouldBeRunning (set_state m (Some st)) false in
         Some (false, m)
     | StateError =>
         err <- info_Error info ;;
         if IsChangefeedUnRetryableError err then
           let m := set_shouldBeRunning (set_state m (Some st)) false in
           m <- patchState StateFailed m ;;
           Some (false, m)
         else Tick_reports clk (set_state m (Some st))
     | _ => Tick_reports clk (set_state m (Some st))
     end)
    = Some (false, set_state X (Some (enqueue_all st new))) /\
    adminJobQueue X = adminJobQueue m /\
    (shouldBeRemoved m = true -> shouldBeRemoved X = true) /\
    (shouldBeRunning X = true -> lastErrorTime X = time_Unix_0_0).
Proof.
  intros I E. cbn [state set_state bind]. rewrite I. cbn [bind].
  destruct (Tick_reports_shape clk m st I) as (X & new & T & Q & R & L).
  assert (Rep : info_State info <> StateStopped ->
           exists X new,
             Tick_reports clk (set_state m (Some st)) =
               Some (false, set_state X (Some (enqueue_all st new))) /\
             adminJobQueue X = adminJobQueue m /\
             (shouldBeRemoved m = true -> shouldBeRemoved X = true) /\
             (shouldBeRunning X = true -> lastErrorTime X = time_Unix_0_0)).
  { intros NS. exists X, new. split; [ exact T | ]. split; [ exact Q | ].
    split; [ now rewrite R | now apply L ]. }
  assert (Off : forall Y : feedStateManager B,
             shouldBeRunning (set_shouldBeRunning Y false) = true ->
             lastErrorTime (set_shouldBeRunning Y false) = time_Unix_0_0).
  { intros Y Run. discriminate Run. }
  destruct (info_State info) eqn:S; try (apply Rep; discriminate);
    autorewrite with bound.
  - destruct (info_Error info) as [err|]; [ | exfalso; now apply E ].
    cbn [bind]. destruct (IsChangefeedUnRetryableError err);
      [ | apply Rep; discriminate ].
    autorewrite with bound.
    rewrite patchState_eq with (a := AdminStop) (u := true); [ | reflexivity ].
    cbn [bind]. do 2 eexists. split; [ reflexivity | ].
    split; [ reflexivity | ]. split; [ auto | apply Off ].
  - exists (set_shouldBeRunning m false), []. rewrite enqueue_all_nil.
    split; [ reflexivity | ]. split; [ reflexivity | ]. split; [ auto | apply Off ].
  - exists (set_shouldBeRunning m false), []. rewrite enqueue_all_nil.
    split; [ reflexivity | ]. split; [ reflexivity | ]. split; [ auto | apply Off ].
  - exists (set_shouldBeRemoved (set_shouldBeRunning m false) true), [].
    rewrite enqueue_all_nil. split; [ reflexivity | ]. split; [ reflexivity | ].
    split; [ auto | ]. intros Run. discriminate Run.
  - exists (set_shouldBeRunning m false), []. rewrite enqueue_all_nil.
    split; [ reflexivity | ]. split; [ reflexivity | ]. split; [ auto | apply Off ].
Qed.

(** A tick on an existing info (with an error recorded when the state is
    Error) returns.  The manager it leaves is bound to the state handed in,
    to which patches were only appended, the last ones being those of the
    deferred exit; the queue lost its head. *)
Lemma Tick_shape clk st m info :
  rs_Info st = Some info ->
  (info_State info = StateError -> info_Error info <> None) ->
  exists b X new,
    Tick clk st m =
      Some (b, set_state X
                 (Some (enqueue_all st (new ++ exitPatches (shouldBeRunning X) st)))) /\
    adminJobQueue X = tl (adminJobQueue m) /\
    (shouldBeRemoved m = true -> shouldBeRemoved X = true) /\
    (shouldBeRunning X = true -> lastErrorTime X = time_Unix_0_0).
Proof.
  intros I E. unfold Tick, Tick_body. autorewrite with bound.
  destruct (handleAdminJob_shape (set_shouldBeRunning m true) st I)
    as (b & X & new & A & Q & R & F & L).
  rewrite A. cbn [bind]. destruct b.
  - cbn [bind]. rewrite Tick_deferred_eq. cbn [bind]. rewrite enqueue_all_app.
    exists true, X, new. split; [ reflexivity | ]. split; [ exact Q | ].
    split; [ exact R | exact (L eq_refl) ].
  - destruct (F eq_refl) as [EX ->]. rewrite enqueue_all_nil.
    destruct (Tick_switch_shape clk X st I E) as (X2 & new2 & T & Q2 & R2 & L2).
    cbv zeta in T. rewrite T. cbn [bind]. rewrite Tick_deferred_eq. cbn [bind].
    rewrite enqueue_all_app. exists false, X2, new2.
    split; [ reflexivity | ]. split; [ now rewrite Q2 | ].
    split; [ | exact L2 ].
    intros Rm. apply R2. now apply R.
Qed.

(** With a nil info the handler of admin jobs panics or rejects the job. *)
Lemma handleAdminJob_nil_info m st :
  rs_Info st = None ->
  handleAdminJob (set_state m (Some st)) = None \/
  exists X, handleAdminJob (set_state m (Some st)) =
            Some (false, set_state X (Some st)).
Proof.
  intros I. destruct (adminJobQueue m) as [|job rest] eqn:Q.
  - right. exists m. now apply handleAdminJob_empty.
  - unfold handleAdminJob, popAdminJob.
    change (adminJobQueue (set_state m (Some st))) with (adminJobQueue m).
    rewrite Q. autorewrite with bound. cbn [bind]. rewrite I.
    destruct (negb (ChangeFeedID_eqb (job_CfID job) (rs_ID st)));
      [ right; eexists; reflexivity | ].
    destruct (job_Type job); cbn [bind];
      first [ left; reflexivity | right; eexists; reflexivity ].
Qed.

End TickShape2.

(** ** What every tick does *)

(** X3.  A tick on a reactor state whose info is nil panics, whatever the
    queue, the clock and the reports are: [m.state.Info] is dereferenced
    on every path. *)
Theorem Tick_needs_info :
  forall (B : Type) (BO : ExponentialBackOff B) (EC : ErrorClassifier)
         (clk : TickClock) (st : ChangefeedReactorState) (m : feedStateManager B),
    rs_Info st = None -> Tick clk st m = None.
Proof.
  intros B BO EC clk st m I. unfold Tick, Tick_body. autorewrite with bound.
  destruct (handleAdminJob_nil_info (set_shouldBeRunning m true) st I)
    as [-> | (X & ->)]; [ reflexivity | ].
  cbn [bind state set_state]. rewrite I. reflexivity.
Qed.

Lemma Tick_needs_info_witness :
  Tick (clockAt 5)
    {| rs_ID := sampleID; rs_Info := None; rs_Status := Some (sampleStatus AdminNone);
       rs_TaskPositions := samplePositions; rs_pendingPatches := [] |}
    (set_adminJobQueue sampleManager [sampleResume]) = None.
Proof. apply Tick_needs_info. reflexivity. Defined.

(** X4.  A tick on a reactor state whose info exists (with an error
    recorded when its state is Error) returns, and the manager it leaves
    points to the state handed in, changed only by patches appended to its
    queue: the id, the info, the status and the task positions are the
    ones handed in, so that every write of a tick goes through a patch. *)
Theorem Tick_only_queues :
  forall (B : Type) (BO : ExponentialBackOff B) (EC : ErrorClassifier)
         (clk : TickClock) (st : ChangefeedReactorState) (m : feedStateManager B)
         (info : ChangeFeedInfo),
    rs_Info st = Some info ->
    (info_State info = StateError -> info_Error info <> None) ->
    exists b m' st' new,
      Tick clk st m = Some (b, m') /\
      state m' = Some st' /\
      rs_pendingPatches st' = rs_pendingPatches st ++ new /\
      rs_ID st' = rs_ID st /\
      rs_Info st' = rs_Info st /\
      rs_Status st' = rs_Status st /\
      rs_TaskPositions st' = rs_TaskPositions st.
Proof.
  intros B BO EC clk st m info I E.
  destruct (Tick_shape clk st m I E) as (b & X & new & T & _).
  do 4 eexists. split; [ exact T | ]. split; [ reflexivity | ].
  repeat split.
Qed.

Lemma Tick_only_queues_witness :
  let st := sampleState (sampleInfo StateNormal AdminNone None) AdminNone
              samplePositions in
  exists b m' st' new,
    Tick (clockAt 5) st (set_adminJobQueue sampleManager [sampleResume])
      = Some (b, m') /\
    state m' = Some st' /\
    rs_pendingPatches st' = new /\
    rs_Info st' = rs_Info st /\
    rs_TaskPositions st' = samplePositions.
Proof.
  intros st.
  destruct (@Tick_only_queues SimpleBackOff _ _ (clockAt 5) st
              (set_adminJobQueue sampleManager [sampleResume])
              (sampleInfo StateNormal AdminNone None) eq_refl)
    as (b & m' & st' & new & T & S & P & _ & I & _ & TP).
  { intros HS. discriminate HS. }
  exists b, m', st', new. repeat split; assumption.
Defined.

(** X5.  Every tick that returns takes exactly the job at the head of the
    queue, whether the job is handled or rejected: the queue after the
    tick is the tail of the queue before, so a queue of n jobs needs n
    ticks, and a rejected job is not kept for later. *)
Theorem Tick_takes_head :
  forall (B : Type) (BO : ExponentialBackOff B) (EC : ErrorClassifier)
         (clk : TickClock) (st : ChangefeedReactorState) (m : feedStateManager B)
         (info : ChangeFeedInfo),
    rs_Info st = Some info ->
    (info_State info = StateError -> info_Error info <> None) ->
    exists b m',
      Tick clk st m = Some (b, m') /\
      adminJobQueue m' = tl (adminJobQueue m).
Proof.
  intros B BO EC clk st m info I E.
  destruct (Tick_shape clk st m I E) as (b & X & new & T & Q & _).
  do 2 eexists. split; [ exact T | exact Q ].
Qed.

Lemma Tick_takes_head_witness :
  let st := sampleState (sampleInfo StateNormal AdminNone None) AdminNone
              samplePositions in
  let other := {| job_CfID := {| cf_Namespace := "default"; cf_ID := "feed-2" |};
                  job_Type := AdminStop; job_OverwriteCheckpointTs := 0 |} in
  exists b m',
    Tick (clockAt 5) st (set_adminJobQueue sampleManager [other; sampleResume])
      = Some (b, m') /\
    adminJobQueue m' = [sampleResume].
Proof.
  intros st other.
  destruct (@Tick_takes_head SimpleBackOff _ _ (clockAt 5) st
              (set_adminJobQueue sampleManager [other; sampleResume])
              (sampleInfo StateNormal AdminNone None) eq_refl)
    as (b & m' & T & Q).
  { intros HS. discriminate HS. }
  exists b, m'. split; assumption.
Defined.

(** X6.  The deferred exit closes every tick that returns: the patches a
    tick queues end with the status and info closures of
    [patchState(StateNormal)] when the tick leaves should-run true, and
    with one closure per task position of the state, which removes it,
    when the tick leaves should-run false. *)
Theorem Tick_exit_patches :
  forall (B : Type) (BO : ExponentialBackOff B) (EC : ErrorClassifier)
         (clk : TickClock) (st : ChangefeedReactorState) (m : feedStateManager B)
         (info : ChangeFeedInfo),
    rs_Info st = Some info ->
    (info_State info = StateError -> info_Error info <> None) ->
    exists b m' new,
      Tick clk st m = Some (b, m') /\
      pending m' =
        rs_pendingPatches st ++ new ++
        (if ShouldRunning m'
         then [StatusPatch (patchState_status AdminNone);
               InfoPatch (patchState_info StateNormal AdminNone false)]
         else map (fun entry => TaskPositionPatch (fst entry) cleanUp_position)
                  (rs_TaskPositions st)).
Proof.
  intros B BO EC clk st m info I E.
  destruct (Tick_shape clk st m I E) as (b & X & new & T & _).
  exists b. eexists. exists new. split; [ exact T | ].
  unfold pending, ShouldRunning. cbn [state set_state shouldBeRunning].
  change (shouldBeRunning (set_state X _)) with (shouldBeRunning X).
  unfold enqueue_all, exitPatches. cbn [rs_pendingPatches set_rs_pendingPatches].
  destruct (shouldBeRunning X); reflexivity.
Qed.

Lemma Tick_exit_patches_witness :
  let st := sampleState (sampleInfo StateStopped AdminStop None) AdminStop
              samplePositions in
  exists b m' new,
    Tick (clockAt 5) st sampleManager = Some (b, m') /\
    pending m' =
      new ++
      (if ShouldRunning m'
       then [StatusPatch (patchState_status AdminNone);
             InfoPatch (patchState_info StateNormal AdminNone false)]
       else [TaskPositionPatch "capture-1" cleanUp_position;
             TaskPositionPatch "capture-2" cleanUp_position]).
Proof.
  intros st.
  destruct (@Tick_exit_patches SimpleBackOff _ _ (clockAt 5) st sampleManager
              (sampleInfo StateStopped AdminStop None) eq_refl)
    as (b & m' & new & T & P).
  { intros HS. discriminate HS. }
  exists b, m', new. split; [ exact T | exact P ].
Defined.

(** ** Ticks followed by a round of persistence *)

Lemma ChangeFeedID_eqb_refl id : ChangeFeedID_eqb id id = true.
Proof. unfold ChangeFeedID_eqb. now rewrite !String.eqb_refl. Qed.


(** The closures of [patchState] followed by the clean-up of the task
    positions, persisted. *)
Lemma persist_statePatches_cleanUp s a u st info w :
  rs_pendingPatches st = [] ->
  rs_Info st = Some info ->
  exists flags st' w' info',
    persist (enqueue_all st (statePatches s a u ++ cleanUpPatches (rs_TaskPositions st))) w
      = Some ((flags, st'), w') /\
    rs_Info st' = Some info' /\
    info_State info' = s /\ info_AdminJobType info' = a /\
    info_Error info' = info_Error info /\
    info_Warning info' = info_Warning info /\
    info_StartTs info' = info_StartTs info /\
    rs_Status st' = option_map (fun s0 => set_status_AdminJobType s0 a) (rs_Status st) /\
    rs_TaskPositions st' = [] /\
    rs_pendingPatches st' = [].
Proof.
  intros P I. rewrite persist_enqueue_all by exact P.
  rewrite set_rs_pendingPatches_same by exact P.
  rewrite applyPatches_app.
  destruct (applyPatches_statePatches_full s a u st w I)
    as (f1 & st1 & w1 & info1 & E1 & I1 & S1 & A1 & Er1 & W1 & T1 & St1 & TP1 & P1 & _).
  rewrite E1. cbn [bind].
  rewrite <- TP1. rewrite applyPatches_cleanUp by reflexivity. cbn [bind].
  do 3 eexists. exists info1. split; [ reflexivity | ].
  cbn [rs_Info rs_Status rs_TaskPositions rs_pendingPatches set_rs_TaskPositions].
  rewrite P1, P. repeat split; assumption.
Qed.

(** X7.  A feed in a terminal state discards what the processors report.
    With no admin job queued, a tick that observes the state Stopped,
    Failed, Finished or Removed returns false and leaves should-run false;
    once its patches are applied, the info and the status are the ones
    handed in (no error or warning of a task position is recorded), every
    task position is removed, and the state window, the time of the last
    error and the backoff interval of the manager are untouched. *)
Theorem terminal_state_discards_reports :
  forall (B : Type) (BO : ExponentialBackOff B) (EC : ErrorClassifier)
         (clk : TickClock) (st : ChangefeedReactorState) (m : feedStateManager B)
         (info : ChangeFeedInfo) (w : World),
    adminJobQueue m = [] ->
    rs_pendingPatches st = [] ->
    rs_Info st = Some info ->
    In (info_State info) [StateStopped; StateFailed; StateFinished; StateRemoved] ->
    exists m' st1 flags st',
      Tick clk st m = Some (false, m') /\
      state m' = Some st1 /\
      persist st1 w = Some ((flags, st'), w) /\
      rs_Info st' = Some info /\
      rs_Status st' = rs_Status st /\
      rs_TaskPositions st' = [] /\
      ShouldRunning m' = false /\
      stateHistory m' = stateHistory m /\
      lastErrorTime m' = lastErrorTime m /\
      backoffInterval m' = backoffInterval m.
Proof.
  intros B BO EC clk st m info w Q P I S.
  assert (S' : In (info_State info)
                 [StateRemoved; StateStopped; StateFailed; StateFinished]).
  { simpl in *. intuition. }
  do 4 eexists. split; [ exact (Tick_terminal clk st m Q I S') | ].
  split; [ reflexivity | ].
  split; [ apply persist_cleanUp; exact P | ].
  cbn [rs_Info rs_Status rs_TaskPositions set_rs_TaskPositions].
  unfold ShouldRunning.
  destruct (FeedState_eqb (info_State info) StateRemoved); repeat split; assumption.
Qed.

Lemma terminal_state_discards_reports_witness :
  let st := sampleState (sampleInfo StateStopped AdminStop None) AdminStop
              samplePositions in
  exists m' st1 flags st',
    Tick (clockAt 5) st sampleManager = Some (false, m') /\
    state m' = Some st1 /\
    persist st1 sampleWorld = Some ((flags, st'), sampleWorld) /\
    rs_Info st' = Some (sampleInfo StateStopped AdminStop None) /\
    rs_TaskPositions st' = [].
Proof.
  intros st.
  destruct (@terminal_state_discards_reports SimpleBackOff _ _ (clockAt 5) st
              sampleManager (sampleInfo StateStopped AdminStop None) sampleWorld
              eq_refl eq_refl eq_refl)
    as (m' & st1 & flags & st' & T & S & P & I & _ & TP & _).
  { simpl. auto. }
  exists m', st1, flags, st'. repeat split; assumption.
Defined.

(** X8.  A Remove job addressed to the changefeed, taken in one of the
    states Normal, Error, Failed, Stopped, Finished or Removed, deletes
    the changefeed: the tick returns true with should-run false and
    should-be-removed true, and once its patches are applied the info and
    the status are nil and no task position is left. *)
Theorem remove_job_deletes :
  forall (B : Type) (BO : ExponentialBackOff B) (EC : ErrorClassifier)
         (clk : TickClock) (st : ChangefeedReactorState) (m : feedStateManager B)
         (job : AdminJob) (rest : list AdminJob) (info : ChangeFeedInfo) (w : World),
    adminJobQueue m = job :: rest ->
    job_Type job = AdminRemove ->
    ChangeFeedID_eqb (job_CfID job) (rs_ID st) = true ->
    rs_pendingPatches st = [] ->
    rs_Info st = Some info ->
    In (info_State info) [StateNormal; StateError; StateFailed; StateStopped;
                          StateFinished; StateRemoved] ->
    exists m' st1 flags st',
      Tick clk st m = Some (true, m') /\
      state m' = Some st1 /\
      persist st1 w = Some ((flags, st'), w) /\
      rs_Info st' = None /\
      rs_Status st' = None /\
      rs_TaskPositions st' = [] /\
      ShouldRunning m' = false /\
      ShouldRemoved m' = true /\
      adminJobQueue m' = rest.
Proof.
  intros B BO EC clk st m job rest info w Q T A P I S.
  assert (Hd : handled job st = true).
  { unfold handled. rewrite A, I, T. simpl in S.
    destruct S as [<-|[<-|[<-|[<-|[<-|[<-|[]]]]]]]; reflexivity. }
  rewrite (Tick_handled clk st m Q Hd).
  unfold adminPatches, adminEffect. rewrite T.
  cbn [shouldBeRunning set_shouldBeRemoved set_shouldBeRunning exitPatches].
  do 4 eexists. split; [ reflexivity | ]. split; [ reflexivity | ].
  rewrite persist_enqueue_all by exact P.
  rewrite set_rs_pendingPatches_same by exact P.
  rewrite applyPatches_app. cbn [applyPatches applyPatch remove_info remove_status bind].
  change (rs_TaskPositions st)
    with (rs_TaskPositions (set_rs_Status (set_rs_Info st None) None)) at 1.
  rewrite applyPatches_cleanUp by reflexivity. cbn [bind].
  split; [ reflexivity | ]. repeat split.
Qed.

Lemma remove_job_deletes_witness :
  let st := sampleState (sampleInfo StateFailed AdminStop (Some errGCTTL)) AdminStop
              samplePositions in
  let job := {| job_CfID := sampleID; job_Type := AdminRemove;
                job_OverwriteCheckpointTs := 0 |} in
  exists m' st1 flags st',
    Tick (clockAt 5) st (set_adminJobQueue sampleManager [job]) = Some (true, m') /\
    state m' = Some st1 /\
    persist st1 sampleWorld = Some ((flags, st'), sampleWorld) /\
    rs_Info st' = None /\ rs_Status st' = None /\ rs_TaskPositions st' = [] /\
    ShouldRemoved m' = true.
Proof.
  intros st job.
  destruct (@remove_job_deletes SimpleBackOff _ _ (clockAt 5) st
              (set_adminJobQueue sampleManager [job]) job []
              (sampleInfo StateFailed AdminStop (Some errGCTTL)) sampleWorld
              eq_refl eq_refl eq_refl eq_refl eq_refl)
    as (m' & st1 & flags & st' & T & S & P & I & U & TP & _ & R & _).
  { simpl. auto. }
  exists m', st1, flags, st'. repeat split; assumption.
Defined.

(** X9.  A Stop job addressed to the changefeed, taken in the state Normal
    or Error, stops it: the tick returns true with should-run false, and
    once its patches are applied the info is in state Stopped with admin
    job type AdminStop, its error, warning and start-ts are the ones
    handed in (Stop does not clear the recorded error), the status has
    admin job type AdminStop and no task position is left. *)
Theorem stop_job_stops :
  forall (B : Type) (BO : ExponentialBackOff B) (EC : ErrorClassifier)
         (clk : TickClock) (st : ChangefeedReactorState) (m : feedStateManager B)
         (job : AdminJob) (rest : list AdminJob) (info : ChangeFeedInfo) (w : World),
    adminJobQueue m = job :: rest ->
    job_Type job = AdminStop ->
    ChangeFeedID_eqb (job_CfID job) (rs_ID st) = true ->
    rs_pendingPatches st = [] ->
    rs_Info st = Some info ->
    In (info_State info) [StateNormal; StateError] ->
    exists m' st1 flags st' w' info',
      Tick clk st m = Some (true, m') /\
      state m' = Some st1 /\
      persist st1 w = Some ((flags, st'), w') /\
      rs_Info st' = Some info' /\
      info_State info' = StateStopped /\
      info_AdminJobType info' = AdminStop /\
      info_Error info' = info_Error info /\
      info_Warning info' = info_Warning info /\
      info_StartTs info' = info_StartTs info /\
      rs_Status st' =
        option_map (fun s => set_status_AdminJobType s AdminStop) (rs_Status st) /\
      rs_TaskPositions st' = [] /\
      ShouldRunning m' = false /\
      ShouldRemoved m' = ShouldRemoved m.
Proof.
  intros B BO EC clk st m job rest info w Q T A P I S.
  assert (Hd : handled job st = true).
  { unfold handled. rewrite A, I, T. simpl in S.
    destruct S as [<-|[<-|[]]]; reflexivity. }
  rewrite (Tick_handled clk st m Q Hd).
  unfold adminPatches, adminEffect. rewrite T.
  cbn [shouldBeRunning set_shouldBeRunning exitPatches].
  destruct (persist_statePatches_cleanUp StateStopped AdminStop true st w P I)
    as (flags & st' & w' & info' & E & I' & S' & A' & Er & Wa & Ts & St & TP & _).
  exists (set_state (set_shouldBeRunning
                       (set_adminJobQueue (set_shouldBeRunning m true) rest) false)
            (Some (enqueue_all st (statePatches StateStopped AdminStop true ++
                                   cleanUpPatches (rs_TaskPositions st))))).
  do 3 eexists. exists w', info'.
  split; [ reflexivity | ]. split; [ reflexivity | ]. split; [ exact E | ].
  repeat split; assumption.
Qed.

Lemma stop_job_stops_witness :
  let st := sampleState (sampleInfo StateError AdminStop (Some errPD)) AdminStop
              samplePositions in
  let job := {| job_CfID := sampleID; job_Type := AdminStop;
                job_OverwriteCheckpointTs := 0 |} in
  exists m' st1 flags st' w' info',
    Tick (clockAt 5) st (set_adminJobQueue sampleManager [job]) = Some (true, m') /\
    state m' = Some st1 /\
    persist st1 sampleWorld = Some ((flags, st'), w') /\
    rs_Info st' = Some info' /\
    info_State info' = StateStopped /\
    info_Error info' = Some errPD /\
    rs_TaskPositions st' = [].
Proof.
  intros st job.
  destruct (@stop_job_stops SimpleBackOff _ _ (clockAt 5) st
              (set_adminJobQueue sampleManager [job]) job []
              (sampleInfo StateError AdminStop (Some errPD)) sampleWorld
              eq_refl eq_refl eq_refl eq_refl eq_refl)
    as (m' & st1 & flags & st' & w' & info' & T & S & P & I & Sx & _ & Er & _ & _ & _ & TP & _).
  { simpl. auto. }
  exists m', st1, flags, st', w', info'. repeat split; assumption.
Defined.


(** X10.  [patchState] is idempotent through persistence.  For each of the
    six states it accepts, once its two closures are applied the info has
    the target state; a second [patchState] to the same target then queues
    two closures that both report no change, leave the persisted state as
    it is and do not reach the PD client. *)
Theorem patchState_settles :
  forall (B : Type) (BO : ExponentialBackOff B) (EC : ErrorClassifier)
         (s : FeedState) (m : feedStateManager B) (st : ChangefeedReactorState)
         (info : ChangeFeedInfo) (w : World),
    In s [StateNormal; StateFinished; StateError; StateStopped; StateFailed;
          StateRemoved] ->
    rs_pendingPatches st = [] ->
    rs_Info st = Some info ->
    exists m1 st1 flags st' w' info',
      patchState s (set_state m (Some st)) = Some m1 /\
      state m1 = Some st1 /\
      persist st1 w = Some ((flags, st'), w') /\
      rs_Info st' = Some info' /\
      info_State info' = s /\
      exists m2 st2,
        patchState s (set_state m1 (Some st')) = Some m2 /\
        state m2 = Some st2 /\
        persist st2 w' = Some (([false; false], st'), w').
Proof.
  intros B BO EC s m st info w S P I.
  assert (SW : exists a u, patchState_switch s = Some (a, u)).
  { simpl in S. destruct S as [<-|[<-|[<-|[<-|[<-|[<-|[]]]]]]];
      do 2 eexists; reflexivity. }
  destruct SW as (a & u & SW).
  destruct (applyPatches_statePatches_full s a u st w I)
    as (flags & st' & w' & info' & E & I' & S' & A' & _ & _ & _ & St & _ & P' & _).
  rewrite P in P'.
  exists (set_state m (Some (enqueue_all st (statePatches s a u)))),
         (enqueue_all st (statePatches s a u)), flags, st', w', info'.
  split; [ apply patchState_eq; exact SW | ]. split; [ reflexivity | ].
  split.
  { rewrite persist_enqueue_all by exact P.
    rewrite set_rs_pendingPatches_same by exact P. exact E. }
  split; [ exact I' | ]. split; [ exact S' | ].
  exists (set_state m (Some (enqueue_all st' (statePatches s a u)))),
         (enqueue_all st' (statePatches s a u)).
  split.
  { change (set_state (set_state m (Some (enqueue_all st (statePatches s a u))))
              (Some st'))
      with (set_state m (Some st')).
    apply patchState_eq; exact SW. }
  split; [ reflexivity | ].
  rewrite persist_enqueue_all by exact P'.
  rewrite set_rs_pendingPatches_same by exact P'.
  apply applyPatches_statePatches_settled with (info := info'); auto.
  intros s0 E0. rewrite St in E0. destruct (rs_Status st) as [s1|]; [ | discriminate ].
  injection E0 as <-. reflexivity.
Qed.

Lemma patchState_settles_witness :
  let st := sampleState (sampleInfo StateNormal AdminNone None) AdminNone
              samplePositions in
  exists m1 st1 flags st' w' info',
    patchState StateFailed (set_state sampleManager (Some st)) = Some m1 /\
    state m1 = Some st1 /\
    persist st1 sampleWorld = Some ((flags, st'), w') /\
    rs_Info st' = Some info' /\
    info_State info' = StateFailed /\
    exists m2 st2,
      patchState StateFailed (set_state m1 (Some st')) = Some m2 /\
      state m2 = Some st2 /\
      persist st2 w' = Some (([false; false], st'), w').
Proof.
  intros st.
  apply (@patchState_settles SimpleBackOff _ _ StateFailed sampleManager st
           (sampleInfo StateNormal AdminNone None) sampleWorld).
  - simpl. auto 10.
  - reflexivity.
  - reflexivity.
Defined.

(** X11.  [MarkFinished] before the first tick does nothing.  On a manager
    that a tick has bound to the changefeed, with an empty queue, it
    queues a Finish job which the next tick handles when the feed is
    Normal: that tick returns true with should-run false, and once its
    patches are applied the info is in state Finished with admin job type
    AdminFinish, the status has admin job type AdminFinish, and no task
    position is left. *)
Theorem MarkFinished_finishes :
  forall (B : Type) (BO : ExponentialBackOff B) (EC : ErrorClassifier)
         (m : feedStateManager B),
    (state m = None -> MarkFinished m = m) /\
    forall (clk : TickClock) (st0 st : ChangefeedReactorState)
           (info : ChangeFeedInfo) (w : World),
      state m = Some st0 ->
      rs_ID st0 = rs_ID st ->
      adminJobQueue m = [] ->
      rs_pendingPatches st = [] ->
      rs_Info st = Some info ->
      info_State info = StateNormal ->
      exists m' st1 flags st' w' info',
        Tick clk st (MarkFinished m) = Some (true, m') /\
        state m' = Some st1 /\
        persist st1 w = Some ((flags, st'), w') /\
        rs_Info st' = Some info' /\
        info_State info' = StateFinished /\
        info_AdminJobType info' = AdminFinish /\
        rs_Status st' =
          option_map (fun s => set_status_AdminJobType s AdminFinish) (rs_Status st) /\
        rs_TaskPositions st' = [] /\
        ShouldRunning m' = false /\
        adminJobQueue m' = [].
Proof.
  intros B BO EC m. split.
  { intros S. unfold MarkFinished. now rewrite S. }
  intros clk st0 st info w S ID Q P I N.
  set (job := {| job_CfID := rs_ID st0; job_Type := AdminFinish;
                 job_OverwriteCheckpointTs := 0 |}).
  assert (Q' : adminJobQueue (MarkFinished m) = [job]).
  { unfold MarkFinished. rewrite S. unfold pushAdminJob.
    cbn [adminJobQueue set_adminJobQueue]. now rewrite Q. }
  assert (Hd : handled job st = true).
  { unfold handled, job. cbn [job_CfID job_Type]. rewrite ID, ChangeFeedID_eqb_refl, I, N.
    reflexivity. }
  rewrite (Tick_handled clk st (MarkFinished m) Q' Hd).
  unfold adminPatches, adminEffect, job. cbn [job_Type].
  cbn [shouldBeRunning set_shouldBeRunning exitPatches].
  destruct (persist_statePatches_cleanUp StateFinished AdminFinish true st w P I)
    as (flags & st' & w' & info' & E & I' & S' & A' & _ & _ & _ & St & TP & _).
  exists (set_state (set_shouldBeRunning
                       (set_adminJobQueue (set_shouldBeRunning (MarkFinished m) true) [])
                       false)
            (Some (enqueue_all st (statePatches StateFinished AdminFinish true ++
                                   cleanUpPatches (rs_TaskPositions st))))).
  do 3 eexists. exists w', info'.
  split; [ reflexivity | ]. split; [ reflexivity | ]. split; [ exact E | ].
  repeat split; assumption.
Qed.

Lemma MarkFinished_finishes_witness :
  let st := sampleState (sampleInfo StateNormal AdminNone None) AdminNone
              samplePositions in
  let m := set_state sampleManager (Some st) in
  exists m' st1 flags st' w' info',
    Tick (clockAt 5) st (MarkFinished m) = Some (true, m') /\
    state m' = Some st1 /\
    persist st1 sampleWorld = Some ((flags, st'), w') /\
    rs_Info st' = Some info' /\
    info_State info' = StateFinished /\
    rs_TaskPositions st' = [].
Proof.
  intros st m.
  destruct (proj2 (@MarkFinished_finishes SimpleBackOff _ _ m) (clockAt 5) st st
              (sampleInfo StateNormal AdminNone None) sampleWorld
              eq_refl eq_refl eq_refl eq_refl eq_refl eq_refl)
    as (m' & st1 & flags & st' & w' & info' & T & S & P & I & F & _ & _ & TP & _).
  exists m', st1, flags, st', w', info'. repeat split; assumption.
Defined.

Lemma set_adminJobQueue_same {B : Type} (m : feedStateManager B) :
  set_adminJobQueue m (adminJobQueue m) = m.
Proof. now destruct m. Qed.

(** X12.  [PushAdminJob] accepts Stop, Resume and Remove jobs and panics on
    any other type.  A run of pushes therefore returns exactly when every
    job has one of the three types, and it then leaves the queue extended
    by the jobs in the order of the calls, nothing else of the manager
    being changed. *)
Theorem PushAdminJob_fifo :
  forall (B : Type) (BO : ExponentialBackOff B) (EC : ErrorClassifier)
         (jobs : list AdminJob) (m : feedStateManager B),
    performAll (map OpPushAdminJob jobs) m =
    if forallb (fun job => match job_Type job with
                           | AdminStop | AdminResume | AdminRemove => true
                           | _ => false
                           end) jobs
    then Some (set_adminJobQueue m (adminJobQueue m ++ jobs))
    else None.
Proof.
  intros B BO EC jobs. induction jobs as [|job jobs IH]; intros m.
  - cbn [map performAll forallb]. now rewrite app_nil_r, set_adminJobQueue_same.
  - cbn [map performAll forallb perform]. unfold PushAdminJob.
    destruct (job_Type job); cbn [bind andb]; try reflexivity;
      rewrite IH; unfold pushAdminJob; cbn [adminJobQueue set_adminJobQueue];
      rewrite <- app_assoc;
      (destruct (forallb _ jobs); reflexivity).
Qed.

(** ** The reports of the processors *)

Lemma code_insert_In c e mp k v :
  In (k, v) (code_insert c e mp) -> (k = c /\ v = e) \/ In (k, v) mp.
Proof.
  induction mp as [|[c0 e0] rest IH]; cbn [code_insert].
  - intros [E|[]]. injection E as <- <-. now left.
  - destruct (String.eqb c0 c) eqn:Ec.
    + apply String.eqb_eq in Ec. subst c0. intros [E|I].
      * injection E as <- <-. now left.
      * right. now right.
    + intros [E|I].
      * right. now left.
      * destruct (IH I) as [L|R]; [ now left | right; now right ].
Qed.

Lemma code_insert_has c e mp : In (c, e) (code_insert c e mp).
Proof.
  induction mp as [|[c0 e0] rest IH]; cbn [code_insert].
  - now left.
  - destruct (String.eqb c0 c) eqn:Ec.
    + apply String.eqb_eq in Ec. subst c0. now left.
    + now right.
Qed.

Lemma code_insert_keys c e mp k :
  In k (map fst (code_insert c e mp)) <-> k = c \/ In k (map fst mp).
Proof.
  induction mp as [|[c0 e0] rest IH]; cbn [code_insert map fst In].
  - intuition.
  - destruct (String.eqb c0 c) eqn:Ec; cbn [map fst In].
    + apply String.eqb_eq in Ec. subst c0. intuition.
    + rewrite IH. intuition.
Qed.

Lemma code_insert_NoDup c e mp :
  NoDup (map fst mp) -> NoDup (map fst (code_insert c e mp)).
Proof.
  induction mp as [|[c0 e0] rest IH]; cbn [code_insert map fst]; intros N.
  - constructor; [ intros [] | constructor ].
  - destruct (String.eqb c0 c) eqn:Ec; cbn [map fst].
    + exact N.
    + inversion N as [|? ? NI N']. subst. constructor; [ | now apply IH ].
      rewrite code_insert_keys. intros [E|I]; [ | now apply NI ].
      subst c0. rewrite String.eqb_refl in Ec. discriminate.
Qed.

Section ByCode.
Variable proj : TaskPosition -> option RunningError.

(** The map built by the loops of [errorsReportedByProcessors] and
    [warningsReportedByProcessors]: its keys are distinct, every entry is
    keyed by its code and was reported by a position, and the code of
    every report is a key. *)
Lemma byCode_spec (tps : list (CaptureID * TaskPosition)) :
  forall acc,
    NoDup (map fst acc) ->
    (forall k v, In (k, v) acc -> k = err_Code v) ->
    let r := fold_left (fun acc entry => match proj (snd entry) with
                                         | Some e => code_insert (err_Code e) e acc
                                         | None => acc
                                         end) tps acc in
    NoDup (map fst r) /\
    (forall k v, In (k, v) r -> k = err_Code v) /\
    (forall k v, In (k, v) r ->
       In (k, v) acc \/ exists c p, In (c, p) tps /\ proj p = Some v) /\
    (forall k, In k (map fst acc) -> In k (map fst r)) /\
    (forall c p e, In (c, p) tps -> proj p = Some e -> In (err_Code e) (map fst r)).
Proof.
  induction tps as [|[c p] rest IH]; intros acc N K; cbn [fold_left snd].
  - repeat split; auto. intros c p e [].
  - set (acc1 := match proj p with
                 | Some e => code_insert (err_Code e) e acc
                 | None => acc
                 end).
    assert (N1 : NoDup (map fst acc1)).
    { unfold acc1. destruct (proj p); [ now apply code_insert_NoDup | exact N ]. }
    assert (K1 : forall k v, In (k, v) acc1 -> k = err_Code v).
    { unfold acc1. destruct (proj p) as [e|]; [ | exact K ].
      intros k v I. destruct (code_insert_In _ _ _ _ _ I) as [[-> ->]|I']; auto. }
    destruct (IH acc1 N1 K1) as (R1 & R2 & R3 & R4 & R5).
    split; [ exact R1 | ]. split; [ exact R2 | ]. split; [ | split ].
    + intros k v I. destruct (R3 k v I) as [I1|(c' & p' & I' & P')].
      * unfold acc1 in I1. destruct (proj p) as [e|] eqn:Pp; [ | now left ].
        destruct (code_insert_In _ _ _ _ _ I1) as [[-> ->]|I']; [ | now left ].
        right. exists c, p. split; [ now left | exact Pp ].
      * right. exists c', p'. split; [ now right | exact P' ].
    + intros k I. apply R4. unfold acc1.
      destruct (proj p); [ apply code_insert_keys; now right | exact I ].
    + intros c' p' e [E|I] P'.
      * injection E as <- <-. apply R4. unfold acc1. rewrite P'.
        apply code_insert_keys. now left.
      * now apply (R5 c' p' e).
Qed.

Lemma byCode_values (tps : list (CaptureID * TaskPosition)) :
  let errs := map snd (fold_left (fun acc entry =>
                                    match proj (snd entry) with
                                    | Some e => code_insert (err_Code e) e acc
                                    | None => acc
                                    end) tps []) in
  NoDup (map err_Code errs) /\
  (forall e, In e errs -> exists c p, In (c, p) tps /\ proj p = Some e) /\
  (forall c p e, In (c, p) tps -> proj p = Some e ->
     exists e', In e' errs /\ err_Code e' = err_Code e).
Proof.
  assert (N0 : NoDup (map fst (@nil (string * RunningError)))) by constructor.
  assert (K0 : forall k v, In (k, v) (@nil (string * RunningError)) -> k = err_Code v)
    by (intros k v []).
  destruct (byCode_spec tps [] N0 K0) as (R1 & R2 & R3 & _ & R5).
  cbv zeta. set (r := fold_left _ tps []) in *.
  assert (KE : map err_Code (map snd r) = map fst r).
  { rewrite map_map. apply map_ext_in. intros [k v] I. cbn [fst snd].
    symmetry. now apply R2. }
  split; [ now rewrite KE | ]. split.
  - intros e I. apply in_map_iff in I. destruct I as ([k v] & <- & I).
    destruct (R3 k v I) as [[]|X]. exact X.
  - intros c p e I P. specialize (R5 c p e I P).
    apply in_map_iff in R5. destruct R5 as ([k v] & Ek & Iv). cbn [fst] in Ek.
    exists v. split.
    + apply in_map_iff. exists (k, v). split; [ reflexivity | exact Iv ].
    + rewrite <- (R2 k v Iv). exact Ek.
Qed.
End ByCode.

Lemma errorPatches_length tps :
  List.length (errorPatches tps) =
  List.length (filter (fun entry => match pos_Error (snd entry) with
                                    | Some _ => true
                                    | None => false
                                    end) tps).
Proof.
  unfold errorPatches. induction tps as [|[c p] rest IH]; [ reflexivity | ].
  cbn [flat_map filter snd]. destruct (pos_Error p); cbn [app List.length];
    now rewrite IH.
Qed.

(** X13.  [errorsReportedByProcessors] on a bound manager returns, and the
    errors it returns are the reports of the task positions with one error
    per code: their codes are pairwise distinct, each of them is the error
    of some task position, and every error of a task position has its code
    among them.  The manager is changed only by the patches queued, one
    per task position that holds an error. *)
Theorem errors_reported_once_per_code :
  forall (B : Type) (BO : ExponentialBackOff B) (EC : ErrorClassifier)
         (m : feedStateManager B) (st : ChangefeedReactorState),
    exists errs new,
      errorsReportedByProcessors (set_state m (Some st)) =
        Some (errs, set_state m (Some (enqueue_all st new))) /\
      NoDup (map err_Code errs) /\
      (forall e, In e errs ->
         exists c p, In (c, p) (rs_TaskPositions st) /\ pos_Error p = Some e) /\
      (forall c p e, In (c, p) (rs_TaskPositions st) -> pos_Error p = Some e ->
         exists e', In e' errs /\ err_Code e' = err_Code e) /\
      List.length new =
        List.length (filter (fun entry => match pos_Error (snd entry) with
                                          | Some _ => true
                                          | None => false
                                          end) (rs_TaskPositions st)).
Proof.
  intros B BO EC m st.
  exists (reportedErrors (rs_TaskPositions st)), (errorPatches (rs_TaskPositions st)).
  split; [ apply errorsReportedByProcessors_eq | ].
  destruct (byCode_values pos_Error (rs_TaskPositions st)) as (R1 & R2 & R3).
  split; [ exact R1 | ]. split; [ exact R2 | ]. split; [ exact R3 | ].
  apply errorPatches_length.
Qed.

Lemma tp_lookup_app pre c p suf :
  ~ In c (map fst pre) ->
  tp_lookup c (pre ++ (c, p) :: suf) = Some p.
Proof.
  induction pre as [|[c' p'] pre IH]; cbn [app tp_lookup map fst In]; intros N.
  - now rewrite String.eqb_refl.
  - destruct (String.eqb c' c) eqn:E.
    + apply String.eqb_eq in E. exfalso. apply N. now left.
    + apply IH. intros I. apply N. now right.
Qed.

Lemma tp_store_app pre c p p' suf :
  ~ In c (map fst pre) ->
  tp_store c (Some p') (pre ++ (c, p) :: suf) = pre ++ (c, p') :: suf.
Proof.
  induction pre as [|[c0 p0] pre IH]; cbn [app tp_store map fst In]; intros N.
  - now rewrite String.eqb_refl.
  - destruct (String.eqb c0 c) eqn:E.
    + apply String.eqb_eq in E. exfalso. apply N. now left.
    + f_equal. apply IH. intros I. apply N. now right.
Qed.

Lemma set_pos_Error_same p : pos_Error p = None -> set_pos_Error p None = p.
Proof. destruct p. simpl. now intros ->. Qed.

(** The closures queued by [errorsReportedByProcessors], applied to task
    positions with distinct capture ids: every error is cleared, and
    nothing else is touched. *)
Lemma applyPatches_errorPatches suf :
  forall pre st w,
    rs_TaskPositions st = pre ++ suf ->
    NoDup (map fst (pre ++ suf)) ->
    exists flags st',
      applyPatches (errorPatches suf) st w = Some ((flags, st'), w) /\
      rs_TaskPositions st' =
        pre ++ map (fun entry => (fst entry, set_pos_Error (snd entry) None)) suf /\
      rs_Info st' = rs_Info st /\
      rs_Status st' = rs_Status st /\
      rs_pendingPatches st' = rs_pendingPatches st /\
      Forall (fun changed => changed = true) flags.
Proof.
  induction suf as [|[c p] suf IH]; intros pre st w T N.
  - exists [], st. split; [ reflexivity | ]. cbn [map]. repeat split; auto.
  - unfold errorPatches. cbn [flat_map fst snd map].
    fold (errorPatches suf).
    assert (NI : ~ In c (map fst pre)).
    { rewrite map_app in N. apply NoDup_remove_2 in N. intros I. apply N.
      apply in_or_app. now left. }
    destruct (pos_Error p) as [e|] eqn:Pe.
    + cbn [app applyPatches]. unfold applyPatch, clear_position_Error.
      rewrite T, (@tp_lookup_app pre c p suf NI). cbn [bind].
      rewrite (@tp_store_app pre c p (set_pos_Error p None) suf NI).
      set (p' := set_pos_Error p None).
      set (st1 := set_rs_TaskPositions st (pre ++ (c, p') :: suf)).
      destruct (IH (pre ++ [(c, p')]) st1 w) as (flags & st' & E & T' & I' & S' & P' & F').
      { unfold st1. cbn [rs_TaskPositions set_rs_TaskPositions].
        now rewrite <- app_assoc. }
      { rewrite <- app_assoc. cbn [app]. rewrite map_app in *. exact N. }
      rewrite E. cbn [bind]. exists (true :: flags), st'.
      split; [ reflexivity | ]. rewrite T', <- app_assoc. cbn [app].
      repeat split; auto.
    + cbn [app]. rewrite (set_pos_Error_same p Pe).
      destruct (IH (pre ++ [(c, p)]) st w) as (flags & st' & E & T' & R).
      { now rewrite <- app_assoc. }
      { now rewrite <- app_assoc. }
      exists flags, st'. split; [ exact E | ].
      rewrite T', <- app_assoc. cbn [app]. split; [ reflexivity | exact R ].
Qed.

Lemma reportedErrors_cleared tps :
  reportedErrors (map (fun entry => (fst entry, set_pos_Error (snd entry) None)) tps) = [] /\
  errorPatches (map (fun entry => (fst entry, set_pos_Error (snd entry) None)) tps) = [].
Proof.
  unfold reportedErrors, errorsByCode, errorPatches.
  induction tps as [|[c p] tps [IH1 IH2]]; [ split; reflexivity | ].
  cbn [map fold_left flat_map fst snd]. split; [ exact IH1 | exact IH2 ].
Qed.

(** X14.  An error of a task position is reported once.  When the capture
    ids of the task positions are distinct, applying the patches queued by
    [errorsReportedByProcessors] clears the error of every task position
    and changes nothing else of the position, the info or the status; a
    second call on the persisted state then returns no error and queues no
    patch. *)
Theorem errors_reported_then_cleared :
  forall (B : Type) (BO : ExponentialBackOff B) (EC : ErrorClassifier)
         (m : feedStateManager B) (st : ChangefeedReactorState) (w : World),
    NoDup (map fst (rs_TaskPositions st)) ->
    rs_pendingPatches st = [] ->
    exists errs m1 st1 flags st',
      errorsReportedByProcessors (set_state m (Some st)) = Some (errs, m1) /\
      state m1 = Some st1 /\
      persist st1 w = Some ((flags, st'), w) /\
      rs_TaskPositions st' =
        map (fun entry => (fst entry, set_pos_Error (snd entry) None))
            (rs_TaskPositions st) /\
      rs_Info st' = rs_Info st /\
      rs_Status st' = rs_Status st /\
      errorsReportedByProcessors (set_state m1 (Some st')) =
        Some ([], set_state m1 (Some st')).
Proof.
  intros B BO EC m st w N P.
  destruct (applyPatches_errorPatches (rs_TaskPositions st) [] st w eq_refl N)
    as (flags & st' & E & T & I & S & _).
  cbn [app] in T.
  exists (reportedErrors (rs_TaskPositions st)),
         (set_state m (Some (enqueue_all st (errorPatches (rs_TaskPositions st))))),
         (enqueue_all st (errorPatches (rs_TaskPositions st))), flags, st'.
  split; [ apply errorsReportedByProcessors_eq | ]. split; [ reflexivity | ].
  split.
  { rewrite persist_enqueue_all by exact P.
    rewrite set_rs_pendingPatches_same by exact P. exact E. }
  split; [ exact T | ]. split; [ exact I | ]. split; [ exact S | ].
  change (set_state (set_state m _) (Some st')) with (set_state m (Some st')).
  rewrite errorsReportedByProcessors_eq, T.
  destruct (reportedErrors_cleared (rs_TaskPositions st)) as [-> ->].
  now rewrite enqueue_all_nil.
Qed.

Lemma errors_reported_then_cleared_witness :
  let st := sampleState (sampleInfo StateNormal AdminNone None) AdminNone
              samplePositions in
  exists errs m1 st1 flags st',
    errorsReportedByProcessors (set_state sampleManager (Some st)) = Some (errs, m1) /\
    state m1 = Some st1 /\
    persist st1 sampleWorld = Some ((flags, st'), sampleWorld) /\
    map (fun entry => pos_Error (snd entry)) (rs_TaskPositions st') = [None; None] /\
    errorsReportedByProcessors (set_state m1 (Some st')) =
      Some ([], set_state m1 (Some st')).
Proof.
  intros st.
  destruct (@errors_reported_then_cleared SimpleBackOff _ _ sampleManager st sampleWorld)
    as (errs & m1 & st1 & flags & st' & E & S & P & T & _ & _ & E2).
  { repeat constructor; simpl; intuition discriminate. }
  { reflexivity. }
  exists errs, m1, st1, flags, st'.
  split; [ exact E | ]. split; [ exact S | ]. split; [ exact P | ].
  split; [ rewrite T; reflexivity | exact E2 ].
Defined.

(** ** Warnings *)

Lemma no_errors_nil tps :
  no_errors tps = true -> reportedErrors tps = [] /\ errorPatches tps = [].
Proof.
  unfold reportedErrors, errorPatches, errorsByCode.
  induction tps as [|[c p] tps IH]; simpl; [ auto | ].
  destruct (pos_Error p); [ discriminate | ]. exact IH.
Qed.

Lemma fold_set_info_Warning_last errs info :
  info_Warning (fold_left (fun info err => set_info_Warning info (Some err)) errs info)
  = last (map Some errs) (info_Warning info).
Proof.
  revert info. induction errs as [|e errs IH]; intros info; [ reflexivity | ].
  cbn [fold_left map]. rewrite IH. cbn [info_Warning set_info_Warning].
  destruct errs as [|r errs]; [ reflexivity | ].
  apply (last_cons_default (map Some errs) (Some r)).
Qed.

Lemma last_map_Some {A : Type} (l : list A) (d : option A) :
  l <> [] -> exists a, In a l /\ last (map Some l) d = Some a.
Proof.
  induction l as [|a l IH]; intros N; [ now destruct N | ].
  destruct l as [|b l].
  - exists a. split; [ now left | reflexivity ].
  - destruct IH as (x & I & E); [ discriminate | ].
    exists x. split; [ now right | exact E ].
Qed.

(** The info closures of a tick without errors on a Normal feed, run on an
    existing info. *)
Lemma runInfo_warnings ws info w :
  exists info' w',
    runInfo [record_errors []; record_warnings ws;
             patchState_info StateNormal AdminNone false] (Some info) w
      = Some (Some info', w') /\
    info_State info' = StateNormal /\
    info_AdminJobType info' = AdminNone /\
    info_Error info' = info_Error info /\
    info_Warning info' = last (map Some ws) (info_Warning info) /\
    info_StartTs info' = info_StartTs info.
Proof.
  rewrite runInfo_cons_Some with (info' := info) (changed := false) (w1 := w);
    [ | reflexivity ].
  set (info1 := fold_left (fun info err => set_info_Warning info (Some err)) ws info).
  rewrite runInfo_cons_Some
    with (info' := info1) (changed := (0 <? List.length ws)%nat) (w1 := w);
    [ | reflexivity ].
  assert (E1 : (if (0 <? List.length ws)%nat then info1 else info) = info1).
  { unfold info1. now destruct ws. }
  rewrite E1.
  destruct (patchState_info_effect StateNormal AdminNone false info1 w)
    as (info2 & c & w' & E & S & A & Er & Wa & Ts).
  rewrite runInfo_cons_Some with (info' := info2) (changed := c) (w1 := w');
    [ | exact E ].
  cbn [runInfo]. do 2 eexists. split; [ reflexivity | ].
  cbv zeta in S, A, Er, Wa, Ts.
  destruct (fold_set_info_Warning ws info) as (F1 & F2 & F3 & F4 & F5).
  fold info1 in F1, F2, F3, F4, F5.
  split; [ exact S | ]. split; [ exact A | ].
  split; [ now rewrite Er | ].
  split; [ rewrite Wa; apply fold_set_info_Warning_last | now rewrite Ts ].
Qed.

Section Warnings.
Context {B : Type} `{ExponentialBackOff B} `{ErrorClassifier}.
Implicit Types m : feedStateManager B.

(** A tick on a Normal feed, with no admin job and no error reported. *)
Lemma Tick_no_errors clk st m info :
  adminJobQueue m = [] ->
  rs_Info st = Some info ->
  info_State info = StateNormal ->
  no_errors (rs_TaskPositions st) = true ->
  Tick clk st m =
  Some (false,
        set_state (quiet_manager StateNormal m)
          (Some (enqueue_all st
             ([InfoPatch (record_errors [])] ++
              warningPatches (rs_TaskPositions st) ++
              [InfoPatch (record_warnings (reportedWarnings (rs_TaskPositions st)))] ++
              statePatches StateNormal AdminNone false)))).
Proof.
  intros Q I N NE.
  destruct (no_errors_nil _ NE) as (E1 & E2).
  assert (R : reaches_handlers info = true).
  { unfold reaches_handlers. now rewrite N. }
  assert (NS : info_State info <> StateStopped).
  { rewrite N. discriminate. }
  rewrite Tick_handler_runs with (info := info)
    (X := quiet_manager StateNormal m)
    (new := [InfoPatch (record_errors [])]); [ | exact Q | exact I | exact R | | ].
  - rewrite E2. reflexivity.
  - rewrite E1, E2.
    rewrite handleError_retryable with (info := info);
      [ | exact I | exact NS | reflexivity | reflexivity ].
    rewrite backoffBookkeeping_eq with (info := info); [ | exact I ].
    rewrite N. cbn [List.length Nat.ltb Nat.leb bind FeedState_eqb].
    rewrite restartGate_idle.
    + unfold quiet_manager. cbn [FeedState_eqb]. rewrite !enqueue_all_app. reflexivity.
    + destruct (shiftStateWindow_fields StateNormal
                  (set_lastErrorTime (set_shouldBeRunning m true) time_Unix_0_0))
        as (_ & _ & A & _).
      rewrite A. reflexivity.
  - unfold quiet_manager. cbn [FeedState_eqb].
    destruct (shiftStateWindow_fields StateNormal
                (set_lastErrorTime (set_shouldBeRunning m true) time_Unix_0_0))
      as (_ & _ & _ & A & _).
    rewrite A. reflexivity.
Qed.
End Warnings.

Lemma quiet_manager_running {B : Type} (m : feedStateManager B) st :
  ShouldRunning (set_state (quiet_manager StateNormal m) st) = true.
Proof.
  unfold ShouldRunning, set_state. cbn [shouldBeRunning].
  unfold quiet_manager. cbn [FeedState_eqb].
  destruct (shiftStateWindow_fields StateNormal
              (set_lastErrorTime (set_shouldBeRunning m true) time_Unix_0_0))
    as (_ & _ & _ & R & _).
  rewrite R. reflexivity.
Qed.

(** X15.  Warnings do not stop a feed.  A tick on a Normal feed, with no
    admin job queued and no error reported, returns false and leaves
    should-run true whatever warnings the task positions carry; once its
    patches are applied the info is still Normal with the error it had,
    and its warning is the warning of some task position when one reports
    a warning, and the warning it had when none does. *)
Theorem warnings_do_not_stop :
  forall (B : Type) (BO : ExponentialBackOff B) (EC : ErrorClassifier)
         (clk : TickClock) (st : ChangefeedReactorState) (m : feedStateManager B)
         (info : ChangeFeedInfo) (w : World),
    adminJobQueue m = [] ->
    rs_pendingPatches st = [] ->
    rs_Info st = Some info ->
    info_State info = StateNormal ->
    no_errors (rs_TaskPositions st) = true ->
    exists m' st1 flags st' w' info',
      Tick clk st m = Some (false, m') /\
      ShouldRunning m' = true /\
      state m' = Some st1 /\
      persist st1 w = Some ((flags, st'), w') /\
      rs_Info st' = Some info' /\
      info_State info' = StateNormal /\
      info_Error info' = info_Error info /\
      ((forall c p, In (c, p) (rs_TaskPositions st) -> pos_Warning p = None) ->
       info_Warning info' = info_Warning info) /\
      (forall c p wn, In (c, p) (rs_TaskPositions st) -> pos_Warning p = Some wn ->
       exists c' p' wn',
         In (c', p') (rs_TaskPositions st) /\ pos_Warning p' = Some wn' /\
         info_Warning info' = Some wn').
Proof.
  intros B BO EC clk st m info w Q P I N NE.
  set (tps := rs_TaskPositions st).
  set (ws := reportedWarnings tps).
  destruct (byCode_values pos_Warning tps) as (_ & Sound & Complete).
  fold (warningsByCode tps []) in Sound, Complete.
  fold (reportedWarnings tps) in Sound, Complete. fold ws in Sound, Complete.
  destruct (runInfo_warnings ws info w) as (info' & w' & RI & S' & _ & Er & Wa & _).
  destruct (warningPatches_quiet tps) as [Q2 I2].
  set (ps := [InfoPatch (record_errors [])] ++ warningPatches tps ++
             [InfoPatch (record_warnings ws)] ++
             statePatches StateNormal AdminNone false).
  assert (IC : infoClosures ps =
               [record_errors []; record_warnings ws;
                patchState_info StateNormal AdminNone false]).
  { unfold ps. rewrite !infoClosures_app, I2. reflexivity. }
  destruct (@applyPatches_info ps) with (st := st) (w := w)
    (v' := Some info') (w' := w') as (flags & st' & A & I').
  { unfold ps. apply Forall_app. split; [ repeat constructor | ].
    apply Forall_app. split; [ exact Q2 | ].
    apply Forall_app. split; [ repeat constructor | ].
    repeat constructor. apply quiet_patchState_status. }
  { rewrite IC, I. exact RI. }
  exists (set_state (quiet_manager StateNormal m) (Some (enqueue_all st ps))),
         (enqueue_all st ps), flags, st', w', info'.
  split; [ exact (Tick_no_errors clk st m Q I N NE) | ].
  split.
  { apply quiet_manager_running. }
  split; [ reflexivity | ].
  split.
  { rewrite persist_enqueue_all by exact P.
    rewrite set_rs_pendingPatches_same by exact P. exact A. }
  split; [ exact I' | ]. split; [ exact S' | ]. split; [ exact Er | ].
  split.
  - intros None_. rewrite Wa. destruct ws as [|e ws']; [ reflexivity | ].
    destruct (Sound e) as (c & p & Ip & Pp); [ now left | ].
    rewrite (None_ c p Ip) in Pp. discriminate.
  - intros c p wn Ip Pp.
    destruct (Complete c p wn Ip Pp) as (e' & Ie' & _).
    assert (NN : ws <> []) by (intros E; rewrite E in Ie'; destruct Ie').
    destruct (last_map_Some (info_Warning info) NN) as (x & Ix & L).
    destruct (Sound x Ix) as (c' & p' & Ip' & Pp').
    exists c', p', x. split; [ exact Ip' | ]. split; [ exact Pp' | ].
    rewrite Wa. exact L.
Qed.

Lemma warnings_do_not_stop_witness :
  let tps := [("capture-1", {| pos_CheckPointTs := 110; pos_ResolvedTs := 115;
                               pos_Error := None; pos_Warning := Some errSink |})] in
  let st := sampleState (sampleInfo StateNormal AdminNone None) AdminNone tps in
  exists m' st1 flags st' w' info',
    Tick (clockAt 5) st sampleManager = Some (false, m') /\
    ShouldRunning m' = true /\
    state m' = Some st1 /\
    persist st1 sampleWorld = Some ((flags, st'), w') /\
    rs_Info st' = Some info' /\
    info_State info' = StateNormal /\
    info_Warning info' = Some errSink.
Proof.
  intros tps st.
  destruct (@warnings_do_not_stop SimpleBackOff _ _ (clockAt 5) st sampleManager
              (sampleInfo StateNormal AdminNone None) sampleWorld
              eq_refl eq_refl eq_refl eq_refl eq_refl)
    as (m' & st1 & flags & st' & w' & info' & T & R & S & P & I & N & _ & _ & W).
  exists m', st1, flags, st', w', info'.
  split; [ exact T | ]. split; [ exact R | ]. split; [ exact S | ].
  split; [ exact P | ]. split; [ exact I | ]. split; [ exact N | ].
  destruct (W "capture-1"
              {| pos_CheckPointTs := 110; pos_ResolvedTs := 115;
                 pos_Error := None; pos_Warning := Some errSink |} errSink)
    as (c' & p' & wn' & Ip & Pp & E); [ now left | reflexivity | ].
  destruct Ip as [Ip|[]]. injection Ip as <- <-. cbn [pos_Warning] in Pp.
  injection Pp as <-. exact E.
Defined.

(** ** The error recorded from a batch *)

(** The closure of a retryable batch, then the closures of a [patchState]
    if any, persisted: the last error of the batch is recorded. *)
Lemma persist_record_errors errs st info w :
  rs_pendingPatches st = [] ->
  rs_Info st = Some info ->
  errs <> [] ->
  (exists flags st' info',
     persist (enqueue_all st [InfoPatch (record_errors errs)]) w
       = Some ((flags, st'), w) /\
     rs_Info st' = Some info' /\
     info_Error info' = last (map Some errs) None /\
     info_State info' = info_State info) /\
  (forall s a u,
     exists flags st' w' info',
       persist (enqueue_all (enqueue_all st [InfoPatch (record_errors errs)])
                  (statePatches s a u)) w
         = Some ((flags, st'), w') /\
       rs_Info st' = Some info' /\
       info_Error info' = last (map Some errs) None /\
       info_State info' = s).
Proof.
  intros P I N.
  set (info1 := fold_left (fun info err => set_info_Error info (Some err)) errs info).
  assert (A1 : applyPatches [InfoPatch (record_errors errs)] st w =
               Some (([true], set_rs_Info st (Some info1)), w)).
  { cbn [applyPatches applyPatch record_errors]. rewrite I. cbn [bind].
    destruct errs as [|e errs]; [ now destruct N | reflexivity ]. }
  destruct (fold_set_info_Error errs info) as (F1 & _ & F3 & _).
  fold info1 in F1, F3.
  assert (L : info_Error info1 = last (map Some errs) None).
  { rewrite F3. destruct errs as [|e errs]; [ now destruct N | ].
    apply (last_cons_default (map Some errs) (Some e)). }
  split.
  - rewrite persist_enqueue_all by exact P.
    rewrite set_rs_pendingPatches_same by exact P. rewrite A1.
    do 3 eexists. split; [ reflexivity | ].
    cbn [rs_Info set_rs_Info]. split; [ reflexivity | ]. split; assumption.
  - intros s a u. rewrite enqueue_all_app.
    rewrite persist_enqueue_all by exact P.
    rewrite set_rs_pendingPatches_same by exact P.
    rewrite applyPatches_app, A1. cbn [bind].
    destruct (applyPatches_statePatches_full s a u (set_rs_Info st (Some info1)) w
                (info := info1) eq_refl)
      as (flags & st' & w' & info' & E & I' & S' & _ & Er & _).
    rewrite E. cbn [bind]. do 3 eexists. exists info'.
    split; [ reflexivity | ]. split; [ exact I' | ].
    split; [ now rewrite Er | exact S' ].
Qed.

Lemma run_after_wait {B : Type} (X : feedStateManager B) s :
  ShouldRunning (set_state (set_shouldBeRunning X false) s) = false.
Proof. reflexivity. Qed.

Lemma run_after_advance {B : Type} (X : feedStateManager B) d b s :
  ShouldRunning (set_state (set_lastErrorTime (set_backoff X d b) time_Unix_0_0) s)
  = shouldBeRunning X.
Proof. reflexivity. Qed.

Lemma run_after_stop {B : Type} (X : feedStateManager B) d b s :
  ShouldRunning
    (set_state (set_shouldBeRunning
                  (set_lastErrorTime (set_backoff X d b) time_Unix_0_0) false) s)
  = false.
Proof. reflexivity. Qed.

(** X16.  Of a batch of retryable errors the last one is recorded.  When
    [handleError] receives a non-empty batch with no fast-fail and no
    unretryable error, on a feed that is not Stopped, it returns, and once
    its patches are applied the error of the info is the last error of the
    batch; the feed is then either held down (should-run false, state
    Error or Failed) or left as it was (should-run and state unchanged). *)
Theorem retryable_batch_records_last :
  forall (B : Type) (BO : ExponentialBackOff B) (EC : ErrorClassifier)
         (clk : TickClock) (errs : list RunningError) (m : feedStateManager B)
         (st : ChangefeedReactorState) (info : ChangeFeedInfo) (w : World),
    errs <> [] ->
    rs_pendingPatches st = [] ->
    rs_Info st = Some info ->
    info_State info <> StateStopped ->
    find (fun err => IsChangefeedFastFailErrorCode (err_Code err)) errs = None ->
    find IsChangefeedUnRetryableError errs = None ->
    exists m' st1 flags st' w' info',
      handleError clk errs (set_state m (Some st)) = Some m' /\
      state m' = Some st1 /\
      persist st1 w = Some ((flags, st'), w') /\
      rs_Info st' = Some info' /\
      info_Error info' = last (map Some errs) None /\
      ((ShouldRunning m' = false /\
        (info_State info' = StateError \/ info_State info' = StateFailed)) \/
       (ShouldRunning m' = ShouldRunning m /\ info_State info' = info_State info)).
Proof.
  intros B BO EC clk errs m st info w N P I NS FF UR.
  rewrite handleError_retryable with (info := info);
    [ | exact I | exact NS | exact FF | exact UR ].
  rewrite backoffBookkeeping_eq with (info := info); [ | exact I ].
  assert (L : (0 <? List.length errs)%nat = true).
  { destruct errs; [ now destruct N | reflexivity ]. }
  rewrite L. cbn [bind].
  set (m0 := if isChangefeedStable m
             then resetErrBackoff (set_lastErrorTime m (time_Now (now_error clk)))
             else set_lastErrorTime m (time_Now (now_error clk))).
  assert (F0 : lastErrorTime m0 = time_Now (now_error clk) /\
               shouldBeRunning m0 = shouldBeRunning m).
  { unfold m0. destruct (isChangefeedStable m); [ | split; reflexivity ].
    destruct (resetErrBackoff_fields
                (set_lastErrorTime m (time_Now (now_error clk))))
      as (_ & _ & A & C & _).
    rewrite A, C. split; reflexivity. }
  destruct F0 as [LT0 SR0].
  destruct (shiftStateWindow_fields (info_State info) m0) as (_ & _ & LT1 & SR1 & _).
  set (m1 := shiftStateWindow (info_State info) m0) in *.
  assert (TE : Time_eqb (lastErrorTime m1) time_Unix_0_0 = false).
  { rewrite LT1, LT0. apply Time_eqb_Now. }
  destruct (@persist_record_errors errs st info w P I N) as [(f0 & s0 & i0 & E0 & I0 & Er0 & S0) PS].
  destruct (Z_lt_le_dec (time_Since (now_gate clk) (lastErrorTime m1))
              (backoffInterval m1)) as [Lt|Le].
  - rewrite restartGate_wait by assumption.
    destruct (PS StateError AdminStop true) as (f1 & s1 & w1 & i1 & E1 & I1 & Er1 & S1).
    do 3 eexists. exists s1, w1, i1.
    split; [ reflexivity | ]. split; [ reflexivity | ]. split; [ exact E1 | ].
    split; [ exact I1 | ]. split; [ exact Er1 | ].
    left. split; [ apply run_after_wait | now left ].
  - rewrite restartGate_advance by assumption. cbv zeta.
    destruct (fst (NextBackOff (errBackoff m1)) =? Stop).
    + destruct (PS StateFailed AdminStop true)
        as (f1 & s1 & w1 & i1 & E1 & I1 & Er1 & S1).
      do 3 eexists. exists s1, w1, i1.
      split; [ reflexivity | ]. split; [ reflexivity | ]. split; [ exact E1 | ].
      split; [ exact I1 | ]. split; [ exact Er1 | ].
      left. split; [ apply run_after_stop | now right ].
    + do 3 eexists. exists s0, w, i0.
      split; [ reflexivity | ]. split; [ reflexivity | ]. split; [ exact E0 | ].
      split; [ exact I0 | ]. split; [ exact Er0 | ].
      right. split; [ | exact S0 ].
      etransitivity; [ apply run_after_advance | ].
      rewrite SR1, SR0. reflexivity.
Qed.

Lemma retryable_batch_records_last_witness :
  let st := sampleState (sampleInfo StateNormal AdminNone None) AdminNone [] in
  exists m' st1 flags st' w' info',
    handleError (clockAt 5) [errSink; errPD] (set_state sampleManager (Some st))
      = Some m' /\
    state m' = Some st1 /\
    persist st1 sampleWorld = Some ((flags, st'), w') /\
    rs_Info st' = Some info' /\
    info_Error info' = Some errPD.
Proof.
  intros st.
  destruct (@retryable_batch_records_last SimpleBackOff _ _ (clockAt 5)
              [errSink; errPD] sampleManager st
              (sampleInfo StateNormal AdminNone None) sampleWorld)
    as (m' & st1 & flags & st' & w' & info' & E & S & P & I & Er & _);
    try reflexivity; try discriminate.
  exists m', st1, flags, st', w', info'. repeat split; assumption.
Defined.

Lemma find_existsb {A : Type} (f : A -> bool) (l : list A) :
  existsb f l = match find f l with Some _ => true | None => false end.
Proof.
  induction l as [|a l IH]; [ reflexivity | ].
  cbn [existsb find]. destruct (f a); [ reflexivity | exact IH ].
Qed.

(** X17.  From Stopped the error handler can only fail the feed.  On a
    Stopped feed [handleError] returns for every batch; when the batch
    holds a fast-fail error the feed is patched to Failed with should-run
    false, and otherwise the batch is ignored: no patch is queued and the
    manager is left as it was, so that the feed never goes from Stopped to
    Error or Normal through this handler. *)
Theorem stopped_feed_only_fails :
  forall (B : Type) (BO : ExponentialBackOff B) (EC : ErrorClassifier)
         (clk : TickClock) (errs : list RunningError) (m : feedStateManager B)
         (st : ChangefeedReactorState) (info : ChangeFeedInfo) (w : World),
    rs_pendingPatches st = [] ->
    rs_Info st = Some info ->
    info_State info = StateStopped ->
    exists m' st1 flags st' w' info',
      handleError clk errs (set_state m (Some st)) = Some m' /\
      state m' = Some st1 /\
      persist st1 w = Some ((flags, st'), w') /\
      rs_Info st' = Some info' /\
      if existsb (fun err => IsChangefeedFastFailErrorCode (err_Code err)) errs
      then info_State info' = StateFailed /\ ShouldRunning m' = false
      else m' = set_state m (Some st) /\ st' = st /\ flags = [] /\ w' = w.
Proof.
  intros B BO EC clk errs m st info w P I S.
  rewrite find_existsb.
  destruct (find (fun err => IsChangefeedFastFailErrorCode (err_Code err)) errs)
    as [e|] eqn:F.
  - rewrite (handleError_fast_fail clk errs m st F).
    destruct (runInfo_record_patch e StateFailed AdminStop true info w)
      as (info' & w' & R & S' & _ & _).
    destruct (@applyPatches_info
                [InfoPatch (record_error e);
                 StatusPatch (patchState_status AdminStop);
                 InfoPatch (patchState_info StateFailed AdminStop true)])
      with (st := st) (w := w) (v' := Some info') (w' := w')
      as (flags & st' & A & I').
    { repeat constructor. apply quiet_patchState_status. }
    { rewrite I. exact R. }
    do 2 eexists. exists flags, st', w', info'.
    split; [ reflexivity | ]. split; [ reflexivity | ].
    split.
    { rewrite persist_enqueue_all by exact P.
      rewrite set_rs_pendingPatches_same by exact P. exact A. }
    split; [ exact I' | ]. split; [ exact S' | apply run_after_wait ].
  - exists (set_state m (Some st)), st, [], st, w, info.
    split.
    { unfold handleError. rewrite F. cbn [state set_state bind]. rewrite I, S.
      reflexivity. }
    split; [ reflexivity | ].
    split.
    { unfold persist. rewrite P. cbn [applyPatches].
      now rewrite set_rs_pendingPatches_same by exact P. }
    split; [ exact I | ]. repeat split.
Qed.

Lemma stopped_feed_only_fails_witness :
  let st := sampleState (sampleInfo StateStopped AdminStop None) AdminStop [] in
  exists m' st1 flags st' w' info',
    handleError (clockAt 5) [errPD; errColumn] (set_state sampleManager (Some st))
      = Some m' /\
    state m' = Some st1 /\
    persist st1 sampleWorld = Some ((flags, st'), w') /\
    rs_Info st' = Some info' /\
    st' = st.
Proof.
  intros st.
  destruct (@stopped_feed_only_fails SimpleBackOff _ _ (clockAt 5)
              [errPD; errColumn] sampleManager st
              (sampleInfo StateStopped AdminStop None) sampleWorld
              eq_refl eq_refl eq_refl)
    as (m' & st1 & flags & st' & w' & info' & E & S & P & I & R).
  cbn in R. destruct R as (_ & R & _).
  exists m', st1, flags, st', w', info'. repeat split; assumption.
Defined.

(** ** A new manager *)

Section NewManager.
Context {B : Type} `{ExponentialBackOff B} `{ErrorClassifier}.

Lemma newFeedStateManager_history :
  stateHistory (newFeedStateManager : feedStateManager B)
  = repeat StateUnset defaultStateWindowSize.
Proof.
  unfold newFeedStateManager. cbv zeta. cbn [stateHistory set_lastErrorTime].
  match goal with
  | |- stateHistory (resetErrBackoff ?f) = _ =>
      destruct (resetErrBackoff_fields f) as (_ & _ & _ & _ & C & _); rewrite C
  end.
  reflexivity.
Qed.

Lemma skipn_repeat {A : Type} (x : A) (n k : nat) :
  skipn n (repeat x k) = repeat x (k - n).
Proof.
  revert n. induction k as [|k IH]; intros n.
  - now rewrite skipn_nil.
  - destruct n as [|n]; [ reflexivity | ]. cbn [repeat skipn Nat.sub]. apply IH.
Qed.
End NewManager.

(** X18.  A new manager has to see 512 Normal states before it counts the
    changefeed as stable.  Its state window starts with 512 unset entries,
    so after any run of samples, one [shiftStateWindow] each, the
    changefeed is stable exactly when the run has at least 512 samples and
    the last 512 of them are all Normal. *)
Theorem new_manager_warms_up :
  forall (B : Type) (BO : ExponentialBackOff B) (EC : ErrorClassifier)
         (samples : list FeedState),
    isChangefeedStable (shiftAll samples (newFeedStateManager : feedStateManager B))
      = true <->
    (defaultStateWindowSize <= List.length samples)%nat /\
    Forall (fun s => s = StateNormal)
           (skipn (List.length samples - defaultStateWindowSize) samples).
Proof.
  intros B BO EC samples.
  assert (L : List.length (stateHistory (newFeedStateManager : feedStateManager B))
              = defaultStateWindowSize).
  { rewrite newFeedStateManager_history. apply repeat_length. }
  destruct (shiftAll_history samples _ L) as [E _].
  unfold isChangefeedStable. rewrite E, newFeedStateManager_history.
  rewrite skipn_app, repeat_length, skipn_repeat, forallb_app.
  rewrite andb_true_iff, !forallb_forall, Forall_forall.
  split.
  - intros [U N]. split.
    + destruct (le_lt_dec defaultStateWindowSize (List.length samples)) as [Le|Lt];
        [ exact Le | exfalso ].
      assert (I : In StateUnset
                    (repeat StateUnset (defaultStateWindowSize - List.length samples))).
      { destruct (defaultStateWindowSize - List.length samples)%nat eqn:D;
          [ lia | now left ]. }
      apply U in I. discriminate I.
    + intros s I. apply FeedState_eqb_eq. now apply N.
  - intros [Le N]. split.
    + replace (defaultStateWindowSize - List.length samples)%nat with 0%nat by lia.
      intros s [].
    + intros s I. apply FeedState_eqb_eq. now apply N.
Qed.

(** ** Resume without an overwrite *)

Lemma patchState_info_no_epoch s a info w :
  exists info' changed,
    patchState_info s a false (Some info) w = Some ((Some info', changed), w) /\
    let eff := if changed then info' else info in
    info_State eff = s /\ info_AdminJobType eff = a /\
    info_Error eff = info_Error info /\ info_Warning eff = info_Warning info /\
    info_StartTs eff = info_StartTs info /\ info_Epoch eff = info_Epoch info.
Proof.
  unfold patchState_info.
  destruct (FeedState_eqb (info_State info) s) eqn:Es;
    destruct (AdminJobType_eqb (info_AdminJobType info) a) eqn:Ea;
    cbn [negb info_AdminJobType set_info_State]; rewrite ?Ea; cbn [negb];
    try apply FeedState_eqb_eq in Es; try apply AdminJobType_eqb_eq in Ea;
    do 2 eexists; (split; [ reflexivity | simpl; auto 10 ]).
Qed.

(** The closures of a [patchState] that does not update the epoch: the
    world is not reached and the epoch is kept. *)
Lemma applyPatches_statePatches_no_epoch s a st info w :
  rs_Info st = Some info ->
  exists flags st' info',
    applyPatches (statePatches s a false) st w = Some ((flags, st'), w) /\
    rs_Info st' = Some info' /\
    info_State info' = s /\ info_AdminJobType info' = a /\
    info_Error info' = info_Error info /\
    info_Warning info' = info_Warning info /\
    info_StartTs info' = info_StartTs info /\
    info_Epoch info' = info_Epoch info /\
    rs_Status st' = option_map (fun s0 => set_status_AdminJobType s0 a) (rs_Status st) /\
    rs_TaskPositions st' = rs_TaskPositions st /\
    rs_pendingPatches st' = rs_pendingPatches st.
Proof.
  intros I. unfold statePatches. cbn [applyPatches].
  destruct (applyPatch_patchState_status a st w) as (c1 & E1 & _).
  rewrite E1. cbn [bind].
  set (st1 := set_rs_Status st _).
  destruct (patchState_info_no_epoch s a info w)
    as (info1 & c2 & E2 & S2 & A2 & Er2 & W2 & T2 & Ep2).
  unfold applyPatch.
  change (rs_Info st1) with (rs_Info st). rewrite I, E2. cbn [bind].
  exists [c1; c2], (if c2 then set_rs_Info st1 (Some info1) else st1),
         (if c2 then info1 else info).
  split; [ reflexivity | ].
  destruct c2; cbn [rs_Info set_rs_Info]; repeat split; auto.
Qed.

(** X19.  A Resume job without an overwrite timestamp resumes the feed
    where it stopped.  When the job handled from Failed, Error, Stopped or
    Finished has overwrite-checkpoint 0, applying the patches of the tick
    does not panic (also when the status is nil) and does not reach the PD
    client; the info is Normal with no error and keeps its start-ts, its
    epoch and its warning, the status keeps its timestamps and has admin
    job type AdminNone, and the task positions are kept. *)
Theorem resume_keeps_checkpoint :
  forall (B : Type) (BO : ExponentialBackOff B) (EC : ErrorClassifier)
         (clk : TickClock) (st : ChangefeedReactorState) (m : feedStateManager B)
         (job : AdminJob) (rest : list AdminJob) (info : ChangeFeedInfo) (w : World),
    adminJobQueue m = job :: rest ->
    ChangeFeedID_eqb (job_CfID job) (rs_ID st) = true ->
    job_Type job = AdminResume ->
    job_OverwriteCheckpointTs job <= 0 ->
    rs_Info st = Some info ->
    rs_pendingPatches st = [] ->
    In (info_State info) [StateFailed; StateError; StateStopped; StateFinished] ->
    exists m' st1 flags st' info',
      Tick clk st m = Some (true, m') /\
      state m' = Some st1 /\
      persist st1 w = Some ((flags, st'), w) /\
      rs_Info st' = Some info' /\
      info_State info' = StateNormal /\
      info_Error info' = None /\
      info_StartTs info' = info_StartTs info /\
      info_Epoch info' = info_Epoch info /\
      info_Warning info' = info_Warning info /\
      rs_Status st' =
        option_map (fun s => set_status_AdminJobType s AdminNone) (rs_Status st) /\
      rs_TaskPositions st' = rs_TaskPositions st.
Proof.
  intros B BO EC clk st m job rest info w Q A T O I P S.
  rewrite (Tick_resume clk st m Q A T I S).
  apply Z.ltb_ge in O.
  destruct (applyPatches_statePatches_no_epoch StateNormal AdminNone st w I)
    as (f1 & st1 & info1 & E1 & I1 & S1 & A1 & Er1 & W1 & T1 & Ep1 & St1 & TP1 & P1).
  set (info2 := match info_Error info1 with
                | Some _ => set_info_Error info1 None
                | None => info1
                end).
  set (c2 := match info_Error info1 with Some _ => true | None => false end).
  set (st2 := if c2 then set_rs_Info st1 (Some info2) else st1).
  assert (E2 : applyPatches [InfoPatch (resume_info job); StatusPatch (resume_status job)]
                  st1 w = Some (([c2; false], st2), w)).
  { cbn [applyPatches applyPatch]. unfold resume_info, resume_status.
    rewrite I1, O. unfold st2, c2, info2.
    destruct (info_Error info1); reflexivity. }
  assert (F2 : rs_Info st2 = Some info2 /\ rs_Status st2 = rs_Status st1 /\
               rs_TaskPositions st2 = rs_TaskPositions st1 /\
               rs_pendingPatches st2 = rs_pendingPatches st1).
  { unfold st2, c2, info2. destruct (info_Error info1) eqn:Er;
      cbn [rs_Info rs_Status rs_TaskPositions rs_pendingPatches set_rs_Info];
      auto. }
  destruct F2 as (I2 & St2 & TP2 & P2).
  assert (G2 : info_State info2 = StateNormal /\ info_AdminJobType info2 = AdminNone /\
               info_Error info2 = None /\ info_StartTs info2 = info_StartTs info /\
               info_Epoch info2 = info_Epoch info /\
               info_Warning info2 = info_Warning info).
  { unfold info2. destruct (info_Error info1) eqn:Er; simpl; auto 10. }
  destruct G2 as (S2 & A2 & Er2 & T2 & Ep2 & W2).
  assert (E3 : applyPatches (statePatches StateNormal AdminNone false) st2 w =
               Some (([false; false], st2), w)).
  { apply applyPatches_statePatches_settled with (info := info2); auto.
    intros s0 E0. rewrite St2, St1 in E0.
    destruct (rs_Status st) as [s1|]; [ | discriminate ].
    injection E0 as <-. reflexivity. }
  do 2 eexists. exists (f1 ++ [c2; false] ++ [false; false]), st2, info2.
  split; [ reflexivity | ]. split; [ reflexivity | ].
  split.
  { rewrite persist_enqueue_all by exact P.
    rewrite set_rs_pendingPatches_same by exact P.
    rewrite applyPatches_app, E1. cbn [bind].
    rewrite applyPatches_app, E2. cbn [bind]. rewrite E3. reflexivity. }
  split; [ exact I2 | ]. split; [ exact S2 | ]. split; [ exact Er2 | ].
  split; [ exact T2 | ]. split; [ exact Ep2 | ]. split; [ exact W2 | ].
  split; [ now rewrite St2 | now rewrite TP2 ].
Qed.

Lemma resume_keeps_checkpoint_witness :
  let st := {| rs_ID := sampleID;
               rs_Info := Some (sampleInfo StateFailed AdminStop (Some errGCTTL));
               rs_Status := None; rs_TaskPositions := idlePositions;
               rs_pendingPatches := [] |} in
  exists m' st1 flags st' info',
    Tick (clockAt 5) st (set_adminJobQueue sampleManager [sampleResume])
      = Some (true, m') /\
    state m' = Some st1 /\
    persist st1 sampleWorld = Some ((flags, st'), sampleWorld) /\
    rs_Info st' = Some info' /\
    info_State info' = StateNormal /\
    info_Error info' = None /\
    info_StartTs info' = 100 /\
    rs_Status st' = None.
Proof.
  intros st.
  destruct (@resume_keeps_checkpoint SimpleBackOff _ _ (clockAt 5) st
              (set_adminJobQueue sampleManager [sampleResume]) sampleResume []
              (sampleInfo StateFailed AdminStop (Some errGCTTL)) sampleWorld
              eq_refl eq_refl eq_refl)
    as (m' & st1 & flags & st' & info' & T & S & P & I & N & Er & Ts & _ & _ & St & _).
  { cbn. discriminate. }
  { reflexivity. }
  { reflexivity. }
  { simpl. auto. }
  exists m', st1, flags, st', info'. repeat split; assumption.
Defined.

(** X20.  The status closure of Resume is not nil-safe.  A Resume job with
    a positive overwrite-checkpoint, handled from Failed, Error, Stopped
    or Finished while the status is nil, makes the tick return true, but
    applying the patches of that tick panics: the closure reads
    [status.CheckpointTs] of the nil status. *)
Theorem resume_overwrite_needs_status :
  forall (B : Type) (BO : ExponentialBackOff B) (EC : ErrorClassifier)
         (clk : TickClock) (st : ChangefeedReactorState) (m : feedStateManager B)
         (job : AdminJob) (rest : list AdminJob) (info : ChangeFeedInfo) (w : World),
    adminJobQueue m = job :: rest ->
    ChangeFeedID_eqb (job_CfID job) (rs_ID st) = true ->
    job_Type job = AdminResume ->
    0 < job_OverwriteCheckpointTs job ->
    rs_Info st = Some info ->
    rs_Status st = None ->
    rs_pendingPatches st = [] ->
    In (info_State info) [StateFailed; StateError; StateStopped; StateFinished] ->
    exists m' st1,
      Tick clk st m = Some (true, m') /\
      state m' = Some st1 /\
      persist st1 w = None.
Proof.
  intros B BO EC clk st m job rest info w Q A T O I N P S.
  rewrite (Tick_resume clk st m Q A T I S).
  apply Z.ltb_lt in O.
  destruct (applyPatches_statePatches_no_epoch StateNormal AdminNone st w I)
    as (f1 & st1 & info1 & E1 & I1 & _ & _ & _ & _ & _ & _ & St1 & _).
  rewrite N in St1. cbn [option_map] in St1.
  do 2 eexists. split; [ reflexivity | ]. split; [ reflexivity | ].
  rewrite persist_enqueue_all by exact P.
  rewrite set_rs_pendingPatches_same by exact P.
  rewrite applyPatches_app, E1. cbn [bind].
  rewrite applyPatches_app.
  assert (E2 : applyPatches [InfoPatch (resume_info job); StatusPatch (resume_status job)]
                 st1 w = None).
  { cbn [applyPatches applyPatch]. unfold resume_info, resume_status.
    rewrite I1, O.
    destruct (info_Error (set_info_StartTs info1 (job_OverwriteCheckpointTs job)));
      cbn [bind rs_Status set_rs_Info]; rewrite St1; reflexivity. }
  rewrite E2. reflexivity.
Qed.

Lemma resume_overwrite_needs_status_witness :
  let st := {| rs_ID := sampleID;
               rs_Info := Some (sampleInfo StateFailed AdminStop (Some errGCTTL));
               rs_Status := None; rs_TaskPositions := idlePositions;
               rs_pendingPatches := [] |} in
  let job := {| job_CfID := sampleID; job_Type := AdminResume;
                job_OverwriteCheckpointTs := 150 |} in
  exists m' st1,
    Tick (clockAt 5) st (set_adminJobQueue sampleManager [job]) = Some (true, m') /\
    state m' = Some st1 /\
    persist st1 sampleWorld = None.
Proof.
  intros st job.
  apply (@resume_overwrite_needs_status SimpleBackOff _ _ (clockAt 5) st
           (set_adminJobQueue sampleManager [job]) job []
           (sampleInfo StateFailed AdminStop (Some errGCTTL)) sampleWorld);
    try reflexivity.
  simpl. auto.
Defined.

(** ** Should-run and the pending restart *)

(** X21.  A feed is never left running while a restart is pending.  After
    every tick on an existing info (with an error recorded when the state
    is Error), whatever the manager held before, should-run true implies
    that [lastErrorTime] is the sentinel [time.Unix(0, 0)]: the tick
    either kept the feed down or cleared the time of the last error. *)
Theorem running_feed_has_no_pending_restart :
  forall (B : Type) (BO : ExponentialBackOff B) (EC : ErrorClassifier)
         (clk : TickClock) (st : ChangefeedReactorState) (m : feedStateManager B)
         (info : ChangeFeedInfo),
    rs_Info st = Some info ->
    (info_State info = StateError -> info_Error info <> None) ->
    exists b m',
      Tick clk st m = Some (b, m') /\
      (ShouldRunning m' = true -> lastErrorTime m' = time_Unix_0_0).
Proof.
  intros B BO EC clk st m info I E.
  destruct (Tick_shape clk st m I E) as (b & X & new & T & _ & _ & L).
  do 2 eexists. split; [ exact T | ].
  unfold ShouldRunning. cbn [shouldBeRunning lastErrorTime set_state]. exact L.
Qed.

Lemma running_feed_has_no_pending_restart_witness :
  let st := sampleState (sampleInfo StateError AdminStop (Some errPD)) AdminStop
              retryablePositions in
  exists b m',
    Tick (clockAt 5) st (set_lastErrorTime sampleManager (time_Now (now_error (clockAt 0))))
      = Some (b, m') /\
    (ShouldRunning m' = true -> lastErrorTime m' = time_Unix_0_0).
Proof.
  intros st.
  apply (@running_feed_has_no_pending_restart SimpleBackOff _ _ (clockAt 5) st
           (set_lastErrorTime sampleManager (time_Now (now_error (clockAt 0))))
           (sampleInfo StateError AdminStop (Some errPD)) eq_refl).
  intros _ HE. discriminate HE.
Defined.

(** ** The warnings of the processors *)

Lemma warningPatches_length tps :
  List.length (warningPatches tps) =
  List.length (filter (fun entry => match pos_Warning (snd entry) with
                                    | Some _ => true
                                    | None => false
                                    end) tps).
Proof.
  unfold warningPatches. induction tps as [|[c p] rest IH]; [ reflexivity | ].
  cbn [flat_map filter snd]. destruct (pos_Warning p); cbn [app List.length];
    now rewrite IH.
Qed.

(** X22.  [warningsReportedByProcessors] on a bound manager returns one
    warning per code: the codes of the warnings it returns are pairwise
    distinct, each of them is the warning of some task position, and every
    warning of a task position has its code among them.  The errors of the
    task positions play no part, and the manager is changed only by the
    patches queued, one per task position that holds a warning. *)
Theorem warnings_reported_once_per_code :
  forall (B : Type) (BO : ExponentialBackOff B) (EC : ErrorClassifier)
         (m : feedStateManager B) (st : ChangefeedReactorState),
    exists warnings new,
      warningsReportedByProcessors (set_state m (Some st)) =
        Some (warnings, set_state m (Some (enqueue_all st new))) /\
      NoDup (map err_Code warnings) /\
      (forall e, In e warnings ->
         exists c p, In (c, p) (rs_TaskPositions st) /\ pos_Warning p = Some e) /\
      (forall c p e, In (c, p) (rs_TaskPositions st) -> pos_Warning p = Some e ->
         exists e', In e' warnings /\ err_Code e' = err_Code e) /\
      List.length new =
        List.length (filter (fun entry => match pos_Warning (snd entry) with
                                          | Some _ => true
                                          | None => false
                                          end) (rs_TaskPositions st)).
Proof.
  intros B BO EC m st.
  exists (reportedWarnings (rs_TaskPositions st)),
         (warningPatches (rs_TaskPositions st)).
  split; [ apply warningsReportedByProcessors_eq | ].
  destruct (byCode_values pos_Warning (rs_TaskPositions st)) as (R1 & R2 & R3).
  split; [ exact R1 | ]. split; [ exact R2 | ]. split; [ exact R3 | ].
  apply warningPatches_length.
Qed.
